(** * Shadow Reloaded speedrun dashboard: ranking and ingestion pipeline

    A shallow embedding of [dashboard_core/processing_runs.py],
    [dashboard_core/fetch_runs.py], [dashboard_core/api_client.py],
    [dashboard_core/api_utils.py] and [dashboard_core/io_utils.py], with
    the properties of the ranking engine and of the fetch pipeline. *)

From Stdlib Require Import QArith Qround Lqa ZArith Lia Ascii String SpecFloat.
From stdpp Require Import base option list sorting strings pretty gmap.

Local Open Scope Q_scope.
Local Open Scope Z_scope.
Local Open Scope nat_scope.
Local Open Scope string_scope.
Local Open Scope list_scope.

(** ** The table of cleaned runs

    [process_runs] builds a pandas DataFrame whose rows are the cleaned
    runs.  The identifier columns hold Python strings or [None]; the
    [primary_t] column holds float seconds, [NaN] for a missing value.
    The code only compares durations ([min], [!=], [rank]), never
    computes with them, so a finite float is represented by the rational
    it denotes, compared with [Qeq_bool] and [Qle_bool], and [NaN] (which
    pandas treats as the null of a float column) by [None].  Which
    rationals a float column holds is settled where the table is built
    ([float_cell]). *)

Record row := {
  run_id : option string;
  weblink : option string;
  category : option string;
  level : option string;
  player_id : option string;
  date : option string;
  primary_t : option Q;
  note : option string;
  character : option string;
  submitted : option string;
  place : option Z;      (* Int64, pd.NA as None *)
  obsolete : bool
}.

(** The string-valued columns a caller can group by. *)
Inductive column :=
| col_id | col_weblink | col_category | col_level | col_player_id
| col_date | col_note | col_character | col_submitted.

Definition cell (c : column) (r : row) : option string :=
  match c with
  | col_id => run_id r
  | col_weblink => weblink r
  | col_category => category r
  | col_level => level r
  | col_player_id => player_id r
  | col_date => date r
  | col_note => note r
  | col_character => character r
  | col_submitted => submitted r
  end.

Definition set_obsolete (b : bool) (r : row) : row :=
  {| run_id := run_id r; weblink := weblink r; category := category r;
     level := level r; player_id := player_id r; date := date r;
     primary_t := primary_t r; note := note r; character := character r;
     submitted := submitted r; place := place r; obsolete := b |}.

Definition set_place (p : option Z) (r : row) : row :=
  {| run_id := run_id r; weblink := weblink r; category := category r;
     level := level r; player_id := player_id r; date := date r;
     primary_t := primary_t r; note := note r; character := character r;
     submitted := submitted r; place := p; obsolete := obsolete r |}.

(** ** pandas group-by

    [df.groupby(keys)] runs with pandas' default [dropna=True]: a row
    with a null in any key column belongs to no group, and a transform
    or a rank gives it [NaN] (pandas 1.5 and later).  [group_key] is the
    tuple of key values of a row, [None] for such a dropped row. *)

Fixpoint group_key (keys : list column) (r : row) : option (list string) :=
  match keys with
  | [] => Some []
  | c :: keys' =>
      match cell c r, group_key keys' r with
      | Some v, Some vs => Some (v :: vs)
      | _, _ => None
      end
  end.

(** The rows of group [k], in table order. *)
Definition group_rows (keys : list column) (k : list string) (df : list row)
  : list row :=
  filter (fun r => group_key keys r = Some k) df.

(** The non-null durations of some rows (aggregations skip [NaN]). *)
Definition durations (rows : list row) : list Q :=
  omap primary_t rows.

Definition Qmin_bool (x y : Q) : Q := if Qle_bool x y then x else y.

(** [min] of a group: [NaN] when the group has no non-null value. *)
Definition group_min (xs : list Q) : option Q :=
  match xs with
  | [] => None
  | x :: xs' => Some (fold_left Qmin_bool xs' x)
  end.

(** [df.groupby(keys)["primary_t"].transform("min")]: one value per row
    of [df], the minimum of the row's group; [NaN] for a dropped row. *)
Definition transform_min (keys : list column) (df : list row)
  : list (option Q) :=
  map (fun r =>
         match group_key keys r with
         | None => None
         | Some k => group_min (durations (group_rows keys k df))
         end) df.

(** Element-wise [!=] of two float columns: a comparison with [NaN] is
    not an equality, so [!=] holds. *)
Definition float_ne (a b : option Q) : bool :=
  match a, b with
  | Some x, Some y => negb (Qeq_bool x y)
  | _, _ => true
  end.

(** [_mark_obsolete_runs(df, groupby_cols)] *)
Definition _mark_obsolete_runs (df : list row) (groupby_cols : list column)
  : list row :=
  let keys := groupby_cols ++ [col_player_id; col_note] in
  let best := transform_min keys df in
  zip_with (fun r b => set_obsolete (float_ne (primary_t r) b) r) df best.

(** ** Exceptions

    The exceptions the modelled code raises or lets escape.  [msg] is
    what [str(e)] gives; for the errors the interpreter raises it is
    abridged (the full text names the type of the offending object).  A
    [RuntimeError] raised with [from last_exc] records the failed HTTP
    attempt it was raised from. *)

Inductive request_exception :=
| NoResponse                      (* ConnectionError, Timeout: e.response is None *)
| HTTPError (status_code : Z) (retry_after : option string)
                                  (* raise_for_status(); e.response is set *)
| InvalidJSON.                    (* resp.json() failed; e.response is None *)

Inductive exn :=
| RuntimeError (msg : string) (cause : option request_exception)
| ValueError (msg : string)
| TypeError (msg : string)
| KeyError (msg : string)
| IndexError (msg : string)
| AttributeError (msg : string)
| OverflowError (msg : string)
| OSError (msg : string).

Definition str_exn (e : exn) : string :=
  match e with
  | RuntimeError msg _ | ValueError msg | TypeError msg
  | KeyError msg | IndexError msg | AttributeError msg
  | OverflowError msg | OSError msg => msg
  end.

Inductive result (A : Type) :=
| Ok (a : A)
| Raise (e : exn).
Arguments Ok {A} a.
Arguments Raise {A} e.

(** ** Competition ranking

    [rank(method="min", ascending=True)] sorts the values of a group and
    gives every value the smallest 1-based position at which a value
    equal to it stands in the sorted order. *)

Fixpoint insert_sorted (x : Q) (l : list Q) : list Q :=
  match l with
  | [] => [x]
  | y :: l' => if Qle_bool x y then x :: l else y :: insert_sorted x l'
  end.

Definition sort_asc (l : list Q) : list Q :=
  fold_right insert_sorted [] l.

Fixpoint first_index (x : Q) (l : list Q) : nat :=
  match l with
  | [] => 0
  | y :: l' => if Qeq_bool y x then 0 else S (first_index x l')
  end.

Definition rank_min (xs : list Q) (x : Q) : Z :=
  Z.of_nat (S (first_index x (sort_asc xs))).

(** [sub.groupby(keys)["primary_t"].rank(method="min", ascending=True)
    .astype("Int64")]: one rank per row of [sub]; rows with a null key or
    a null duration get [NA] (pandas' [na_option="keep"]). *)
Definition groupby_rank (keys : list column) (sub : list row)
  : list (option Z) :=
  map (fun r =>
         match group_key keys r, primary_t r with
         | Some k, Some t => Some (rank_min (durations (group_rows keys k sub)) t)
         | _, _ => None
         end) sub.

(** [df.loc[mask, "place"] = ranks] with [mask = ~df["obsolete"]]: the
    ranks are those of the selected rows, in table order. *)
Fixpoint assign_place (df : list row) (ranks : list (option Z)) : list row :=
  match df with
  | [] => []
  | r :: df' =>
      if obsolete r then r :: assign_place df' ranks
      else match ranks with
           | p :: ranks' => set_place p r :: assign_place df' ranks'
           | [] => r :: assign_place df' []
           end
  end.

(** [_assign_ranking(df, groupby_cols)].  pandas refuses to group a
    non-empty frame by an empty list of keys. *)
Definition _assign_ranking (df : list row) (groupby_cols : list column)
  : result (list row) :=
  let sub := filter (fun r => obsolete r = false) df in
  match groupby_cols, sub with
  | [], _ :: _ => Raise (ValueError "No group keys passed!")
  | _, _ => Ok (assign_place df (groupby_rank groupby_cols sub))
  end.

(** [mark_obsolete_and_place(df, groupby_cols)] *)
Definition mark_obsolete_and_place (df : list row) (groupby_cols : list column)
  : result (list row) :=
  _assign_ranking (_mark_obsolete_runs df groupby_cols) groupby_cols.

(** ** JSON values and the Python operations the code applies to them

    What [json.load] and [resp.json()] return: [None], [bool], numbers,
    [str], [list], and [dict] with string keys.  A [dict] is kept as the
    list of its entries in insertion order, one entry per key. *)

#[local] Set Warnings "-register-all".
Inductive json :=
| JNull
| JBool (b : bool)
| JNum (q : Q)
| JStr (s : string)
| JArr (items : list json)
| JObj (fields : list (string * json)).

(** Truth value of [if x:] / [not x]. *)
Definition truthy (v : json) : bool :=
  match v with
  | JNull => false
  | JBool b => b
  | JNum q => negb (Qeq_bool q 0)
  | JStr s => negb (String.eqb s "")
  | JArr items => match items with [] => false | _ => true end
  | JObj fields => match fields with [] => false | _ => true end
  end.

Fixpoint dict_get (k : string) (fields : list (string * json)) : option json :=
  match fields with
  | [] => None
  | (k', v) :: fields' => if String.eqb k' k then Some v else dict_get k fields'
  end.

(** [o.get(k, dflt)]: only a [dict] has [get]. *)
Definition py_get (o : json) (k : string) (dflt : json) : result json :=
  match o with
  | JObj fields => Ok (default dflt (dict_get k fields))
  | _ => Raise (AttributeError "object has no attribute 'get'")
  end.

(** [o[k]] for a string [k]. *)
Definition py_getitem (o : json) (k : string) : result json :=
  match o with
  | JObj fields =>
      match dict_get k fields with
      | Some v => Ok v
      | None => Raise (KeyError ("'" +:+ k +:+ "'"))
      end
  | JArr _ | JStr _ => Raise (TypeError "indices must be integers")
  | _ => Raise (TypeError "object is not subscriptable")
  end.

(** [o[0]] *)
Definition py_first (o : json) : result json :=
  match o with
  | JArr (x :: _) => Ok x
  | JArr [] => Raise (IndexError "list index out of range")
  | JStr (String c _) => Ok (JStr (String c EmptyString))
  | JStr EmptyString => Raise (IndexError "string index out of range")
  | JObj _ => Raise (KeyError "0")
  | _ => Raise (TypeError "object is not subscriptable")
  end.

(** The items [for x in o] / [list.extend(o)] goes through: the elements
    of a list, the keys of a dict, the characters of a string. *)
Fixpoint chars (s : string) : list json :=
  match s with
  | EmptyString => []
  | String c s' => JStr (String c EmptyString) :: chars s'
  end.

Definition py_iter (o : json) : result (list json) :=
  match o with
  | JArr items => Ok items
  | JObj fields => Ok (map (fun kv => JStr (fst kv)) fields)
  | JStr s => Ok (chars s)
  | _ => Raise (TypeError "object is not iterable")
  end.

(** [v == s] for a string literal [s]. *)
Definition py_eq_str (v : json) (s : string) : bool :=
  match v with
  | JStr s' => String.eqb s' s
  | _ => false
  end.

(** Dictionary keys: lists and dicts are unhashable; [True == 1] and
    [False == 0], and equal keys are one key. *)
Definition hashable (k : json) : bool :=
  match k with
  | JArr _ | JObj _ => false
  | _ => true
  end.

Definition num_of_key (k : json) : option Q :=
  match k with
  | JBool b => Some (if b then 1%Q else 0%Q)
  | JNum q => Some q
  | _ => None
  end.

Definition key_eq (k1 k2 : json) : bool :=
  match k1, k2 with
  | JNull, JNull => true
  | JStr s1, JStr s2 => String.eqb s1 s2
  | _, _ =>
      match num_of_key k1, num_of_key k2 with
      | Some q1, Some q2 => Qeq_bool q1 q2
      | _, _ => false
      end
  end.

(** An insertion-ordered [dict]: [d[k] = v] replaces the value of an
    existing key where it stands and appends a new key at the end. *)
Definition pydict := list (json * json).

Fixpoint dict_set (d : pydict) (k v : json) : pydict :=
  match d with
  | [] => [(k, v)]
  | (k', v') :: d' =>
      if key_eq k' k then (k', v) :: d' else (k', v') :: dict_set d' k v
  end.

Definition dict_values (d : pydict) : list json := map snd d.

(** ** Python [int(s)] on the text of an HTTP header

    [http.client] decodes a header as ISO-8859-1, one character for
    every byte, so a character of the string is a code point below 256.
    Surrounding whitespace is stripped, one sign is allowed, and the
    digits may be grouped with single underscores.  [int] first turns
    every whitespace character above 127 into a blank (below 256 these
    are U+0085 and U+00A0) and then strips what C's [isspace] accepts:
    the blank and the characters 9 to 13, but not the separators 28 to
    31.  A literal of more than [sys.int_max_str_digits] digits, 4300
    unless the interpreter is told otherwise, is refused.  [None] stands
    for the [ValueError] of a string that [int] does not read. *)

Definition is_space (c : ascii) : bool :=
  let n := nat_of_ascii c in
  ((9 <=? n)%nat && (n <=? 13)%nat) || (n =? 32)%nat
  || (n =? 133)%nat || (n =? 160)%nat.

Definition digit_of (c : ascii) : option Z :=
  let n := nat_of_ascii c in
  if (48 <=? n)%nat && (n <=? 57)%nat then Some (Z.of_nat (n - 48)) else None.

Fixpoint lstrip (l : list ascii) : list ascii :=
  match l with
  | c :: l' => if is_space c then lstrip l' else l
  | [] => []
  end.

Definition strip (l : list ascii) : list ascii :=
  rev (lstrip (rev (lstrip l))).

Fixpoint digits_value (acc : Z) (after_digit : bool) (l : list ascii)
  : option Z :=
  match l with
  | [] => if after_digit then Some acc else None
  | c :: l' =>
      match digit_of c with
      | Some d => digits_value (10 * acc + d)%Z true l'
      | None =>
          if Ascii.eqb c "_"%char && after_digit
          then digits_value acc false l'
          else None
      end
  end.

Definition INT_MAX_STR_DIGITS : nat := 4300.

Definition count_digits (l : list ascii) : nat :=
  length (filter (fun c => is_Some (digit_of c)) l).

Definition py_int (s : string) : option Z :=
  let l := strip (list_ascii_of_string s) in
  if (INT_MAX_STR_DIGITS <? count_digits l)%nat then None
  else
    match l with
    | c :: l =>
        if Ascii.eqb c "-"%char then Z.opp <$> digits_value 0 false l
        else if Ascii.eqb c "+"%char then digits_value 0 false l
        else digits_value 0 false (c :: l)
    | [] => None
    end.

(** ** Python floats

    Where the code computes with a float, the float is the IEEE 754
    binary64 number itself, with the rounding of its operations. *)

(** [float(n)] for an integer [n]: an infinity stands for the
    [OverflowError] of an integer too large for a float. *)
Definition float_of_int (n : Z) : spec_float := binary_normalize 53 1024 n 0 false.

(** [x * y] on floats *)
Definition float_mul (x y : spec_float) : spec_float := SFmul 53 1024 x y.

(** The rational a finite float denotes, in lowest terms. *)
Definition float_value (x : spec_float) : option Q :=
  match x with
  | S754_zero _ => Some 0%Q
  | S754_finite s m e => Some (Qred (inject_Z (cond_Zopp s (Zpos m)) * 2 ^ e)%Q)
  | S754_infinity _ | S754_nan => None
  end.

(** The rationals that are the value of a float. *)
Definition is_float (q : Q) : bool :=
  let r := Qred q in
  let k := Z.log2 (Zpos (Qden r)) in
  (Zpos (Qden r) =? 2 ^ k)%Z
  && match float_value (binary_normalize 53 1024 (Qnum r) (- k) false) with
     | Some v => Qeq_bool v q
     | None => false
     end.

(** ** The world the pipeline runs in

    The remote API, the clock and the disk.  [net n url] is what the
    [n]-th HTTP request of the run gets when it asks for [url]: the
    server may answer anything at any time.  [requests] logs the URLs
    asked for and [slept] the lengths of the sleeps, in seconds, oldest
    first.  [sleep_refused k ns] tells whether the platform's sleep
    function, called when [k] requests have been sent, refuses a length
    of [ns] nanoseconds (see [sleep]).  A file is absent, holds a JSON
    document, or cannot be read as one.  [denied] tells the paths the
    operating system refuses to open for writing (an [OSError]).  Log
    messages are not part of the world. *)

Record response := {
  status_code : Z;
  retry_after : option string;   (* the Retry-After header, when sent *)
  body : option json             (* None: the body is not JSON *)
}.

Inductive reply :=
| Reply (r : response)
| NoReply.                       (* no response: connection error, timeout *)

Inductive file :=
| Content (j : json)
| Garbage.

Record world := {
  net : nat -> string -> reply;
  requests : list string;
  slept : list Q;
  sleep_refused : nat -> Z -> bool;
  files : gmap string file;
  denied : string -> bool
}.

Definition log_request (url : string) (w : world) : world :=
  {| net := net w; requests := requests w ++ [url]; slept := slept w;
     sleep_refused := sleep_refused w;
     files := files w; denied := denied w |}.

Definition log_sleep (secs : Q) (w : world) : world :=
  {| net := net w; requests := requests w; slept := slept w ++ [secs];
     sleep_refused := sleep_refused w;
     files := files w; denied := denied w |}.

Definition store (path : string) (j : json) (w : world) : world :=
  {| net := net w; requests := requests w; slept := slept w;
     sleep_refused := sleep_refused w;
     files := <[path := Content j]> (files w); denied := denied w |}.

(** ** [time.sleep]

    The argument of [time.sleep] is an [int] or a [float].  CPython
    (3.11) turns it into a signed 64-bit number of nanoseconds, rounding
    a fraction away from zero, and raises [OverflowError] when the
    number does not fit: an integer is multiplied by [10 ** 9] with a
    check of the bounds, a float is multiplied as a float and the
    product compared with [-2 ** 63] and [2 ** 63] (a product that is
    [2 ** 63] itself passes the comparison and the conversion makes
    [-2 ** 63] of it).  A negative length is then refused with
    [ValueError].  What is left goes to the sleep function of the
    platform, which refuses a length that is too long for it with
    [OSError] (Linux: one that ends after the last instant of its
    clock, 292 years after the boot), but none of up to a million
    seconds. *)

Inductive seconds :=
| IntSecs (n : Z)
| FloatSecs (x : spec_float).

(** The number of seconds as a rational (0 for a float that is not
    finite). *)
Definition seconds_value (secs : seconds) : Q :=
  match secs with
  | IntSecs n => inject_Z n
  | FloatSecs x => default 0%Q (float_value x)
  end.

Definition SEC_TO_NS : Z := 1000000000.
Definition PyTime_MIN : Z := - 2 ^ 63.
Definition PyTime_MAX : Z := 2 ^ 63 - 1.

Definition timestamp_too_large : exn :=
  OverflowError "timestamp too large to convert to C _PyTime_t".

(** [_PyTime_FromSecondsObject(&timeout, secs, _PyTime_ROUND_TIMEOUT)] *)
Definition nanoseconds (secs : seconds) : result Z :=
  match secs with
  | IntSecs n =>
      if (n <? Z.quot PyTime_MIN SEC_TO_NS)%Z || (Z.quot PyTime_MAX SEC_TO_NS <? n)%Z
      then Raise timestamp_too_large
      else Ok (n * SEC_TO_NS)%Z
  | FloatSecs S754_nan => Raise (ValueError "Invalid value NaN (not a number)")
  | FloatSecs x =>
      match float_value (float_mul x (float_of_int SEC_TO_NS)) with
      | None => Raise timestamp_too_large
      | Some d =>
          let d := if Qle_bool 0 d then Qceiling d else Qfloor d in
          if (PyTime_MIN <=? d)%Z && (d <=? - PyTime_MIN)%Z
          then Ok (if (d =? - PyTime_MIN)%Z then PyTime_MIN else d)
          else Raise timestamp_too_large
      end
  end.

(** The longest sleep, in nanoseconds, that no platform refuses. *)
Definition SLEEP_SURE : Z := 10 ^ 15.

(** What [time.sleep(secs)] raises, if anything, [refused] being the
    lengths the platform refuses at the time of the call. *)
Definition sleep_check (refused : Z -> bool) (secs : seconds) : result unit :=
  match nanoseconds secs with
  | Raise e => Raise e
  | Ok ns =>
      if (ns <? 0)%Z
      then Raise (ValueError "sleep length must be non-negative")
      else if (SLEEP_SURE <? ns)%Z && refused ns
      then Raise (OSError "[Errno 22] Invalid argument")
      else Ok tt
  end.

(** [time.sleep(secs)] *)
Definition sleep (secs : seconds) (w : world) : result unit * world :=
  match sleep_check (sleep_refused w (length (requests w))) secs with
  | Ok _ => (Ok tt, log_sleep (seconds_value secs) w)
  | Raise e => (Raise e, w)
  end.

(** [open(path, "w")] followed by [json.dump]: [false] on [OSError]. *)
Definition write_json (path : string) (j : json) (w : world) : bool * world :=
  if denied w path then (false, w) else (true, store path j w).

(** ** [io_utils.py] *)

(** [safe_read_json(path, default)] *)
Definition safe_read_json (path : string) (dflt : json) (w : world) : json :=
  match files w !! path with
  | Some (Content j) => j
  | Some Garbage => dflt        (* JSONDecodeError, or logged read error *)
  | None => dflt                (* FileNotFoundError *)
  end.

(** [safe_write_json(path, data)]: the [OSError] is logged, not raised. *)
Definition safe_write_json (path : string) (data : json) (w : world)
  : bool * world :=
  write_json path data w.

(** ** [constants.py] *)

Definition CACHE_FILE : string := "data/cache/shadow_reloaded_runs_cache.json".
Definition GAME_ID : string := "o1y3y346".
Definition API_PAGE_SIZE : nat := 200.
Definition API_TIMEOUT : Z := 10.
Definition NOTE_KEY : string := "68kwme38".
Definition CHARACTER_KEY : string := "38dgox08".

(** ** [api_utils.py] *)

(** What [requests.get(url, timeout=timeout)], [resp.raise_for_status()]
    and [resp.json()] make of a reply: the parsed body, or the
    [RequestException] raised. *)
Definition outcome (rep : reply) : request_exception + json :=
  match rep with
  | NoReply => inl NoResponse
  | Reply r =>
      if (400 <=? status_code r)%Z && (status_code r <? 600)%Z
      then inl (HTTPError (status_code r) (retry_after r))
      else match body r with
           | Some payload => inr payload
           | None => inl InvalidJSON
           end
  end.

Definition requests_get (url : string) (timeout : Z) (w : world)
  : (request_exception + json) * world :=
  (outcome (net w (length (requests w)) url), log_request url w).

(** [int(e.response.headers.get("Retry-After", 1))], 1 when that raises. *)
Definition retry_after_seconds (header : option string) : Z :=
  match header with
  | None => 1
  | Some s => default 1%Z (py_int s)
  end.

(** The argument of [time.sleep] in the [except] branch: the integer
    [retry_after], or the float [backoff_sec * (attempt + 1)], for which
    [attempt + 1] is made a float ([OverflowError] when it is too large
    for one).  [backoff_sec] is a float, as its default [2.0] is. *)
Definition retry_delay (backoff_sec : spec_float) (attempt : nat)
    (e : request_exception) : result seconds :=
  let backoff :=
    match float_of_int (Z.of_nat (attempt + 1)) with
    | S754_infinity _ => Raise (OverflowError "int too large to convert to float")
    | k => Ok (FloatSecs (float_mul backoff_sec k))
    end in
  match e with
  | HTTPError status header =>
      if (status =? 429)%Z then Ok (IntSecs (retry_after_seconds header))
      else backoff
  | _ => backoff                  (* e.response is None *)
  end.

(** What one turn of the retry loop ends in. *)
Inductive attempt_end :=
| Returned (data : json)              (* return data *)
| Escaped (e : exn)                   (* an exception the loop does not catch *)
| Retry (last_exc : request_exception).

Definition try_attempt (url : string) (cache_file : option string)
    (timeout : Z) (backoff_sec : spec_float) (attempt : nat) (w : world)
  : attempt_end * world :=
  match requests_get url timeout w with
  | (inr payload, w1) =>
      match payload with
      | JObj fields =>
          let data := default payload (dict_get "data" fields) in
          let w2 :=
            match cache_file, data with
            | None, _ | _, JNull => w1
            | Some path, _ => snd (write_json path data w1)
            end in
          (Returned data, w2)
      | _ => (Escaped (AttributeError "object has no attribute 'get'"), w1)
      end
  | (inl e, w1) =>
      match retry_delay backoff_sec attempt e with
      | Raise ex => (Escaped ex, w1)
      | Ok secs =>
          match sleep secs w1 with
          | (Ok _, w2) => (Retry e, w2)
          | (Raise ex, w2) => (Escaped ex, w2)
          end
      end
  end.

(** [for attempt in range(max_retries + 1): ...] over the attempt
    indices still to run.  [inr last_exc] when every attempt failed. *)
Fixpoint retry_loop (url : string) (cache_file : option string) (timeout : Z)
    (backoff_sec : spec_float) (attempts : list nat)
    (last_exc : option request_exception) (w : world)
  : (result json + option request_exception) * world :=
  match attempts with
  | [] => (inr last_exc, w)
  | i :: attempts' =>
      match try_attempt url cache_file timeout backoff_sec i w with
      | (Returned data, w1) => (inl (Ok data), w1)
      | (Escaped e, w1) => (inl (Raise e), w1)
      | (Retry e, w1) =>
          retry_loop url cache_file timeout backoff_sec attempts' (Some e) w1
      end
  end.

(** The defaults [max_retries=2] and [backoff_sec=2.0]. *)
Definition MAX_RETRIES : nat := 2.
Definition BACKOFF_SEC : spec_float := float_of_int 2.

(** [fetch_api_cached(url, cache_file, timeout, max_retries, backoff_sec)] *)
Definition fetch_api_cached (url : string) (cache_file : option string)
    (timeout : option Z) (max_retries : nat) (backoff_sec : spec_float)
    (w : world)
  : result json * world :=
  let timeout := match timeout with
                 | Some t => if (t =? 0)%Z then API_TIMEOUT else t
                 | None => API_TIMEOUT
                 end in
  match retry_loop url cache_file timeout backoff_sec
          (seq 0 (max_retries + 1)) None w with
  | (inl r, w1) => (r, w1)
  | (inr last_exc, w1) =>
      let failed := Raise (RuntimeError ("Failed to fetch " +:+ url) last_exc) in
      match cache_file with
      | Some path =>
          match files w1 !! path with
          | Some (Content j) => (Ok j, w1)
          | Some Garbage => (failed, w1)
          | None => (failed, w1)
          end
      | None => (failed, w1)
      end
  end.

(** ** [api_client.py] *)

Record ApiClient := {
  base : string;
  client_timeout : Z;
  client_page_size : nat
}.

(** [s.rstrip("/")] *)
Fixpoint rstrip_slash (s : string) : string :=
  match s with
  | EmptyString => EmptyString
  | String c s' =>
      match rstrip_slash s' with
      | EmptyString => if Ascii.eqb c "/"%char then EmptyString else String c EmptyString
      | t => String c t
      end
  end.

(** [ApiClient(base_url, timeout, page_size)] *)
Definition new_ApiClient (base_url : string) (timeout : Z) (page_size : nat)
  : ApiClient :=
  {| base := rstrip_slash base_url; client_timeout := timeout;
     client_page_size := page_size |}.

(** [ApiClient()] with the defaults of [__init__]. *)
Definition default_ApiClient : ApiClient :=
  new_ApiClient "https://www.speedrun.com/api/v1" API_TIMEOUT API_PAGE_SIZE.

Definition runs_url (self : ApiClient) (game_id : string) (m offset : nat)
  : string :=
  base self +:+ "/runs?game=" +:+ game_id +:+ "&max=" +:+ pretty m
    +:+ "&offset=" +:+ pretty offset.

(** [self.get_runs(game_id, offset, max, cache_file)] *)
Definition get_runs (self : ApiClient) (game_id : string) (offset : nat)
    (max : option nat) (cache_file : option string) (w : world)
  : result json * world :=
  let m := match max with
           | Some k => if (k =? 0)%nat then client_page_size self else k
           | None => client_page_size self
           end in
  fetch_api_cached (runs_url self game_id m offset) cache_file
    (Some (client_timeout self)) MAX_RETRIES BACKOFF_SEC w.

(** The [while True] loop of [get_all_runs].  The loop has no bound of
    its own (a server that never sends an empty page keeps it running):
    [fuel] bounds the number of turns, [None] when it runs out. *)
Fixpoint get_all_runs_loop (fuel : nat) (self : ApiClient) (game_id : string)
    (cache_file : option string) (max_pages page_size : option nat)
    (offset : nat) (all_runs : list json) (pages_fetched : nat) (w : world)
  : option (result (list json) * world) :=
  match fuel with
  | O => None
  | S fuel' =>
      match get_runs self game_id offset page_size cache_file w with
      | (Raise e, w1) => Some (Raise e, w1)
      | (Ok page, w1) =>
          if negb (truthy page) then Some (Ok all_runs, w1)
          else
            match py_iter page with
            | Raise e => Some (Raise e, w1)
            | Ok items =>
                let all_runs := all_runs ++ items in
                let pages_fetched := pages_fetched + 1 in
                if match max_pages with
                   | Some mp => (mp <=? pages_fetched)%nat
                   | None => false
                   end
                then Some (Ok all_runs, w1)
                else
                  let used_page := match page_size with
                                   | Some ps => ps
                                   | None => client_page_size self
                                   end in
                  get_all_runs_loop fuel' self game_id cache_file max_pages
                    page_size (offset + used_page) all_runs pages_fetched w1
            end
      end
  end.

(** [self.get_all_runs(game_id, cache_file, max_pages, page_size)] *)
Definition get_all_runs (fuel : nat) (self : ApiClient) (game_id : string)
    (cache_file : option string) (max_pages page_size : option nat)
    (w : world) : option (result (list json) * world) :=
  get_all_runs_loop fuel self game_id cache_file max_pages page_size 0 [] 0 w.

(** ** [fetch_runs.py] *)

(** [existing_runs + fetched_runs]: only a list can be added to a list. *)
Definition py_add_list (a : json) (b : list json) : result (list json) :=
  match a with
  | JArr items => Ok (items ++ b)
  | _ => Raise (TypeError "unsupported operand type(s) for +")
  end.

(** [{run["id"]: run for run in runs}] *)
Fixpoint index_by_id (d : pydict) (runs : list json) : result pydict :=
  match runs with
  | [] => Ok d
  | run :: runs' =>
      match py_getitem run "id" with
      | Raise e => Raise e
      | Ok k =>
          if hashable k then index_by_id (dict_set d k run) runs'
          else Raise (TypeError "unhashable type")
      end
  end.

(** [r.get("status", {}).get("status") == "verified"] *)
Definition is_verified (r : json) : result bool :=
  match py_get r "status" (JObj []) with
  | Raise e => Raise e
  | Ok st =>
      match py_get st "status" JNull with
      | Raise e => Raise e
      | Ok v => Ok (py_eq_str v "verified")
      end
  end.

(** [[r for r in rs if ...is_verified...]] *)
Fixpoint keep_verified (rs : list json) : result (list json) :=
  match rs with
  | [] => Ok []
  | r :: rs' =>
      match is_verified r with
      | Raise e => Raise e
      | Ok b =>
          match keep_verified rs' with
          | Raise e => Raise e
          | Ok vs => Ok (if b then r :: vs else vs)
          end
      end
  end.

Definition no_verified_runs (last_exc : option exn) : exn :=
  let msg := "Failed to obtain verified runs from API" in
  RuntimeError
    match last_exc with
    | Some e => msg +:+ ": " +:+ str_exn e
    | None => msg
    end
    None.

(** [last_exc] and [fetched_runs] after the [try] ... [except Exception]
    around the fetch. *)
Definition last_exc_of (fetched : result (list json)) : option exn :=
  match fetched with
  | Ok _ => None
  | Raise e => Some e
  end.

Definition fetched_runs_of (fetched : result (list json)) : list json :=
  match fetched with
  | Ok runs => runs
  | Raise _ => []
  end.

(** [fetch_verified_runs()] *)
Definition fetch_verified_runs (fuel : nat) (w : world)
  : option (result json * world) :=
  let existing_runs := safe_read_json CACHE_FILE (JArr []) w in
  let client := default_ApiClient in
  match get_all_runs fuel client GAME_ID None None None w with
  | None => None
  | Some (fetched, w1) =>
      let last_exc := last_exc_of fetched in
      let fetched_runs := fetched_runs_of fetched in
      Some
        match py_add_list existing_runs fetched_runs with
        | Raise e => (Raise e, w1)
        | Ok runs =>
            match index_by_id [] runs with
            | Raise e => (Raise e, w1)
            | Ok combined =>
                match keep_verified (dict_values combined) with
                | Raise e => (Raise e, w1)
                | Ok verified_runs =>
                    let w2 := snd (safe_write_json CACHE_FILE
                                     (JArr verified_runs) w1) in
                    let verified_runs := JArr verified_runs in
                    if negb (truthy verified_runs) && negb (truthy existing_runs)
                    then (Raise (no_verified_runs last_exc), w2)
                    else if negb (truthy verified_runs) && truthy existing_runs
                    then (Ok existing_runs, w2)
                    else (Ok verified_runs, w2)
                end
            end
        end
  end.

(** ** [processing_runs.py]: from verified runs to the ranked table *)

#[export] Instance result_ret : MRet result := fun A a => Ok a.
#[export] Instance result_bind : MBind result := fun A B f r =>
  match r with
  | Ok a => f a
  | Raise e => Raise e
  end.

(** The dict [process_runs] appends to [cleaned_runs] for one run. *)
Record cleaned_run := {
  c_id : json;
  c_weblink : json;
  c_category : json;
  c_level : json;
  c_player_id : json;
  c_date : json;
  c_primary_t : json;
  c_note : json;
  c_character : json;
  c_submitted : json
}.

(** The body of [for run in verified_runs:]. *)
Definition clean_run (run : json) : result cleaned_run :=
  players ← py_get run "players" JNull;
  let players := if truthy players then players else JArr [] in
  player_id ← (if truthy players
               then first ← py_first players; py_get first "id" JNull
               else Ok JNull);
  id ← py_getitem run "id";
  weblink ← py_getitem run "weblink";
  category ← py_getitem run "category";
  level ← py_get run "level" JNull;
  date ← py_getitem run "date";
  times ← py_getitem run "times";
  primary_t ← py_getitem times "primary_t";
  values ← py_getitem run "values";
  note ← py_getitem values NOTE_KEY;
  character ← py_getitem values CHARACTER_KEY;
  submitted ← py_getitem run "submitted";
  Ok {| c_id := id; c_weblink := weblink; c_category := category;
        c_level := level; c_player_id := player_id; c_date := date;
        c_primary_t := primary_t; c_note := note;
        c_character := character; c_submitted := submitted |}.

Fixpoint clean_runs (verified_runs : list json) : result (list cleaned_run) :=
  match verified_runs with
  | [] => Ok []
  | run :: runs' =>
      c ← clean_run run;
      cs ← clean_runs runs';
      Ok (c :: cs)
  end.

(** [pd.DataFrame(cleaned_runs, columns=expected_cols)] for the tables
    this development covers: identifier cells that are strings or
    [None], durations that are numbers or [None].  pandas makes the
    column of durations a column of floats as soon as it holds a float
    or a [None], and a column of 64-bit integers when it holds integers
    only; a number is covered when both columns hold it as it is: the
    value of a float, below [2 ** 63] in size.  [None] for a record
    with a cell of another type or with another number. *)
Definition str_cell (v : json) : option (option string) :=
  match v with
  | JStr s => Some (Some s)
  | JNull => Some None
  | _ => None
  end.

Definition float_cell (v : json) : option (option Q) :=
  match v with
  | JNum q =>
      if is_float q && Qle_bool (- 2 ^ 63) q && negb (Qle_bool (2 ^ 63) q)
      then Some (Some q) else None
  | JNull => Some None
  | _ => None
  end.

Definition frame_row (c : cleaned_run) : option row :=
  id ← str_cell (c_id c);
  weblink ← str_cell (c_weblink c);
  category ← str_cell (c_category c);
  level ← str_cell (c_level c);
  player_id ← str_cell (c_player_id c);
  date ← str_cell (c_date c);
  primary_t ← float_cell (c_primary_t c);
  note ← str_cell (c_note c);
  character ← str_cell (c_character c);
  submitted ← str_cell (c_submitted c);
  Some {| run_id := id; weblink := weblink; category := category;
          level := level; player_id := player_id; date := date;
          primary_t := primary_t; note := note; character := character;
          submitted := submitted;
          place := None;        (* df["place"] = pd.NA *)
          obsolete := false     (* df["obsolete"] = False *) |}.

Definition DataFrame (cleaned_runs : list cleaned_run) : option (list row) :=
  mapM frame_row cleaned_runs.

(** [df.loc[idx, ["obsolete", "place"]] = sub[["obsolete", "place"]]]
    where [idx] are the rows of [df] selected by [mask] and [sub] their
    processed copies, in the same order. *)
Definition copy_rank (src dst : row) : row :=
  set_place (place src) (set_obsolete (obsolete src) dst).

Fixpoint write_back (mask : row -> bool) (df sub : list row) : list row :=
  match df with
  | [] => []
  | r :: df' =>
      if mask r then
        match sub with
        | s :: sub' => copy_rank s r :: write_back mask df' sub'
        | [] => r :: write_back mask df' []
        end
      else r :: write_back mask df' sub
  end.

(** One of the two blocks "compute obsolescence and places for ...". *)
Definition rank_subset (mask : row -> bool) (groupby_cols : list column)
    (df : list row) : result (list row) :=
  match filter (fun r => mask r = true) df with
  | [] => Ok df                       (* not mask.any() *)
  | sub =>
      sub' ← mark_obsolete_and_place sub groupby_cols;
      Ok (write_back mask df sub')
  end.

Definition level_notna (r : row) : bool :=
  match level r with Some _ => true | None => false end.

(** The ranking section of [process_runs]: level runs are ranked by
    level, category and character; full-game runs by category and
    character. *)
Definition rank_table (df : list row) : result (list row) :=
  df ← rank_subset level_notna [col_level; col_category; col_character] df;
  rank_subset (fun r => negb (level_notna r)) [col_category; col_character] df.

(** [process_runs] from the verified runs to the ranked table.  The
    steps in between only add display-name columns (category, level,
    player, character and note names), which the ranking does not read;
    they are not part of this function.  The outer [None] is a table
    outside the cells [DataFrame] covers. *)
Definition process_runs (verified_runs : list json)
  : option (result (list row)) :=
  match clean_runs verified_runs with
  | Raise e => Some (Raise e)
  | Ok cleaned_runs =>
      df ← DataFrame cleaned_runs;
      Some (rank_table df)
  end.

(** * The rest of the ingestion code *)

(** ** More of [constants.py] *)

Definition PLAYER_CACHE_FILE : string :=
  "data/cache/shadow_reloaded_players_cache.json".
Definition CATEGORY_CACHE_FILE : string :=
  "data/cache/shadow_reloaded_categories_cache.json".
Definition LEVEL_CACHE_FILE : string :=
  "data/cache/shadow_reloaded_levels_cache.json".
Definition LAST_REFRESH_FILE : string := "data/cache/last_refresh.json".

(** ** More of the disk

    [os.replace(src, dst)] moves the file at [src] to [dst], over what
    [dst] held; the operating system refuses when there is no file at
    [src], and when it refuses to write [dst].  [path.unlink()] removes
    the file at [path]. *)

Definition set_files (fs : gmap string file) (w : world) : world :=
  {| net := net w; requests := requests w; slept := slept w;
     sleep_refused := sleep_refused w;
     files := fs; denied := denied w |}.

Definition os_replace (src dst : string) (w : world) : bool * world :=
  match files w !! src with
  | None => (false, w)                       (* FileNotFoundError *)
  | Some f =>
      if denied w dst then (false, w)        (* PermissionError *)
      else (true, set_files (<[dst := f]> (delete src (files w))) w)
  end.

Definition exists_file (path : string) (w : world) : bool :=
  bool_decide (is_Some (files w !! path)).

Definition unlink (path : string) (w : world) : world :=
  set_files (delete path (files w)) w.

(** ** More of [io_utils.py] *)

(** [float(v)] for the values this development covers.  A number is
    taken to be a float, or an integer that a float holds exactly, so
    that [float] leaves it as it is.  The outer [None] stands for a
    string, whose reading as a float literal is not modelled. *)
Definition py_float (v : json) : option (result Q) :=
  match v with
  | JNum q => Some (Ok q)
  | JBool b => Some (Ok (if b then 1%Q else 0%Q))
  | JStr _ => None
  | JNull | JArr _ | JObj _ =>
      Some (Raise (TypeError "float() argument must be a string or a real number"))
  end.

(** [get_global_last_refresh()]: the epoch seconds, or [None].  The
    outer [None] is a document outside what [py_float] covers. *)
Definition get_global_last_refresh (w : world) : option (option Q) :=
  match safe_read_json LAST_REFRESH_FILE JNull w with
  | JObj fields =>
      match py_float (default JNull (dict_get "last_refresh" fields)) with
      | Some (Ok x) => Some (Some x)
      | Some (Raise _) => Some None          (* TypeError, ValueError *)
      | None => None
      end
  | _ => Some None                           (* not a dict *)
  end.

(** [LAST_REFRESH_FILE.with_suffix(".tmp")] *)
Definition LAST_REFRESH_TMP : string := "data/cache/last_refresh.tmp".

(** The [except] branch of [set_global_last_refresh]: the temporary
    file is removed if it is there. *)
Definition clean_up (tmp : string) (w : world) : world :=
  if exists_file tmp w then unlink tmp w else w.

(** [set_global_last_refresh(ts)] for a float [ts]. *)
Definition set_global_last_refresh (ts : Q) (w : world) : bool * world :=
  let tmp := LAST_REFRESH_TMP in
  match write_json tmp (JObj [("last_refresh", JNum ts)]) w with
  | (true, w1) =>
      match os_replace tmp LAST_REFRESH_FILE w1 with
      | (true, w2) => (true, w2)
      | (false, w2) => (false, clean_up tmp w2)
      end
  | (false, w1) => (false, clean_up tmp w1)
  end.

(** ** More of [processing_runs.py]: the display names

    The blocks of [process_runs] that load the names of the categories,
    of the levels and of the players. *)

Definition categories_api : string :=
  "https://www.speedrun.com/api/v1/games/" +:+ GAME_ID +:+ "/categories".
Definition levels_api : string :=
  "https://www.speedrun.com/api/v1/games/" +:+ GAME_ID +:+ "/levels".
Definition user_api (p_id : string) : string :=
  "https://www.speedrun.com/api/v1/users/" +:+ p_id.

(** What these blocks raise: an exception of the code they call, which
    they let through, or a [RuntimeError] raised from one. *)
Inductive raised :=
| Uncaught (e : exn)
| RuntimeErrorFrom (msg : string) (cause : exn).

(** The two [try] blocks around the fetch of the categories and of the
    levels. *)
Definition load_categories_and_levels (w : world)
  : (raised + json * json) * world :=
  match fetch_api_cached categories_api (Some CATEGORY_CACHE_FILE) None MAX_RETRIES BACKOFF_SEC w with
  | (Raise e, w1) => (inl (RuntimeErrorFrom "Failed to load categories" e), w1)
  | (Ok categories, w1) =>
      match fetch_api_cached levels_api (Some LEVEL_CACHE_FILE) None MAX_RETRIES BACKOFF_SEC w1 with
      | (Raise e, w2) => (inl (RuntimeErrorFrom "Failed to load levels" e), w2)
      | (Ok levels, w2) => (inr (categories, levels), w2)
      end
  end.

(** [df["player_id"].dropna().unique()]: the player ids in the order of
    their first appearance. *)
Fixpoint unique_from (seen l : list string) : list string :=
  match l with
  | [] => []
  | x :: l' =>
      if bool_decide (x ∈ seen) then unique_from seen l'
      else x :: unique_from (x :: seen) l'
  end.

Definition unique_player_ids (df : list row) : list string :=
  unique_from [] (omap player_id df).

(** [needle in s] for two strings. *)
Fixpoint is_substring (needle s : string) : bool :=
  String.prefix needle s
  || match s with
     | EmptyString => false
     | String _ s' => is_substring needle s'
     end.

(** [k in o] for a string [k]. *)
Definition py_contains (o : json) (k : string) : result bool :=
  match o with
  | JObj fields => Ok (bool_decide (is_Some (dict_get k fields)))
  | JArr items => Ok (existsb (fun x => py_eq_str x k) items)
  | JStr s => Ok (is_substring k s)
  | _ => Raise (TypeError "argument is not iterable")
  end.

(** [d[k] = v] on the entries of a dict with string keys. *)
Fixpoint obj_set (fields : list (string * json)) (k : string) (v : json)
  : list (string * json) :=
  match fields with
  | [] => [(k, v)]
  | (k', v') :: fields' =>
      if String.eqb k' k then (k', v) :: fields'
      else (k', v') :: obj_set fields' k v
  end.

(** [o[k] = v] for a string [k]. *)
Definition py_setitem (o : json) (k : string) (v : json) : result json :=
  match o with
  | JObj fields => Ok (JObj (obj_set fields k v))
  | JArr _ => Raise (TypeError "list indices must be integers or slices, not str")
  | _ => Raise (TypeError "object does not support item assignment")
  end.

(** The right-hand side of the assignment in the [try] block:
    [fetch_api_cached(f".../users/{p_id}", cache_file=None)], then
    [names.get("international") or names.get("japanese")]. *)
Definition fetch_player_name (p_id : string) (w : world) : result json * world :=
  match fetch_api_cached (user_api p_id) None None MAX_RETRIES BACKOFF_SEC w with
  | (Raise e, w1) => (Raise e, w1)
  | (Ok user, w1) =>
      (names ← py_getitem user "names";
       international ← py_get names "international" JNull;
       if truthy international then Ok international
       else py_get names "japanese" JNull,
       w1)
  end.

(** [for p_id in unique_player_ids: ...] *)
Fixpoint name_players (ids : list string) (player_map : json) (w : world)
  : result json * world :=
  match ids with
  | [] => (Ok player_map, w)
  | p_id :: ids' =>
      match py_contains player_map p_id with
      | Raise e => (Raise e, w)
      | Ok true => name_players ids' player_map w
      | Ok false =>
          let '(name, w1) := fetch_player_name p_id w in
          match name ≫= py_setitem player_map p_id with
          | Ok player_map' => name_players ids' player_map' w1
          | Raise _ =>                       (* except Exception *)
              match py_setitem player_map p_id (JStr p_id) with
              | Ok player_map' => name_players ids' player_map' w1
              | Raise e => (Raise e, w1)
              end
          end
      end
  end.

(** From [player_map = safe_read_json(PLAYER_CACHE_FILE, default={}) or {}]
    to [safe_write_json(PLAYER_CACHE_FILE, player_map)]. *)
Definition load_player_map (df : list row) (w : world) : result json * world :=
  let cached := safe_read_json PLAYER_CACHE_FILE (JObj []) w in
  let player_map := if truthy cached then cached else JObj [] in
  match name_players (unique_player_ids df) player_map w with
  | (Raise e, w1) => (Raise e, w1)
  | (Ok player_map, w1) =>
      (Ok player_map, snd (safe_write_json PLAYER_CACHE_FILE player_map w1))
  end.

(** ** [utils.py]: the display of a duration

    [format_time_seconds] computes with its argument, so it takes the
    float itself. *)

(** The nearest integer of [m * 2 ^ e], the even one of two nearest. *)
Definition round_half_even (m : positive) (e : Z) : Z :=
  match e with
  | Z0 => Zpos m
  | Zpos p => (Zpos m * 2 ^ Zpos p)%Z
  | Zneg p =>
      let d := (2 ^ Zpos p)%Z in
      let q := (Zpos m / d)%Z in
      let r := (Zpos m mod d)%Z in
      match (2 * r ?= d)%Z with
      | Lt => q
      | Gt => (q + 1)%Z
      | Eq => if Z.even q then q else (q + 1)%Z
      end
  end.

(** [int(round(x))] for a float [x]; [None] stands for the
    [OverflowError] of an infinity and the [ValueError] of a NaN. *)
Definition py_round (x : spec_float) : option Z :=
  match x with
  | S754_zero _ => Some 0%Z
  | S754_finite s m e => Some (cond_Zopp s (round_half_even m e))
  | S754_infinity _ | S754_nan => None
  end.

(** [f"{n:02d}"] *)
Definition d02 (n : Z) : string :=
  if (0 <=? n)%Z && (n <? 10)%Z then "0" +:+ pretty n else pretty n.

(** The lines of [format_time_seconds] after the conversion to
    centiseconds.  [//] and [%] round towards minus infinity, as
    [Z.div] and [Z.modulo] do for a positive divisor. *)
Definition format_cs (total_cs : Z) : string :=
  let total_seconds := (total_cs / 100)%Z in
  let frac := (total_cs mod 100)%Z in
  let s := (total_seconds mod 60)%Z in
  let m := ((total_seconds / 60) mod 60)%Z in
  let h := (total_seconds / 3600)%Z in
  if (0 <? h)%Z then
    pretty h +:+ ":" +:+ d02 m +:+ ":" +:+ d02 s +:+ "." +:+ d02 frac
  else if (0 <? m)%Z then
    pretty m +:+ ":" +:+ d02 s +:+ "." +:+ d02 frac
  else
    pretty s +:+ "." +:+ d02 frac.

(** [format_time_seconds(t)] for [t] a float or [None]; the outer
    [None] stands for the [OverflowError] that [round] raises, outside
    the [try] block, when [t * 100] is infinite. *)
Definition format_time_seconds (t : option spec_float) : option string :=
  match t with
  | None | Some S754_nan => Some ""          (* pd.isna(t) *)
  | Some t =>
      match py_round (float_mul t (float_of_int 100)) with
      | None => None
      | Some total_cs => Some (format_cs total_cs)
      end
  end.

(** * Notions used in the statements and proofs *)

(** ** Groups, cohorts and ranks *)

(** Two rows agree on the grouping columns. *)
Definition same_group (cols : list column) (r1 r2 : row) : Prop :=
  Forall (fun c => cell c r1 = cell c r2) cols.

(** Two rows are in one player-note cohort. *)
Definition same_cohort (cols : list column) (r1 r2 : row) : Prop :=
  same_group cols r1 r2 /\ player_id r1 = player_id r2 /\ note r1 = note r2.

(** No null among the grouping columns, the player, the note and the
    duration of a row. *)
Definition complete (cols : list column) (r : row) : Prop :=
  Forall (fun c => is_Some (cell c r)) cols /\ is_Some (player_id r)
  /\ is_Some (note r) /\ is_Some (primary_t r).

(** The duration of [r2] is strictly below [t]. *)
Definition faster_than (t : Q) (r2 : row) : Prop :=
  match primary_t r2 with
  | Some t2 => (t2 < t)%Q
  | None => False
  end.

(** [r2] is a non-obsolete record of the group of [r] with a strictly
    smaller duration. *)
Definition outranks (cols : list column) (r r2 : row) : Prop :=
  obsolete r2 = false /\ same_group cols r r2
  /\ match primary_t r with
     | Some t => faster_than t r2
     | None => False
     end.

#[export] Instance Qlt_decision (x y : Q) : Decision (x < y)%Q :=
  match Qlt_le_dec x y with
  | left H => left H
  | right H => right (Qle_not_lt _ _ H)
  end.

#[export] Instance faster_than_decision t r2 : Decision (faster_than t r2).
Proof. unfold faster_than. destruct (primary_t r2); apply _. Defined.

#[export] Instance outranks_decision cols r r2 : Decision (outranks cols r r2).
Proof. unfold outranks, same_group. destruct (primary_t r); apply _. Defined.

(** What [_assign_ranking] does to one row of the table [df1]. *)
Definition rank_of (df1 : list row) (cols : list column) (r1 : row) : option Z :=
  match group_key cols r1, primary_t r1 with
  | Some k, Some t =>
      Some (rank_min (durations (group_rows cols k
                                   (filter (fun r => obsolete r = false) df1))) t)
  | _, _ => None
  end.

Definition rank_row (df1 : list row) (cols : list column) (r1 : row) : row :=
  if obsolete r1 then r1 else set_place (rank_of df1 cols r1) r1.

(** The number of values strictly below [x]. *)
Definition count_lt (x : Q) (l : list Q) : nat :=
  length (filter (fun y => (y < x)%Q) l).

(** The best duration of the cohort of [r], as [transform("min")] gives it. *)
Definition cohort_best (df : list row) (cols : list column) (r : row)
  : option Q :=
  match group_key (cols ++ [col_player_id; col_note]) r with
  | None => None
  | Some k =>
      group_min (durations (group_rows (cols ++ [col_player_id; col_note]) k df))
  end.

(** What [_mark_obsolete_runs] does to one row of the table [df]. *)
Definition mark_row (df : list row) (cols : list column) (r : row) : row :=
  set_obsolete (float_ne (primary_t r) (cohort_best df cols r)) r.

(** ** Run records and their merge *)

(** The identity of a run record. *)
Definition record_id (r : json) : option string :=
  match r with
  | JObj fields =>
      match dict_get "id" fields with
      | Some (JStr i) => Some i
      | _ => None
      end
  | _ => None
  end.

(** The status tag of a run record: [r["status"]["status"]]. *)
Definition status_of (r : json) : option string :=
  match r with
  | JObj fields =>
      match dict_get "status" fields with
      | Some (JObj st) =>
          match dict_get "status" st with
          | Some (JStr s) => Some s
          | _ => None
          end
      | _ => None
      end
  | _ => None
  end.

Definition verified (r : json) : Prop := status_of r = Some "verified".

(** A run record as the API sends it: an object with a string [id]
    whose [status], when present, is an object. *)
Definition run_record (r : json) : bool :=
  match r with
  | JObj fields =>
      match dict_get "id" fields, dict_get "status" fields with
      | Some (JStr _), (None | Some (JObj _)) => true
      | _, _ => false
      end
  | _ => false
  end.

(** The identity-keyed map of a list of records: the records are filed
    under their id one after the other, a later record replacing an
    earlier one of the same id. *)
Definition merge_step (m : gmap string json) (r : json) : gmap string json :=
  match record_id r with
  | Some i => <[i := r]> m
  | None => m
  end.

Definition merged_by_id (runs : list json) : gmap string json :=
  foldl merge_step ∅ runs.

(** [d.get(k)] on an insertion-ordered dict. *)
Fixpoint dict_lookup (d : pydict) (k : json) : option json :=
  match d with
  | [] => None
  | (k', v) :: d' => if key_eq k' k then Some v else dict_lookup d' k
  end.

(** A dict whose keys are strings. *)
Definition entries (al : list (string * json)) : pydict :=
  (fun ir => (JStr ir.1, ir.2)) <$> al.

#[export] Instance verified_decision r : Decision (verified r).
Proof. unfold verified. apply _. Defined.

Definition is_runtime_error (e : exn) : bool :=
  match e with RuntimeError _ _ => true | _ => false end.

(** ** The retry loop *)

(** What the [except] branch of attempt [a] does when the request
    numbered [n] has raised [e]: the seconds it sleeps, or the exception
    that leaves the call. *)
Definition slept_after (backoff_sec : spec_float) (a : nat)
    (e : request_exception) (w : world) (n : nat) : result Q :=
  secs ← retry_delay backoff_sec a e;
  _ ← sleep_check (sleep_refused w (S n)) secs;
  Ok (seconds_value secs).
(** ** Notions used in the further properties *)

(** [r2] is a non-obsolete record of the group of [r]. *)
Definition kept_in_group (cols : list column) (r r2 : row) : Prop :=
  obsolete r2 = false /\ same_group cols r r2.

#[export] Instance kept_in_group_decision cols r r2 :
  Decision (kept_in_group cols r r2).
Proof. unfold kept_in_group, same_group. apply _. Defined.

(** The first [k] requests for [url] from [w] on each end in a
    [RequestException] whose delay [time.sleep] accepts; [a] is the
    index of the first of these attempts. *)
Definition attempts_fail (url : string) (b : spec_float) (a k : nat) (w : world)
  : Prop :=
  forall i, i < k ->
    exists e q,
      outcome (net w (length (requests w) + i) url) = inl e
      /\ slept_after b (a + i) e w (length (requests w) + i) = Ok q.

(** What a successful attempt leaves in the cache file. *)
Definition cache_after (cache_file : option string) (data : json) (w : world)
  : gmap string file :=
  match cache_file, data with
  | None, _ | _, JNull => files w
  | Some path, _ =>
      if denied w path then files w else <[path := Content data]> (files w)
  end.

(** [timeout or API_TIMEOUT] *)
Definition api_timeout (timeout : option Z) : Z :=
  match timeout with
  | Some t => if (t =? 0)%Z then API_TIMEOUT else t
  | None => API_TIMEOUT
  end.

(** What [fetch_api_cached] does once every attempt has failed, [e]
    being the exception of the last one. *)
Definition fallback (url : string) (cache_file : option string)
    (e : request_exception) (w : world) : result json :=
  match cache_file with
  | Some path =>
      match files w !! path with
      | Some (Content j) => Ok j
      | _ => Raise (RuntimeError ("Failed to fetch " +:+ url) (Some e))
      end
  | None => Raise (RuntimeError ("Failed to fetch " +:+ url) (Some e))
  end.

(** The [n]-th request of the run, when it asks for [url], gets a JSON
    object from which [fetch_api_cached] takes [data]. *)
Definition serves (w : world) (n : nat) (url : string) (data : json) : Prop :=
  exists fields,
    outcome (net w n url) = inr (JObj fields)
    /\ default (JObj fields) (dict_get "data" fields) = data.

(** The page size [get_runs] asks for, and the step by which
    [get_all_runs] advances the offset. *)
Definition asked_max (self : ApiClient) (page_size : option nat) : nat :=
  match page_size with
  | Some k => if (k =? 0)%nat then client_page_size self else k
  | None => client_page_size self
  end.

Definition offset_step (self : ApiClient) (page_size : option nat) : nat :=
  match page_size with
  | Some ps => ps
  | None => client_page_size self
  end.

(** The URLs of [n] pages in a row, the first at [offset]. *)
Definition page_urls (self : ApiClient) (game_id : string)
    (page_size : option nat) (offset n : nat) : list string :=
  (fun i => runs_url self game_id (asked_max self page_size)
              (offset + i * offset_step self page_size)) <$> seq 0 n.

(** The document [set_global_last_refresh] writes. *)
Definition last_refresh_doc (ts : Q) : json := JObj [("last_refresh", JNum ts)].

(** A world in which no request gets a response any more. *)
Definition unreachable (w : world) : Prop := forall n url, net w n url = NoReply.

(** What [fetch_api_cached] raises when no request gets a response and
    there is no cache to fall back to. *)
Definition no_response (url : string) : exn :=
  RuntimeError ("Failed to fetch " +:+ url) (Some NoResponse).

(** The players of a table. *)
Definition players (df : list row) : list string := omap player_id df.

(** A string of [n] slashes. *)
Fixpoint slashes (n : nat) : string :=
  match n with
  | O => EmptyString
  | S n' => String "/"%char (slashes n')
  end.

(** The JSON value of a cell of the table. *)
Definition str_json (o : option string) : json :=
  match o with Some s => JStr s | None => JNull end.

Definition num_json (o : option Q) : json :=
  match o with Some q => JNum q | None => JNull end.

(** [run[k1][k2]] *)
Definition py_getitem2 (run : json) (k1 k2 : string) : result json :=
  inner ← py_getitem run k1; py_getitem inner k2.

(** The id of the first player of a run, [None] for a run without
    players or whose first player has no id. *)
Definition first_player_id (run : json) : result json :=
  players ← py_get run "players" JNull;
  let players := if truthy players then players else JArr [] in
  if truthy players then first ← py_first players; py_get first "id" JNull
  else Ok JNull.

(** The row [r] carries the values of the run [run]. *)
Definition row_of_run (run : json) (r : row) : Prop :=
  py_getitem run "id" = Ok (str_json (run_id r))
  /\ py_getitem run "weblink" = Ok (str_json (weblink r))
  /\ py_getitem run "category" = Ok (str_json (category r))
  /\ py_get run "level" JNull = Ok (str_json (level r))
  /\ first_player_id run = Ok (str_json (player_id r))
  /\ py_getitem run "date" = Ok (str_json (date r))
  /\ py_getitem2 run "times" "primary_t" = Ok (num_json (primary_t r))
  /\ py_getitem2 run "values" NOTE_KEY = Ok (str_json (note r))
  /\ py_getitem2 run "values" CHARACTER_KEY = Ok (str_json (character r))
  /\ py_getitem run "submitted" = Ok (str_json (submitted r)).

(** A string of decimal digits. *)
Definition is_digit (c : ascii) : bool :=
  let n := nat_of_ascii c in (48 <=? n)%nat && (n <=? 57)%nat.

Fixpoint digits_only (s : string) : bool :=
  match s with
  | EmptyString => true
  | String c s' => is_digit c && digits_only s'
  end.

(** The two digits of a number below 100. *)
Definition digit_char (d : nat) : ascii := ascii_of_nat (48 + d).

Definition two_digits (n : nat) : string :=
  String (digit_char (n / 10)) (String (digit_char (n mod 10)) "").

(** * Sample data *)

(** A cleaned full-game run of category A, character X, note "All". *)
Definition sample_row (player : option string) (t : Q) : row :=
  {| run_id := Some "run"; weblink := Some "https://www.speedrun.com/run";
     category := Some "A"; level := None; player_id := player;
     date := Some "2024-01-01"; primary_t := Some t; note := Some "All";
     character := Some "X"; submitted := Some "2024-01-01T00:00:00Z";
     place := None; obsolete := false |}.

(** Player P with runs of 10.00, 10.00 and 12.50 seconds. *)
Definition sample_table : list row :=
  [sample_row (Some "P") 10; sample_row (Some "P") (1000 # 100);
   sample_row (Some "P") (25 # 2)].

(** Four players with 10, 10, 12 and 13 seconds. *)
Definition sample_board : list row :=
  [sample_row (Some "P1") 10; sample_row (Some "P2") 10;
   sample_row (Some "P3") 12; sample_row (Some "P4") 13].

(** The flag and place of every row of a ranked table. *)
Definition ranks (ranked : result (list row)) : option (list (bool * option Z)) :=
  match ranked with
  | Ok df => Some (map (fun r => (obsolete r, place r)) df)
  | Raise _ => None
  end.

(** A raw run as the API sends it. *)
Definition raw_run (id category : string) (players : list json) (t : Q)
    (status : string) : json :=
  JObj [("id", JStr id);
        ("weblink", JStr ("https://www.speedrun.com/run/" +:+ id));
        ("category", JStr category);
        ("level", JNull);
        ("status", JObj [("status", JStr status)]);
        ("players", JArr players);
        ("date", JStr "2024-01-01");
        ("submitted", JStr "2024-01-01T00:00:00Z");
        ("times", JObj [("primary_t", JNum t)]);
        ("values", JObj [(NOTE_KEY, JStr "n1"); (CHARACTER_KEY, JStr "c1")])].

Definition user (id : string) : json :=
  JObj [("rel", JStr "user"); ("id", JStr id)].

(** A guest has a name and no id. *)
Definition guest (name : string) : json :=
  JObj [("rel", JStr "guest"); ("name", JStr name)].

(** Two users in category A and a lone guest run in category B. *)
Definition sample_runs : list json :=
  [raw_run "r1" "A" [user "p1"] 10 "verified";
   raw_run "r2" "A" [user "p2"] 12 "verified";
   raw_run "r3" "B" [guest "Anon"] 15 "verified"].

Definition files_with_cache (runs : list json) : gmap string file :=
  {[CACHE_FILE := Content (JArr runs)]}.

(** A world in which no request gets a response. *)
Definition offline (fs : gmap string file) : world :=
  {| net := fun _ _ => NoReply; requests := []; slept := [];
     sleep_refused := fun _ _ => false;
     files := fs; denied := fun _ => false |}.

Definition reply_ok (payload : json) : reply :=
  Reply {| status_code := 200; retry_after := None; body := Some payload |}.

(** A server with one page of runs at offset 0 and nothing after it. *)
Definition one_page (page : list json) (fs : gmap string file) : world :=
  {| net := fun _ url =>
       if String.eqb url (runs_url default_ApiClient GAME_ID 200 0)
       then reply_ok (JObj [("data", JArr page)])
       else reply_ok (JObj [("data", JArr [])]);
     requests := []; slept := []; sleep_refused := fun _ _ => false;
     files := fs; denied := fun _ => false |}.

(** A server with run r1 at offset 0, run r2 at offset 200 and nothing
    after them. *)
Definition two_pages : world :=
  {| net := fun _ url =>
       if String.eqb url (runs_url default_ApiClient GAME_ID 200 0)
       then reply_ok (JObj [("data", JArr [raw_run "r1" "A" [user "p1"] 10 "verified"])])
       else if String.eqb url (runs_url default_ApiClient GAME_ID 200 200)
       then reply_ok (JObj [("data", JArr [raw_run "r2" "A" [user "p2"] 12 "verified"])])
       else reply_ok (JObj [("data", JArr [])]);
     requests := []; slept := []; sleep_refused := fun _ _ => false;
     files := ∅; denied := fun _ => false |}.

(** A server that answers 429 with Retry-After 3 once, then a payload. *)
Definition rate_limited_once : world :=
  {| net := fun n _ =>
       match n with
       | 0 => Reply {| status_code := 429; retry_after := Some "3";
                       body := None |}
       | _ => reply_ok (JObj [("data", JArr [JStr "payload"])])
       end;
     requests := []; slept := []; sleep_refused := fun _ _ => false;
     files := ∅; denied := fun _ => false |}.

(** The world a run ends in, the starting world if it runs out of fuel. *)
Definition world_after {A} (w : world) (run : option (A * world)) : world :=
  match run with
  | Some (_, w') => w'
  | None => w
  end.

(** The table [process_runs] builds from [sample_runs], before ranking. *)
Definition sample_frame : list row :=
  match clean_runs sample_runs with
  | Ok cleaned_runs => default [] (DataFrame cleaned_runs)
  | Raise _ => []
  end.

(** The cache holds an older copy of run r1; the server now sends r1 as
    verified and a rejected run r2. *)
Definition stale_r1 : json := raw_run "r1" "A" [user "p1"] 11 "new".
Definition fresh_r1 : json := raw_run "r1" "A" [user "p1"] 10 "verified".
Definition rejected_r2 : json := raw_run "r2" "A" [user "p2"] 12 "rejected".
Definition verified_r2 : json := raw_run "r2" "A" [user "p2"] 12 "verified".

Definition refresh_world : world :=
  one_page [fresh_r1; rejected_r2] (files_with_cache [stale_r1]).

(** The error [get_all_runs] raises when the first page cannot be
    fetched. *)
Definition first_page_failed : exn :=
  RuntimeError ("Failed to fetch " +:+ runs_url default_ApiClient GAME_ID 200 0)
    (Some NoResponse).

(** ** More sample data *)

(** [sample_board] after the two passes. *)
Definition ranked_board : list row :=
  match mark_obsolete_and_place sample_board [col_category; col_character] with
  | Ok df => df
  | Raise _ => []
  end.

(** A run of level [l] (a full-game run for [None]) by player [p]. *)
Definition level_row (l : option string) (p : string) (t : Q) : row :=
  {| run_id := Some "run"; weblink := Some "https://www.speedrun.com/run";
     category := Some "A"; level := l; player_id := Some p;
     date := Some "2024-01-01"; primary_t := Some t; note := Some "All";
     character := Some "X"; submitted := Some "2024-01-01T00:00:00Z";
     place := None; obsolete := false |}.

(** Full-game runs and runs of two levels, interleaved. *)
Definition mixed_frame : list row :=
  [level_row None "p" 10; level_row (Some "L1") "p" 7; level_row None "q" 9;
   level_row (Some "L1") "q" 7; level_row (Some "L2") "q" 3;
   level_row None "p" 8; level_row (Some "L1") "p" 6].

Definition ranked_mixed_frame : list row :=
  match rank_table mixed_frame with
  | Ok df => df
  | Raise _ => []
  end.

(** A server that answers with a JSON list. *)
Definition list_payload : world :=
  {| net := fun _ _ => reply_ok (JArr [JNum 1; JNum 2]);
     requests := []; slept := []; sleep_refused := fun _ _ => false;
     files := ∅; denied := fun _ => false |}.

(** A server that answers 429 with the same Retry-After every time. *)
Definition rate_limited (header : string) : world :=
  {| net := fun _ _ => Reply {| status_code := 429; retry_after := Some header;
                                body := None |};
     requests := []; slept := []; sleep_refused := fun _ _ => false;
     files := ∅; denied := fun _ => false |}.

(** A server that answers 429 with a negative Retry-After. *)
Definition negative_retry_after : world := rate_limited "-1".

(** The request, the sleeps and the outcome of a call. *)
Definition summary (run : result json * world)
  : result json * nat * list Q :=
  (fst run, length (requests (snd run)), slept (snd run)).

Definition games_api : string := "https://www.speedrun.com/api/v1/games".
Definition games_cache : string := "data/cache/games.json".

(** The cache holds a JSON object where a list of runs is expected. *)
Definition cache_is_object : world :=
  offline {[CACHE_FILE := Content (JObj [("runs", JArr [])])]}.

(** The cache holds run r1 as verified; the server now sends it as
    rejected. *)
Definition all_rejected : world :=
  one_page [raw_run "r1" "A" [user "p1"] 10 "rejected"]
    (files_with_cache [fresh_r1]).

(** The player cache knows player p1. *)
Definition players_cache : gmap string file :=
  {[PLAYER_CACHE_FILE := Content (JObj [("p1", JStr "Alice")])]}.

(** The category and level caches. *)
Definition names_cache : gmap string file :=
  {[CATEGORY_CACHE_FILE := Content (JArr [JObj [("id", JStr "A"); ("name", JStr "Any%")]]);
    LEVEL_CACHE_FILE := Content (JArr [])]}.

(** The table [process_runs] returns for [sample_runs]. *)
Definition ranked_sample_frame : list row :=
  match rank_table sample_frame with
  | Ok df => df
  | Raise _ => []
  end.

(** The float -1.0. *)
Definition minus_one_second : spec_float := S754_finite true 4503599627370496 (-52).

(** * Properties of the ranking engine *)


(** ** Group keys *)

(** The key of a row depends on its key cells only. *)
Lemma group_key_ext keys r1 r2 :
  Forall (fun c => cell c r1 = cell c r2) keys ->
  group_key keys r1 = group_key keys r2.
Proof.
  induction 1 as [|c cs Hc _ IH]; simpl; [done|]. by rewrite Hc, IH.
Qed.

Lemma group_key_agree keys r1 r2 k :
  group_key keys r1 = Some k -> group_key keys r2 = Some k ->
  Forall (fun c => cell c r1 = cell c r2) keys.
Proof.
  revert k. induction keys as [|c cs IH]; intros k H1 H2; [constructor|].
  simpl in *.
  destruct (cell c r1) as [v1|] eqn:E1; [|done].
  destruct (group_key cs r1) as [k1|] eqn:G1; [|done].
  destruct (cell c r2) as [v2|] eqn:E2; [|done].
  destruct (group_key cs r2) as [k2|] eqn:G2; [|done].
  simplify_eq. constructor; [congruence|]. by eapply IH.
Qed.

(** A row has a key exactly when none of its key cells is null. *)
Lemma group_key_is_Some keys r :
  Forall (fun c => is_Some (cell c r)) keys <-> is_Some (group_key keys r).
Proof.
  induction keys as [|c cs IH]; simpl.
  - split; [by eexists|constructor].
  - rewrite Forall_cons, IH. split.
    + intros [[v ->] [k ->]]. by eexists.
    + destruct (cell c r); [|by intros [? ?]].
      destruct (group_key cs r); [|by intros [? ?]]. split; by eexists.
Qed.

Lemma same_group_key cols r r2 k :
  group_key cols r = Some k ->
  same_group cols r r2 <-> group_key cols r2 = Some k.
Proof.
  intros Hk. split.
  - intros H. rewrite <- Hk. symmetry. by apply group_key_ext.
  - intros H. by eapply group_key_agree.
Qed.

Lemma cohort_key_ext cols r1 r2 :
  same_cohort cols r1 r2 ->
  group_key (cols ++ [col_player_id; col_note]) r1
  = group_key (cols ++ [col_player_id; col_note]) r2.
Proof.
  intros (Hg & Hp & Hn). apply group_key_ext.
  apply Forall_app. split; [done|]. repeat constructor; done.
Qed.

Lemma cohort_key_agree cols r1 r2 k :
  group_key (cols ++ [col_player_id; col_note]) r1 = Some k ->
  group_key (cols ++ [col_player_id; col_note]) r2 = Some k ->
  same_cohort cols r1 r2.
Proof.
  intros H1 H2. pose proof (group_key_agree _ _ _ _ H1 H2) as H.
  apply Forall_app in H as [Hg H]. split; [done|].
  inversion H as [|? ? Hp H']; subst. inversion H' as [|? ? Hn _]; subst. done.
Qed.

Lemma cohort_key_complete cols r :
  complete cols r -> is_Some (group_key (cols ++ [col_player_id; col_note]) r).
Proof.
  intros (Hc & Hp & Hn & _). apply group_key_is_Some.
  apply Forall_app. split; [done|]. repeat constructor; done.
Qed.

(** A key over more columns determines the key over the first ones. *)
Lemma group_key_prefix cols more r :
  is_Some (group_key (cols ++ more) r) -> is_Some (group_key cols r).
Proof.
  rewrite <- !group_key_is_Some, Forall_app. tauto.
Qed.

(** ** Minimum of a group *)

Lemma Qmin_bool_cases x y :
  (Qmin_bool x y = x /\ (x <= y)%Q) \/ (Qmin_bool x y = y /\ (y <= x)%Q).
Proof.
  unfold Qmin_bool. destruct (Qle_bool x y) eqn:E.
  - left. split; [done|]. by apply Qle_bool_iff.
  - right. split; [done|].
    destruct (Qlt_le_dec y x) as [H|H]; [by apply Qlt_le_weak|].
    apply Qle_bool_iff in H. congruence.
Qed.

Lemma fold_min_spec xs x :
  fold_left Qmin_bool xs x ∈ x :: xs
  /\ Forall (fun y => (fold_left Qmin_bool xs x <= y)%Q) (x :: xs).
Proof.
  revert x. induction xs as [|y ys IH]; intros x; simpl.
  - split; [left|]. constructor; [apply Qle_refl|constructor].
  - destruct (IH (Qmin_bool x y)) as [Hin Hle].
    inversion Hle as [|? ? Hm Hys]; subst.
    destruct (Qmin_bool_cases x y) as [[E Hxy]|[E Hxy]]; rewrite E in *.
    + split.
      * apply elem_of_cons in Hin as [->|Hin]; [left|right; by right].
      * constructor; [done|]. constructor; [by eapply Qle_trans|done].
    + split.
      * right. done.
      * constructor; [by eapply Qle_trans|]. constructor; done.
Qed.

Lemma group_min_spec xs m :
  group_min xs = Some m -> m ∈ xs /\ Forall (fun y => (m <= y)%Q) xs.
Proof.
  destruct xs as [|x xs]; [done|]. simpl. intros [= <-]. apply fold_min_spec.
Qed.

Lemma group_min_is_Some xs x : x ∈ xs -> is_Some (group_min xs).
Proof. destruct xs; [by intros ?%elem_of_nil|]. by eexists. Qed.

(** ** The obsolescence pass, row by row *)

(** The durations of the rows of a group. *)
Lemma elem_of_group_durations keys k df t :
  t ∈ durations (group_rows keys k df)
  <-> exists r, r ∈ df /\ group_key keys r = Some k /\ primary_t r = Some t.
Proof.
  unfold durations, group_rows. rewrite list_elem_of_omap. split.
  - intros (r & Hr & Ht). apply list_elem_of_filter in Hr as [Hk Hr]. eauto.
  - intros (r & Hr & Hk & Ht). exists r. split; [|done].
    apply list_elem_of_filter. done.
Qed.

Section ObsolescencePass.
Context (df : list row) (cols : list column).

Lemma mark_obsolete_runs_rows :
  _mark_obsolete_runs df cols = mark_row df cols <$> df.
Proof.
  unfold _mark_obsolete_runs, transform_min. cbv zeta.
  change (map ?f df) with (f <$> df).
  rewrite zip_with_fmap_r, zip_with_diag. done.
Qed.

(** The pass leaves every cell but the flag alone. *)
Lemma mark_row_cell c r : cell c (mark_row df cols r) = cell c r.
Proof. destruct c; reflexivity. Qed.

Lemma mark_row_primary_t r : primary_t (mark_row df cols r) = primary_t r.
Proof. reflexivity. Qed.

Lemma mark_row_place r : place (mark_row df cols r) = place r.
Proof. reflexivity. Qed.

Lemma mark_row_group_key keys r :
  group_key keys (mark_row df cols r) = group_key keys r.
Proof. apply group_key_ext, Forall_forall. intros c _. apply mark_row_cell. Qed.

(** A row the pass keeps has no null in its cohort key nor in its
    duration. *)
Lemma mark_row_kept_complete r :
  obsolete (mark_row df cols r) = false ->
  is_Some (group_key (cols ++ [col_player_id; col_note]) r)
  /\ is_Some (primary_t r).
Proof.
  unfold mark_row, cohort_best. simpl.
  destruct (primary_t r); [|done].
  destruct (group_key _ r); [|done]. intros _. split; by eexists.
Qed.

(** A row with complete keys is not obsolete exactly when no row of its
    cohort is faster. *)
Lemma mark_row_kept r k t :
  r ∈ df ->
  group_key (cols ++ [col_player_id; col_note]) r = Some k ->
  primary_t r = Some t ->
  obsolete (mark_row df cols r) = false
  <-> (forall r2 t2, r2 ∈ df -> same_cohort cols r r2 ->
         primary_t r2 = Some t2 -> (t <= t2)%Q).
Proof.
  intros Hr Hk Ht. unfold mark_row, cohort_best. simpl. rewrite Hk, Ht.
  set (keys := cols ++ [col_player_id; col_note]) in *.
  assert (Hin : t ∈ durations (group_rows keys k df)).
  { apply elem_of_group_durations. eauto. }
  destruct (group_min_is_Some _ _ Hin) as [m Hm]. rewrite Hm. simpl.
  apply group_min_spec in Hm as [Hmin Hle].
  rewrite Forall_forall in Hle.
  rewrite negb_false_iff, Qeq_bool_iff. split.
  - intros Heq r2 t2 Hr2 Hc Ht2. rewrite Heq. apply Hle.
    apply elem_of_group_durations. exists r2. split; [done|split; [|done]].
    rewrite <- Hk. symmetry. by apply cohort_key_ext.
  - intros Hall. apply Qle_antisym; [|by apply Hle].
    apply elem_of_group_durations in Hmin as (r2 & Hr2 & Hk2 & Ht2).
    apply (Hall r2 m); [done| |done]. by eapply cohort_key_agree.
Qed.

End ObsolescencePass.

(** C1. For every table and every choice of grouping columns, when no
    record has a null among its grouping columns, player, note and
    duration, the obsolescence pass changes nothing but the [obsolete]
    flag of each record, and sets it to [false] exactly on the records
    whose duration is the minimum of their player-note cohort (no record
    of the cohort is faster), and to [true] on every other record; ties
    at the minimum are all kept. *)
Theorem mark_obsolete_runs_cohort_minimum
    (df : list row) (groupby_cols : list column) :
  (forall r, r ∈ df -> complete groupby_cols r) ->
  forall i r, df !! i = Some r ->
    exists b t,
      _mark_obsolete_runs df groupby_cols !! i = Some (set_obsolete b r)
      /\ primary_t r = Some t
      /\ (b = false <->
          forall r2 t2, r2 ∈ df -> same_cohort groupby_cols r r2 ->
            primary_t r2 = Some t2 -> (t <= t2)%Q)
      /\ (b = true <->
          exists r2 t2, r2 ∈ df /\ same_cohort groupby_cols r r2
            /\ primary_t r2 = Some t2 /\ (t2 < t)%Q).
Proof.
  intros Hcomplete i r Hi.
  assert (Hr : r ∈ df) by (by eapply list_elem_of_lookup_2).
  destruct (cohort_key_complete _ _ (Hcomplete r Hr)) as [k Hk].
  destruct (Hcomplete r Hr) as (_ & _ & _ & [t Ht]).
  exists (obsolete (mark_row df groupby_cols r)), t.
  pose proof (mark_row_kept df groupby_cols r k t Hr Hk Ht) as Hkept.
  split; [|split; [done|split; [done|]]].
  - rewrite mark_obsolete_runs_rows, list_lookup_fmap, Hi. done.
  - rewrite <- not_false_iff_true, Hkept. split.
    + intros Hn.
      assert (Hin : t ∈ durations (group_rows (groupby_cols ++ [col_player_id; col_note]) k df)).
      { apply elem_of_group_durations. eauto. }
      destruct (group_min_is_Some _ _ Hin) as [m Hm].
      apply group_min_spec in Hm as [Hmin Hle].
      apply elem_of_group_durations in Hmin as (r2 & Hr2 & Hk2 & Ht2).
      exists r2, m. split; [done|]. split; [by eapply cohort_key_agree|]. split; [done|].
      destruct (Qlt_le_dec m t) as [|Hge]; [done|]. exfalso. apply Hn.
      intros r3 t3 Hr3 Hc3 Ht3. apply Qle_trans with m; [done|].
      rewrite Forall_forall in Hle. apply Hle.
      apply elem_of_group_durations. exists r3. split; [done|split; [|done]].
      rewrite <- Hk. symmetry. by apply cohort_key_ext.
    + intros (r2 & t2 & Hr2 & Hc & Ht2 & Hlt) Hall.
      specialize (Hall r2 t2 Hr2 Hc Ht2). by apply Qle_not_lt in Hall.
Qed.

(** The spec's examples: 10, 10, 12, 13 rank 1, 1, 3, 4; and a player
    with 10.00, 10.00 and 12.50 keeps the two ties at place 1. *)
Example sample_board_ranks :
  ranks (mark_obsolete_and_place sample_board [col_category; col_character])
  = Some [(false, Some 1%Z); (false, Some 1%Z); (false, Some 3%Z);
          (false, Some 4%Z)].
Proof. vm_compute. reflexivity. Qed.

Example sample_table_ranks :
  ranks (mark_obsolete_and_place sample_table [col_category; col_character])
  = Some [(false, Some 1%Z); (false, Some 1%Z); (true, None)].
Proof. vm_compute. reflexivity. Qed.

(** The sample rows have no null key. *)
Ltac solve_complete :=
  unfold complete; simpl; repeat split; repeat constructor; by eexists.

Lemma sample_table_complete :
  forall r, r ∈ sample_table -> complete [col_category; col_character] r.
Proof.
  intros r Hr. unfold sample_table in Hr.
  repeat (apply elem_of_cons in Hr as [->|Hr]; [solve_complete|]).
  by apply elem_of_nil in Hr.
Defined.

Lemma mark_obsolete_runs_cohort_minimum_witness :
  (forall r, r ∈ sample_table -> complete [col_category; col_character] r)
  /\ sample_table !! 2 = Some (sample_row (Some "P") (25 # 2))
  /\ exists b t,
       _mark_obsolete_runs sample_table [col_category; col_character] !! 2
       = Some (set_obsolete b (sample_row (Some "P") (25 # 2)))
       /\ primary_t (sample_row (Some "P") (25 # 2)) = Some t
       /\ (b = false <->
           forall r2 t2, r2 ∈ sample_table ->
             same_cohort [col_category; col_character]
               (sample_row (Some "P") (25 # 2)) r2 ->
             primary_t r2 = Some t2 -> (t <= t2)%Q)
       /\ (b = true <->
           exists r2 t2, r2 ∈ sample_table
             /\ same_cohort [col_category; col_character]
                  (sample_row (Some "P") (25 # 2)) r2
             /\ primary_t r2 = Some t2 /\ (t2 < t)%Q).
Proof.
  split; [exact sample_table_complete|]. split; [reflexivity|].
  exact (mark_obsolete_runs_cohort_minimum sample_table
           [col_category; col_character] sample_table_complete 2
           (sample_row (Some "P") (25 # 2)) eq_refl).
Defined.


(** ** Sorting and the rank of a value *)

Lemma count_lt_cons x y l :
  count_lt x (y :: l) = (if decide (y < x)%Q then 1 else 0) + count_lt x l.
Proof. unfold count_lt. rewrite filter_cons. by destruct (decide _). Qed.

Lemma count_lt_insert x y l :
  count_lt x (insert_sorted y l) = count_lt x (y :: l).
Proof.
  induction l as [|z l IH]; simpl; [done|].
  destruct (Qle_bool y z); [done|].
  rewrite count_lt_cons, IH, !count_lt_cons. lia.
Qed.

Lemma count_lt_sort x l : count_lt x (sort_asc l) = count_lt x l.
Proof.
  induction l as [|y l IH]; simpl; [done|].
  rewrite count_lt_insert, !count_lt_cons, IH. done.
Qed.

Lemma elem_of_insert_sorted x y l : x ∈ insert_sorted y l <-> x = y \/ x ∈ l.
Proof.
  induction l as [|z l IH]; simpl.
  - rewrite elem_of_cons. done.
  - destruct (Qle_bool y z).
    + rewrite elem_of_cons. done.
    + rewrite !elem_of_cons, IH. tauto.
Qed.

Lemma elem_of_sort_asc x l : x ∈ sort_asc l <-> x ∈ l.
Proof.
  induction l as [|y l IH]; simpl; [done|].
  rewrite elem_of_insert_sorted, elem_of_cons, IH. done.
Qed.

Lemma insert_sorted_sorted x l :
  StronglySorted Qle l -> StronglySorted Qle (insert_sorted x l).
Proof.
  induction 1 as [|y l Hs IH Hall]; simpl.
  - repeat constructor.
  - destruct (Qle_bool x y) eqn:E.
    + apply Qle_bool_iff in E. constructor; [by constructor|].
      constructor; [done|]. eapply Forall_impl; [exact Hall|].
      intros z Hz. by eapply Qle_trans.
    + assert (Hyx : (y <= x)%Q).
      { destruct (Qlt_le_dec y x) as [H|H]; [by apply Qlt_le_weak|].
        apply Qle_bool_iff in H. congruence. }
      constructor; [done|]. apply Forall_forall. intros z Hz.
      apply elem_of_insert_sorted in Hz as [->|Hz]; [done|].
      rewrite Forall_forall in Hall. by apply Hall.
Qed.

Lemma sort_asc_sorted l : StronglySorted Qle (sort_asc l).
Proof.
  induction l; simpl; [constructor|by apply insert_sorted_sorted].
Qed.

Lemma count_lt_none x l : Forall (fun y => (x <= y)%Q) l -> count_lt x l = 0.
Proof.
  induction 1 as [|y l Hy _ IH]; [done|].
  rewrite count_lt_cons, IH. destruct (decide _) as [Hlt|]; [|done].
  by apply Qle_not_lt in Hy.
Qed.

(** In a sorted list, the first position of a value is the number of
    values strictly below it. *)
Lemma first_index_sorted x l :
  StronglySorted Qle l -> x ∈ l -> first_index x l = count_lt x l.
Proof.
  induction 1 as [|y l Hs IH Hall]; [by intros ?%elem_of_nil|].
  intros Hx. simpl. destruct (Qeq_bool y x) eqn:E.
  - apply Qeq_bool_iff in E. symmetry. apply count_lt_none.
    constructor; [by rewrite E; apply Qle_refl|].
    eapply Forall_impl; [exact Hall|]. intros z Hz. by rewrite <- E.
  - assert (Hne : ~ (y == x)%Q).
    { intros H. apply Qeq_bool_iff in H. congruence. }
    apply elem_of_cons in Hx as [->|Hx]; [by destruct Hne|].
    rewrite Forall_forall in Hall. specialize (Hall x Hx).
    rewrite count_lt_cons, IH by done.
    destruct (decide (y < x)%Q) as [|Hn]; [done|].
    destruct Hne. apply Qle_antisym; [done|]. by apply Qnot_lt_le.
Qed.

(** Competition ranking: one more than the number of strictly smaller
    values. *)
Lemma rank_min_count xs x :
  x ∈ xs -> rank_min xs x = (1 + Z.of_nat (count_lt x xs))%Z.
Proof.
  intros Hx. unfold rank_min.
  rewrite first_index_sorted, count_lt_sort;
    [lia|apply sort_asc_sorted|by apply elem_of_sort_asc].
Qed.

(** ** The ranking pass, row by row *)

Lemma assign_place_rows (f : row -> option Z) df :
  assign_place df (f <$> filter (fun r => obsolete r = false) df)
  = (fun r => if obsolete r then r else set_place (f r) r) <$> df.
Proof.
  induction df as [|r df IH]; [done|].
  destruct (obsolete r) eqn:E.
  - rewrite filter_cons_False by congruence. rewrite fmap_cons.
    cbn [assign_place]. by rewrite E, IH.
  - rewrite filter_cons_True by done. rewrite !fmap_cons.
    cbn [assign_place]. by rewrite E, IH.
Qed.

Lemma assign_ranking_rows df1 cols :
  cols <> [] -> _assign_ranking df1 cols = Ok (rank_row df1 cols <$> df1).
Proof.
  intros Hne. unfold _assign_ranking. cbv zeta.
  assert (Hrows : assign_place df1
            (groupby_rank cols (filter (fun r => obsolete r = false) df1))
          = rank_row df1 cols <$> df1).
  { unfold groupby_rank. apply (assign_place_rows (rank_of df1 cols)). }
  rewrite Hrows. destruct cols; [done|]. done.
Qed.

Lemma filter_fmap {A B} (f : A -> B) (P : B -> Prop)
    `{!forall y, Decision (P y)} (l : list A) :
  filter P (f <$> l) = f <$> filter (fun x => P (f x)) l.
Proof.
  induction l as [|x l IH]; [done|].
  rewrite fmap_cons, !filter_cons, IH. by destruct (decide (P (f x))).
Qed.

Lemma count_lt_durations t rows :
  count_lt t (durations rows) = length (filter (faster_than t) rows).
Proof.
  unfold count_lt, durations. induction rows as [|r rows IH]; [done|].
  destruct (decide (faster_than t r)) as [H|H].
  - rewrite (filter_cons_True (faster_than t)) by done.
    unfold faster_than in H. simpl in *. destruct (primary_t r); [|done].
    rewrite filter_cons_True by done. simpl. f_equal. exact IH.
  - rewrite (filter_cons_False (faster_than t)) by done.
    unfold faster_than in H. simpl in *. destruct (primary_t r); [|exact IH].
    rewrite filter_cons_False by done. exact IH.
Qed.

Section RankingPass.
Context (df1 : list row) (cols : list column).

(** The pass leaves every cell but the place alone. *)
Lemma rank_row_cell c r : cell c (rank_row df1 cols r) = cell c r.
Proof. unfold rank_row. destruct (obsolete r), c; reflexivity. Qed.

Lemma rank_row_primary_t r : primary_t (rank_row df1 cols r) = primary_t r.
Proof. unfold rank_row. destruct (obsolete r); reflexivity. Qed.

Lemma rank_row_obsolete r : obsolete (rank_row df1 cols r) = obsolete r.
Proof. unfold rank_row. destruct (obsolete r) eqn:E; exact E. Qed.

Lemma rank_row_group_key keys r :
  group_key keys (rank_row df1 cols r) = group_key keys r.
Proof. apply group_key_ext, Forall_forall. intros c _. apply rank_row_cell. Qed.

(** An obsolete row keeps its place. *)
Lemma rank_row_skipped r :
  obsolete r = true -> place (rank_row df1 cols r) = place r.
Proof. intros H. unfold rank_row. by rewrite H. Qed.

(** The place of a kept row counts the kept rows of its group that are
    strictly faster. *)
Lemma rank_row_place r1 k t :
  r1 ∈ df1 -> obsolete r1 = false ->
  group_key cols r1 = Some k -> primary_t r1 = Some t ->
  place (rank_row df1 cols r1)
  = Some (1 + Z.of_nat (length (filter (outranks cols (rank_row df1 cols r1))
                                  (rank_row df1 cols <$> df1))))%Z.
Proof.
  intros Hin Hobs Hk Ht. unfold rank_row at 1. rewrite Hobs. simpl.
  unfold rank_of. rewrite Hk, Ht. f_equal.
  rewrite rank_min_count.
  2:{ apply elem_of_group_durations. exists r1. split; [|done].
      by apply list_elem_of_filter. }
  do 2 f_equal. rewrite count_lt_durations. unfold group_rows.
  rewrite !list_filter_filter, filter_fmap, length_fmap. f_equal.
  apply list_filter_iff. intros r2. unfold outranks.
  rewrite rank_row_obsolete, !rank_row_primary_t, Ht.
  unfold faster_than at 2. rewrite rank_row_primary_t.
  fold (faster_than t r2).
  assert (same_group cols (rank_row df1 cols r1) (rank_row df1 cols r2)
          <-> group_key cols r2 = Some k) as ->.
  { rewrite <- (same_group_key cols r1 r2 k Hk). unfold same_group.
    apply Forall_iff. intros c. by rewrite !rank_row_cell. }
  tauto.
Qed.

End RankingPass.

(** Rewriting away the two passes under a field the pass leaves alone. *)
Create Rewrite HintDb row_fields.
#[local] Hint Rewrite mark_row_cell mark_row_primary_t mark_row_place
  mark_row_group_key rank_row_cell rank_row_primary_t rank_row_obsolete
  rank_row_group_key : row_fields.

Lemma mark_obsolete_and_place_rows df cols :
  cols <> [] ->
  mark_obsolete_and_place df cols
  = Ok (rank_row (mark_row df cols <$> df) cols <$> (mark_row df cols <$> df)).
Proof.
  intros Hne. unfold mark_obsolete_and_place.
  rewrite mark_obsolete_runs_rows. by apply assign_ranking_rows.
Qed.

(** Every row of the result of the two passes comes from the row at the
    same position of the input. *)
Lemma mark_obsolete_and_place_lookup df cols :
  cols <> [] ->
  exists df',
    mark_obsolete_and_place df cols = Ok df'
    /\ length df' = length df
    /\ forall i r', df' !! i = Some r' <->
         exists r, df !! i = Some r
           /\ r' = rank_row (mark_row df cols <$> df) cols (mark_row df cols r).
Proof.
  intros Hne. eexists. split; [by apply mark_obsolete_and_place_rows|].
  split; [by rewrite !length_fmap|].
  intros i r'. rewrite !list_lookup_fmap.
  destruct (df !! i) as [r|]; simpl.
  - split; [intros [= <-]; eauto|intros (? & [= <-] & ->); done].
  - split; [done|intros (? & ? & _); done].
Qed.


(** C9, as the code has it. For every table and every non-empty choice
    of grouping columns, a record with no null among its grouping
    columns, player, note and duration is left non-obsolete when it is
    the only record of its cohort, and is left non-obsolete with place 1
    when it is the only record of its group. *)
Theorem single_record_kept_and_first
    (df : list row) (groupby_cols : list column) (i : nat) (r : row) :
  groupby_cols <> [] -> df !! i = Some r -> complete groupby_cols r ->
  exists df' r',
    mark_obsolete_and_place df groupby_cols = Ok df' /\ df' !! i = Some r'
    /\ ((forall j r2, df !! j = Some r2 -> same_cohort groupby_cols r r2 -> j = i)
        -> obsolete r' = false)
    /\ ((forall j r2, df !! j = Some r2 -> same_group groupby_cols r r2 -> j = i)
        -> obsolete r' = false /\ place r' = Some 1%Z).
Proof.
  intros Hne Hi Hcomplete.
  destruct (mark_obsolete_and_place_lookup df groupby_cols Hne)
    as (df' & Hrun & Hlen & Hrows).
  set (df1 := mark_row df groupby_cols <$> df) in *.
  set (r1 := mark_row df groupby_cols r).
  exists df', (rank_row df1 groupby_cols r1).
  split; [done|]. split; [apply Hrows; eauto|].
  assert (Hr : r ∈ df) by (by eapply list_elem_of_lookup_2).
  destruct (cohort_key_complete _ _ Hcomplete) as [k Hk].
  pose proof Hcomplete as (_ & _ & _ & [t Ht]).
  assert (Hcohort :
    (forall j r2, df !! j = Some r2 -> same_cohort groupby_cols r r2 -> j = i) ->
    obsolete r1 = false).
  { intros Halone. apply (mark_row_kept df groupby_cols r k t Hr Hk Ht).
    intros r2 t2 [j Hj]%list_elem_of_lookup_1 Hc Ht2.
    rewrite (Halone j r2 Hj Hc) in Hj. rewrite Hi in Hj. injection Hj as <-.
    rewrite Ht in Ht2. injection Ht2 as <-. apply Qle_refl. }
  split; [intros Halone; rewrite rank_row_obsolete; by apply Hcohort|].
  intros Halone.
  assert (Hobs : obsolete r1 = false).
  { apply Hcohort. intros j r2 Hj [Hg _]. by eapply Halone. }
  split; [by rewrite rank_row_obsolete|].
  assert (Hr1 : r1 ∈ df1).
  { apply list_elem_of_fmap. exists r. done. }
  destruct (group_key_prefix groupby_cols [col_player_id; col_note] r)
    as [kg Hkg]; [by eexists|].
  rewrite (rank_row_place df1 groupby_cols r1 kg t Hr1 Hobs);
    [|by unfold r1; rewrite mark_row_group_key|done].
  replace (filter _ _) with (@nil row); [done|].
  symmetry. apply elem_of_nil_inv. intros r2' Hin.
  apply list_elem_of_filter in Hin as [(_ & Hg & Hfast) Hin].
  apply list_elem_of_fmap in Hin as (r21 & -> & Hin).
  apply list_elem_of_fmap in Hin as (r2 & -> & Hin).
  apply list_elem_of_lookup_1 in Hin as [j Hj].
  assert (j = i) as ->.
  { apply (Halone j r2 Hj). unfold same_group in *.
    eapply Forall_impl; [exact Hg|]. intros c Hc. simpl in Hc.
    by autorewrite with row_fields in Hc. }
  rewrite Hi in Hj. injection Hj as <-.
  unfold faster_than in Hfast. subst r1.
  autorewrite with row_fields in Hfast. rewrite Ht in Hfast.
  by apply Qlt_irrefl in Hfast.
Qed.


Lemma single_record_kept_and_first_witness :
  [col_category; col_character] <> []
  /\ [sample_row (Some "P") 10] !! 0 = Some (sample_row (Some "P") 10)
  /\ complete [col_category; col_character] (sample_row (Some "P") 10)
  /\ exists df' r',
       mark_obsolete_and_place [sample_row (Some "P") 10]
         [col_category; col_character] = Ok df'
       /\ df' !! 0 = Some r'
       /\ ((forall j r2, [sample_row (Some "P") 10] !! j = Some r2 ->
              same_cohort [col_category; col_character]
                (sample_row (Some "P") 10) r2 -> j = 0)
           -> obsolete r' = false)
       /\ ((forall j r2, [sample_row (Some "P") 10] !! j = Some r2 ->
              same_group [col_category; col_character]
                (sample_row (Some "P") 10) r2 -> j = 0)
           -> obsolete r' = false /\ place r' = Some 1%Z).
Proof.
  assert (Hc : complete [col_category; col_character] (sample_row (Some "P") 10)).
  { solve_complete. }
  split; [discriminate|]. split; [reflexivity|]. split; [exact Hc|].
  apply (single_record_kept_and_first [sample_row (Some "P") 10]
           [col_category; col_character] 0 (sample_row (Some "P") 10));
    [discriminate|reflexivity|exact Hc].
Defined.

(** C9 as stated fails on [sample_runs].  The guest run r3 is the only
    record of its group, and its player id is null because its first
    participant has no id: it is marked obsolete and gets no place.  The
    run r2 is the only record of its cohort: it is kept, at place 2. *)
Lemma single_record_counterexample :
  process_runs sample_runs = Some (rank_table sample_frame)
  /\ exists df',
       rank_table sample_frame = Ok df'
       /\ (exists r r',
             sample_frame !! 2 = Some r /\ df' !! 2 = Some r'
             /\ player_id r = None
             /\ (forall j r2, sample_frame !! j = Some r2 ->
                   same_group [col_category; col_character] r r2 -> j = 2)
             /\ obsolete r' = true /\ place r' = None)
       /\ (exists r r',
             sample_frame !! 1 = Some r /\ df' !! 1 = Some r'
             /\ (forall j r2, sample_frame !! j = Some r2 ->
                   same_cohort [col_category; col_character] r r2 -> j = 1)
             /\ obsolete r' = false /\ place r' = Some 2%Z).
Proof.
  split; [reflexivity|].
  eexists. split; [vm_compute; reflexivity|]. split.
  - eexists _, _. split; [reflexivity|]. split; [reflexivity|].
    split; [reflexivity|]. split; [|split; reflexivity].
    intros [|[|[|j]]] r2 Hj Hg; [| |done|done];
      injection Hj as <-; inversion Hg as [|? ? Hcat _]; discriminate Hcat.
  - eexists _, _. split; [reflexivity|]. split; [reflexivity|].
    split; [|split; reflexivity].
    intros [|[|[|j]]] r2 Hj (_ & Hp & _); [|done| |done];
      injection Hj as <-; discriminate Hp.
Qed.


(** * Properties of the fetch client *)

Lemma sleep_trace secs w :
  sleep secs w
  = match sleep_check (sleep_refused w (length (requests w))) secs with
    | Ok _ => (Ok tt, log_sleep (seconds_value secs) w)
    | Raise e => (Raise e, w)
    end.
Proof. reflexivity. Qed.

(** The platform takes every sleep of up to a million seconds. *)
Lemma sleep_check_int refused (n : Z) :
  (0 <= n <= 1000000)%Z -> sleep_check refused (IntSecs n) = Ok tt.
Proof.
  intros Hn. unfold sleep_check, nanoseconds.
  change (Z.quot PyTime_MIN SEC_TO_NS) with (-9223372036)%Z.
  change (Z.quot PyTime_MAX SEC_TO_NS) with 9223372036%Z.
  assert ((n <? -9223372036)%Z = false) as -> by lia.
  assert ((9223372036 <? n)%Z = false) as -> by lia.
  cbn [orb]. unfold SEC_TO_NS, SLEEP_SURE.
  assert ((n * 1000000000 <? 0)%Z = false) as -> by lia.
  assert ((10 ^ 15 <? n * 1000000000)%Z = false) as -> by lia.
  reflexivity.
Qed.

(** What [time.sleep] makes of an integer: it is out of range, or
    negative, or left to the platform. *)
Lemma sleep_check_int_cases refused (n : Z) :
  sleep_check refused (IntSecs n)
  = if ((n <? -9223372036) || (9223372036 <? n))%Z then Raise timestamp_too_large
    else if (n <? 0)%Z then Raise (ValueError "sleep length must be non-negative")
    else if (1000000 <? n)%Z && refused (n * 1000000000)%Z
    then Raise (OSError "[Errno 22] Invalid argument")
    else Ok tt.
Proof.
  unfold sleep_check, nanoseconds.
  change (Z.quot PyTime_MIN SEC_TO_NS) with (-9223372036)%Z.
  change (Z.quot PyTime_MAX SEC_TO_NS) with 9223372036%Z.
  destruct ((n <? -9223372036)%Z || (9223372036 <? n)%Z); [reflexivity|].
  unfold SEC_TO_NS, SLEEP_SURE.
  assert ((n * 1000000000 <? 0)%Z = (n <? 0)%Z) as ->.
  { destruct (Z.ltb_spec n 0); lia. }
  assert ((10 ^ 15 <? n * 1000000000)%Z = (1000000 <? n)%Z) as ->.
  { destruct (Z.ltb_spec 1000000 n); lia. }
  reflexivity.
Qed.

(** A float times an infinity is no length [time.sleep] takes. *)
Lemma sleep_check_infinite refused b s :
  sleep_check refused (FloatSecs (float_mul b (S754_infinity s))) <> Ok tt.
Proof. destruct b as [[]|[]| |[] m e]; destruct s; vm_compute; discriminate. Qed.

Lemma cache_written cache_file data w1 :
  let w2 := match cache_file, data with
            | None, _ | _, JNull => w1
            | Some path, _ => snd (write_json path data w1)
            end in
  net w2 = net w1 /\ denied w2 = denied w1
  /\ sleep_refused w2 = sleep_refused w1 /\ requests w2 = requests w1
  /\ slept w2 = slept w1 /\ (cache_file = None -> files w2 = files w1).
Proof.
  destruct cache_file as [path|]; [|done].
  destruct data; try done; unfold write_json; simpl;
    by destruct (denied w1 path).
Qed.

Lemma length_snoc {A} (l : list A) x : length (l ++ [x]) = S (length l).
Proof. rewrite length_app. simpl. lia. Qed.

Section RetryLoop.
Context (url : string) (cache_file : option string) (timeout : Z)
  (b : spec_float).

(** What one turn does to the world: one more request, at most one more
    sleep, and no write unless a cache file was named. *)
Lemma try_attempt_trace a w fin w' :
  try_attempt url cache_file timeout b a w = (fin, w') ->
  net w' = net w /\ denied w' = denied w
  /\ sleep_refused w' = sleep_refused w
  /\ requests w' = requests w ++ [url]
  /\ (cache_file = None -> files w' = files w)
  /\ match outcome (net w (length (requests w)) url), fin with
     | inl e, Retry e' =>
         e' = e
         /\ exists q, slept_after b a e w (length (requests w)) = Ok q
                      /\ slept w' = slept w ++ [q]
     | inl e, Escaped ex =>
         slept_after b a e w (length (requests w)) = Raise ex
         /\ slept w' = slept w
     | inr (JObj fields), Returned data =>
         data = default (JObj fields) (dict_get "data" fields)
         /\ slept w' = slept w
     | inr _, Escaped _ => slept w' = slept w
     | _, _ => False
     end.
Proof.
  unfold try_attempt, requests_get, slept_after.
  destruct (outcome (net w (length (requests w)) url)) as [e|payload].
  - destruct (retry_delay b a e) as [secs|ex]; cbn [mbind result_bind].
    + rewrite sleep_trace. cbn [requests log_request sleep_refused].
      rewrite length_snoc.
      destruct (sleep_check _ secs) as [[]|ex]; intros [= <- <-]; simpl.
      * repeat split; try done. by eexists.
      * done.
    + intros [= <- <-]. simpl. done.
  - destruct payload; intros [= <- <-]; simpl; try done.
    match goal with
    | |- context [match cache_file with _ => _ end] =>
        set (data := default _ _)
    end.
    destruct (cache_written cache_file data (log_request url w))
      as (-> & -> & -> & -> & -> & Hfiles).
    simpl. done.
Qed.

(** The trace of the retry loop: [n] requests for [url], every one but
    the last a failed attempt, and after a failed attempt the sleep
    [slept_after] tells, or the end of the loop with the exception it
    tells. *)
Lemma retry_loop_trace len :
  forall a last w res w',
    retry_loop url cache_file timeout b (seq a len) last w = (res, w') ->
    net w' = net w /\ denied w' = denied w
    /\ sleep_refused w' = sleep_refused w
    /\ (cache_file = None -> files w' = files w)
    /\ exists n sl,
         n <= len /\ (0 < len -> 0 < n)
         /\ requests w' = requests w ++ replicate n url
         /\ slept w' = slept w ++ sl
         /\ (forall i, S i < n ->
               exists e, outcome (net w (length (requests w) + i) url) = inl e)
         /\ forall i e,
              i < n ->
              outcome (net w (length (requests w) + i) url) = inl e ->
              match slept_after b (a + i) e w (length (requests w) + i) with
              | Ok q => sl !! i = Some q
              | Raise ex => n = S i /\ sl !! i = None /\ res = inl (Raise ex)
              end.
Proof.
  induction len as [|len IH]; intros a last w res w'; simpl.
  - intros [= <- <-]. repeat split; try done.
    exists 0, []. rewrite !app_nil_r. repeat split; try done; lia.
  - destruct (try_attempt url cache_file timeout b a w) as [fin w1] eqn:Et.
    apply try_attempt_trace in Et as (Hnet & Hden & Hclock & Hreq & Hfiles & Hout).
    destruct fin as [data|ex|e].
    + intros [= <- <-]. repeat split; try done.
      exists 1, []. rewrite app_nil_r. repeat split; [lia|lia|done| |lia|].
      * destruct (outcome _) as [|[]]; try done. by destruct Hout.
      * intros i e Hi He. assert (i = 0) as -> by lia.
        rewrite Nat.add_0_r in He. by rewrite He in Hout.
    + intros [= <- <-]. repeat split; try done.
      assert (Hs : slept w1 = slept w).
      { destruct (outcome _) as [|[]]; try done. by destruct Hout. }
      exists 1, []. rewrite app_nil_r. repeat split; [lia|lia|done|done|lia|].
      intros i e Hi He. assert (i = 0) as -> by lia.
      rewrite !Nat.add_0_r in *. rewrite He in Hout.
      destruct Hout as [-> _]. done.
    + intros Hloop.
      apply IH in Hloop as (Hnet' & Hden' & Hclock' & Hfiles' & n & sl & Hn & Hpos
                            & Hreq' & Hs' & Hfailed & Hsl).
      destruct (outcome (net w (length (requests w)) url)) as [e0|p] eqn:E0;
        [|by destruct p].
      destruct Hout as (-> & q0 & Hq0 & Hs1).
      repeat split; [congruence|congruence|congruence
                    |intros Hc; rewrite Hfiles', Hfiles; done|].
      exists (S n), (q0 :: sl). repeat split; [lia|lia| | | |].
      * rewrite Hreq', Hreq, <- app_assoc. done.
      * rewrite Hs', Hs1, <- app_assoc. done.
      * intros [|i] Hi.
        -- exists e0. by rewrite Nat.add_0_r.
        -- destruct (Hfailed i) as [e He]; [lia|]. exists e.
           rewrite Hnet, Hreq, length_snoc in He.
           replace (length (requests w) + S i) with (S (length (requests w)) + i)
             by lia.
           exact He.
      * intros [|i] e Hi He.
        -- rewrite !Nat.add_0_r in *. rewrite E0 in He. injection He as <-.
           by rewrite Hq0.
        -- specialize (Hsl i e).
           rewrite Hnet, Hreq, length_snoc in Hsl.
           replace (length (requests w) + S i) with (S (length (requests w)) + i)
             in He |- * by lia.
           replace (a + S i) with (S a + i) by lia.
           unfold slept_after in *. rewrite Hclock in Hsl.
           specialize (Hsl ltac:(lia) He).
           destruct (retry_delay b (S a + i) e ≫= _) as [q|ex]; [exact Hsl|].
           destruct Hsl as (-> & Hnone & ->). done.
Qed.

End RetryLoop.

(** The same trace for a whole call of [fetch_api_cached]. *)
Lemma fetch_api_cached_trace url cache_file timeout max_retries b w res w' :
  fetch_api_cached url cache_file timeout max_retries b w = (res, w') ->
  net w' = net w /\ denied w' = denied w
  /\ sleep_refused w' = sleep_refused w
  /\ (cache_file = None -> files w' = files w)
  /\ exists n sl,
       1 <= n <= max_retries + 1
       /\ requests w' = requests w ++ replicate n url
       /\ slept w' = slept w ++ sl
       /\ (forall i, S i < n ->
             exists e, outcome (net w (length (requests w) + i) url) = inl e)
       /\ forall i e,
            i < n ->
            outcome (net w (length (requests w) + i) url) = inl e ->
            match slept_after b i e w (length (requests w) + i) with
            | Ok q => sl !! i = Some q
            | Raise ex => n = S i /\ sl !! i = None /\ res = Raise ex
            end.
Proof.
  unfold fetch_api_cached.
  destruct (retry_loop _ _ _ _ _ _ _) as [r w1] eqn:El.
  apply retry_loop_trace in El
    as (Hnet & Hden & Hclock & Hfiles & n & sl & Hn & Hpos & Hreq & Hs & Hfailed & Hsl).
  intros Hres.
  assert (w' = w1) as ->.
  { destruct r; [by injection Hres|]. destruct cache_file; [|by injection Hres].
    destruct (files w1 !! _) as [[]|]; by injection Hres. }
  repeat split; try done.
  exists n, sl. repeat split; [lia|lia|done|done|done|].
  intros i e Hi He. specialize (Hsl i e Hi He). cbn [Nat.add] in Hsl.
  destruct (slept_after b i e w _) as [q|ex]; [exact Hsl|].
  destruct Hsl as (Hlast & Hnone & ->). by injection Hres as <-.
Qed.

(** After a failure other than an HTTP 429 the delay is the float
    product [backoff_sec * (attempt + 1)]. *)
Lemma slept_after_backoff b a e w n :
  (forall h, e <> HTTPError 429 h) ->
  slept_after b a e w n
  = match float_of_int (Z.of_nat (a + 1)) with
    | S754_infinity _ => Raise (OverflowError "int too large to convert to float")
    | k =>
        _ ← sleep_check (sleep_refused w (S n)) (FloatSecs (float_mul b k));
        Ok (seconds_value (FloatSecs (float_mul b k)))
    end.
Proof.
  intros Hne. unfold slept_after.
  assert (retry_delay b a e
          = match float_of_int (Z.of_nat (a + 1)) with
            | S754_infinity _ =>
                Raise (OverflowError "int too large to convert to float")
            | k => Ok (FloatSecs (float_mul b k))
            end) as ->.
  { destruct e as [|status h|]; simpl; try done.
    destruct (Z.eqb_spec status 429) as [->|]; [|done]. by destruct (Hne h). }
  by destruct (float_of_int _).
Qed.

(** After an HTTP 429 the delay is the integer [retry_after]. *)
Lemma slept_after_429 b a h w n :
  slept_after b a (HTTPError 429 h) w n
  = (_ ← sleep_check (sleep_refused w (S n)) (IntSecs (retry_after_seconds h));
     Ok (inject_Z (retry_after_seconds h))).
Proof. reflexivity. Qed.

(** C6. [fetch_api_cached] sends at least one and at most
    [max_retries + 1] requests ([max_retries] is not negative), all for
    [url], and only a failed attempt is followed by another.  After a failed attempt [i] (counted from 0)
    that is not an HTTP 429 it calls [time.sleep] with the float product
    [backoff_sec * (i + 1)], a delay that grows linearly with the
    attempt: it sleeps that many seconds, or, when [time.sleep] refuses
    the product (it is negative, not a number, or too long), the call
    ends there with the exception raised. *)
Theorem fetch_api_cached_linear_backoff
    (url : string) (cache_file : option string) (timeout : option Z)
    (max_retries : nat) (backoff_sec : spec_float) (w : world) :
  let run := fetch_api_cached url cache_file timeout max_retries
               backoff_sec w in
  let w' := snd run in
  exists n sl,
    1 <= n <= max_retries + 1
    /\ requests w' = requests w ++ replicate n url
    /\ slept w' = slept w ++ sl
    /\ (forall i, S i < n ->
          exists e, outcome (net w (length (requests w) + i) url) = inl e)
    /\ forall i e,
         i < n ->
         outcome (net w (length (requests w) + i) url) = inl e ->
         (forall h, e <> HTTPError 429 h) ->
         let secs := FloatSecs (float_mul backoff_sec
                                  (float_of_int (Z.of_nat (i + 1)))) in
         match sleep_check (sleep_refused w (S (length (requests w) + i))) secs with
         | Ok _ => sl !! i = Some (seconds_value secs)
         | Raise ex =>
             n = S i /\ sl !! i = None
             /\ (fst run = Raise ex
                 \/ fst run
                    = Raise (OverflowError "int too large to convert to float"))
         end.
Proof.
  intros run w'.
  destruct run as [res w1] eqn:Ef. subst w'. cbn [fst snd].
  apply fetch_api_cached_trace in Ef
    as (_ & _ & _ & _ & n & sl & Hn & Hreq & Hs & Hfailed & Hsl).
  exists n, sl. repeat split; try done; try lia.
  intros i e Hi He Hne. specialize (Hsl i e Hi He).
  rewrite slept_after_backoff in Hsl by done.
  destruct (float_of_int (Z.of_nat (i + 1))) as [s|s| |s m ee] eqn:Ek.
  2:{ pose proof (sleep_check_infinite
                    (sleep_refused w (S (length (requests w) + i))) backoff_sec s)
        as Hinf.
      destruct (sleep_check _ _) as [[]|ex]; [done|].
      destruct Hsl as (-> & Hnone & ->). auto. }
  all: cbv zeta in Hsl; revert Hsl; destruct (sleep_check _ _) as [[]|ex];
    cbn [mbind result_bind]; [done|]; intros (-> & Hnone & ->); auto.
Qed.

(** C7. After an attempt that fails with HTTP 429 the client calls
    [time.sleep] with the number the Retry-After header gives, as [int]
    reads it, and with 1 when the header is absent or is not an integer
    literal: it sleeps that many seconds, always so for a number from 0
    to a million, or, when [time.sleep] refuses the number (it is
    negative or too long), the call ends there with the exception
    raised.  When the first attempt fails with 429 and Retry-After 3 and
    the second gets a 2xx response whose JSON body has a [data] field,
    the call sleeps once, for 3 seconds, sends two requests and returns
    that field. *)
Theorem fetch_api_cached_retry_after
    (url : string) (cache_file : option string) (timeout : option Z)
    (max_retries : nat) (backoff_sec : spec_float) (w : world) :
  let run := fetch_api_cached url cache_file timeout max_retries
               backoff_sec w in
  let w' := snd run in
  (exists n sl,
     1 <= n <= max_retries + 1
     /\ requests w' = requests w ++ replicate n url
     /\ slept w' = slept w ++ sl
     /\ forall i header,
          i < n ->
          outcome (net w (length (requests w) + i) url)
          = inl (HTTPError 429 header) ->
          (header = None -> sl !! i = Some 1%Q)
          /\ (forall s, header = Some s -> py_int s = None ->
                sl !! i = Some 1%Q)
          /\ (forall s v, header = Some s -> py_int s = Some v ->
                ((0 <= v <= 1000000)%Z -> sl !! i = Some (inject_Z v))
                /\ match sleep_check
                           (sleep_refused w (S (length (requests w) + i)))
                           (IntSecs v) with
                   | Ok _ => sl !! i = Some (inject_Z v)
                   | Raise ex => n = S i /\ sl !! i = None /\ fst run = Raise ex
                   end))
  /\ (forall body1 status2 header2 fields data,
        1 <= max_retries ->
        net w (length (requests w)) url
        = Reply {| status_code := 429; retry_after := Some "3";
                   body := body1 |} ->
        net w (S (length (requests w))) url
        = Reply {| status_code := status2; retry_after := header2;
                   body := Some (JObj fields) |} ->
        (200 <= status2 < 300)%Z ->
        dict_get "data" fields = Some data ->
        fst run = Ok data
        /\ slept w' = slept w ++ [3%Q]
        /\ requests w' = requests w ++ [url; url]).
Proof.
  intros run w'. split.
  - destruct run as [res w1] eqn:Ef. subst w'. cbn [fst snd].
    apply fetch_api_cached_trace in Ef
      as (_ & _ & _ & _ & n & sl & Hn & Hreq & Hs & _ & Hsl).
    exists n, sl. repeat split; try done; try lia.
    + intros ->. specialize (Hsl i _ H H0). rewrite slept_after_429 in Hsl.
      cbn [retry_after_seconds] in Hsl.
      by rewrite sleep_check_int in Hsl by lia.
    + intros s -> Hint. specialize (Hsl i _ H H0).
      rewrite slept_after_429 in Hsl. cbn [retry_after_seconds] in Hsl.
      rewrite Hint in Hsl. cbn [default from_option] in Hsl.
      by rewrite sleep_check_int in Hsl by lia.
    + intros Hv. specialize (Hsl i _ H H0).
      rewrite slept_after_429 in Hsl. subst header.
      cbn [retry_after_seconds] in Hsl.
      rewrite H2 in Hsl. cbn [default from_option] in Hsl. unfold id in Hsl.
      by rewrite sleep_check_int in Hsl by lia.
    + specialize (Hsl i _ H H0).
      rewrite slept_after_429 in Hsl. subst header.
      cbn [retry_after_seconds] in Hsl.
      rewrite H2 in Hsl. cbn [default from_option] in Hsl. unfold id in Hsl.
      by destruct (sleep_check _ _) as [[]|ex].
  - intros body1 status2 header2 fields data Hretries H1 H2 Hstatus Hdata.
    assert (exists w2, run = (Ok data, w2)
              /\ slept w2 = slept w ++ [3%Q]
              /\ requests w2 = requests w ++ [url; url])
      as (w2 & Erun & Hs2 & Hreq2); [|subst w'; by rewrite Erun].
    subst w' run. unfold fetch_api_cached.
    destruct max_retries as [|m]; [lia|].
    replace (S m + 1) with (S (S m)) by lia.
    cbn [seq retry_loop]. unfold try_attempt at 1, requests_get.
    rewrite H1. cbn [outcome status_code retry_after body].
    change ((400 <=? 429)%Z && (429 <? 600)%Z) with true. cbv iota.
    change (retry_delay backoff_sec 0 (HTTPError 429 (Some "3")))
      with (@Ok seconds (IntSecs 3)).
    cbv iota. rewrite sleep_trace, sleep_check_int by lia.
    unfold try_attempt, requests_get.
    cbn [requests log_sleep log_request net].
    rewrite length_snoc.
    rewrite H2. cbn [outcome status_code retry_after body].
    assert ((400 <=? status2)%Z && (status2 <? 600)%Z = false) as ->.
    { apply andb_false_iff. left. apply Z.leb_gt. lia. }
    rewrite Hdata. cbn [default from_option]. unfold id.
    set (w1 := log_request url _).
    destruct (cache_written cache_file data w1)
      as (_ & _ & _ & Hreq & Hs & _).
    cbn zeta in Hreq, Hs. eexists. split; [reflexivity|].
    rewrite Hreq, Hs.
    subst w1. cbn [requests slept log_request log_sleep seconds_value].
    rewrite <- app_assoc. done.
Qed.

Lemma fetch_api_cached_linear_backoff_witness :
  let run := fetch_api_cached "https://www.speedrun.com/api/v1/games"
               None None 2 BACKOFF_SEC (offline ∅) in
  let w' := snd run in
  exists n sl,
    1 <= n <= 2 + 1
    /\ requests w'
       = requests (offline ∅)
           ++ replicate n "https://www.speedrun.com/api/v1/games"
    /\ slept w' = slept (offline ∅) ++ sl
    /\ (forall i, S i < n ->
          exists e,
            outcome (net (offline ∅) (length (requests (offline ∅)) + i)
                       "https://www.speedrun.com/api/v1/games") = inl e)
    /\ forall i e,
         i < n ->
         outcome (net (offline ∅) (length (requests (offline ∅)) + i)
                    "https://www.speedrun.com/api/v1/games") = inl e ->
         (forall h, e <> HTTPError 429 h) ->
         let secs := FloatSecs (float_mul BACKOFF_SEC
                                  (float_of_int (Z.of_nat (i + 1)))) in
         match sleep_check
                 (sleep_refused (offline ∅)
                    (S (length (requests (offline ∅)) + i))) secs with
         | Ok _ => sl !! i = Some (seconds_value secs)
         | Raise ex =>
             n = S i /\ sl !! i = None
             /\ (fst run = Raise ex
                 \/ fst run
                    = Raise (OverflowError "int too large to convert to float"))
         end.
Proof.
  exact (fetch_api_cached_linear_backoff
           "https://www.speedrun.com/api/v1/games" None None 2 BACKOFF_SEC
           (offline ∅)).
Defined.

(** With the network down and the defaults of [fetch_api_cached], three
    requests are sent and the sleeps are 2, 4 and 6 seconds. *)
Example offline_backoff :
  let w' := snd (fetch_api_cached "https://www.speedrun.com/api/v1/games"
                   None None MAX_RETRIES BACKOFF_SEC (offline ∅)) in
  length (requests w') = 3 /\ slept w' = [2; 4; 6]%Q.
Proof. split; vm_compute; reflexivity. Qed.

(** The product is the product of floats: with [backoff_sec=0.1] the
    third sleep is 0.30000000000000004 seconds, not three tenths. *)
Example tenth_backoff :
  let tenth := S754_finite false 7205759403792794 (-56) in
  let w' := snd (fetch_api_cached "https://www.speedrun.com/api/v1/games"
                   None None 2 tenth (offline ∅)) in
  slept w' = [3602879701896397 # 36028797018963968;
              3602879701896397 # 18014398509481984;
              1351079888211149 # 4503599627370496]%Q.
Proof. vm_compute. reflexivity. Qed.

(** A back-off of ten thousand million seconds is more than
    [time.sleep] takes: one request, no sleep, and the [OverflowError]
    leaves the call. *)
Example huge_backoff :
  let run := fetch_api_cached "https://www.speedrun.com/api/v1/games"
               None None 2 (float_of_int 10000000000) (offline ∅) in
  fst run = Raise timestamp_too_large
  /\ length (requests (snd run)) = 1 /\ slept (snd run) = [].
Proof. repeat split; vm_compute; reflexivity. Qed.

Lemma fetch_api_cached_retry_after_witness :
  let run := fetch_api_cached "https://www.speedrun.com/api/v1/games"
               None None 2 BACKOFF_SEC rate_limited_once in
  fst run = Ok (JArr [JStr "payload"])
  /\ slept (snd run) = slept rate_limited_once ++ [3%Q]
  /\ requests (snd run)
     = requests rate_limited_once
         ++ ["https://www.speedrun.com/api/v1/games";
             "https://www.speedrun.com/api/v1/games"].
Proof.
  apply (proj2 (fetch_api_cached_retry_after
                  "https://www.speedrun.com/api/v1/games" None None 2
                  BACKOFF_SEC rate_limited_once)
           None 200%Z None [("data", JArr [JStr "payload"])]
           (JArr [JStr "payload"]));
    [lia|reflexivity|reflexivity|lia|reflexivity].
Defined.

(** The spec's scenario: 429 with Retry-After 3, then success. *)
Example rate_limited_once_run :
  let run := fetch_api_cached "https://www.speedrun.com/api/v1/games"
               None None MAX_RETRIES BACKOFF_SEC rate_limited_once in
  fst run = Ok (JArr [JStr "payload"])
  /\ slept (snd run) = [3%Q]
  /\ length (requests (snd run)) = 2.
Proof. repeat split; vm_compute; reflexivity. Qed.

(** [int] reads a Retry-After of a no-break space and a 5 as 5. *)
Example py_int_no_break_space :
  py_int (String (ascii_of_nat 160) "5") = Some 5%Z
  /\ py_int (String (ascii_of_nat 133) "5") = Some 5%Z
  /\ py_int (String (ascii_of_nat 28) "5") = None.
Proof. repeat split; reflexivity. Qed.

(** * Properties of the paginated collector *)


(** The world after [fetch_api_cached] without a cache file keeps its
    files. *)
Lemma get_runs_frame self game_id offset max w res w' :
  get_runs self game_id offset max None w = (res, w') ->
  net w' = net w /\ denied w' = denied w /\ files w' = files w.
Proof.
  unfold get_runs. intros H.
  apply fetch_api_cached_trace in H as (? & ? & _ & Hf & _). auto.
Qed.

Lemma get_all_runs_loop_frame fuel self game_id max_pages page_size :
  forall offset all_runs pages_fetched w res w',
    get_all_runs_loop fuel self game_id None max_pages page_size offset
      all_runs pages_fetched w = Some (res, w') ->
    net w' = net w /\ denied w' = denied w /\ files w' = files w.
Proof.
  induction fuel as [|fuel IH]; intros offset all_runs pages_fetched w res w';
    simpl; [done|].
  destruct (get_runs self game_id offset page_size None w) as [page w1] eqn:Eg.
  apply get_runs_frame in Eg as (Hn & Hd & Hf).
  destruct page as [page|e]; [|by intros [= <- <-]].
  destruct (truthy page); simpl; [|by intros [= <- <-]].
  destruct (py_iter page) as [items|e]; [|by intros [= <- <-]].
  destruct (match max_pages with Some mp => _ | None => false end);
    [by intros [= <- <-]|].
  intros H. apply IH in H as (Hn' & Hd' & Hf'). split; [congruence|].
  split; congruence.
Qed.

Lemma get_all_runs_frame fuel self game_id max_pages page_size w res w' :
  get_all_runs fuel self game_id None max_pages page_size w = Some (res, w') ->
  net w' = net w /\ denied w' = denied w /\ files w' = files w.
Proof. apply get_all_runs_loop_frame. Qed.

(** Once the loop has ended, more fuel changes nothing. *)
Lemma get_all_runs_loop_fuel fuel self game_id cache_file max_pages page_size :
  forall fuel' offset all_runs pages_fetched w res,
    fuel <= fuel' ->
    get_all_runs_loop fuel self game_id cache_file max_pages page_size offset
      all_runs pages_fetched w = Some res ->
    get_all_runs_loop fuel' self game_id cache_file max_pages page_size offset
      all_runs pages_fetched w = Some res.
Proof.
  induction fuel as [|fuel IH]; intros fuel' offset all_runs pages_fetched w res;
    [done|].
  destruct fuel' as [|fuel']; [lia|]. intros Hle. simpl.
  destruct (get_runs self game_id offset page_size cache_file w) as [[page|e] w1];
    [|done].
  destruct (truthy page); simpl; [|done].
  destruct (py_iter page) as [items|e]; [|done].
  destruct (match max_pages with Some mp => _ | None => false end); [done|].
  apply IH. lia.
Qed.

Lemma fetch_verified_runs_fuel fuel fuel' w res :
  fuel <= fuel' ->
  fetch_verified_runs fuel w = Some res -> fetch_verified_runs fuel' w = Some res.
Proof.
  intros Hle. unfold fetch_verified_runs, get_all_runs.
  destruct (get_all_runs_loop fuel _ _ _ _ _ _ _ _ _) as [run|] eqn:E; [|done].
  by rewrite (get_all_runs_loop_fuel _ _ _ _ _ _ _ _ _ _ _ _ Hle E).
Qed.

(** An attempt that gets no response, one of the first three with the
    default back-off: the client sleeps 2, 4 or 6 seconds and goes on. *)
Lemma try_attempt_no_response url cache_file timeout a w :
  a < 3 ->
  net w (length (requests w)) url = NoReply ->
  try_attempt url cache_file timeout BACKOFF_SEC a w
  = (Retry NoResponse,
     log_sleep (inject_Z (2 * Z.of_nat (a + 1))) (log_request url w)).
Proof.
  intros Ha Hnet. unfold try_attempt, requests_get. rewrite Hnet.
  cbn [outcome]. destruct a as [|[|[|a]]]; [..|lia]; reflexivity.
Qed.

(** A transport error: when the first three requests get no response,
    the collector raises the error of [fetch_api_cached], whatever the
    fuel. *)
Lemma get_all_runs_no_response fuel w :
  (forall n, n < 3 ->
     net w (length (requests w) + n) (runs_url default_ApiClient GAME_ID 200 0)
     = NoReply) ->
  exists w1,
    get_all_runs (S fuel) default_ApiClient GAME_ID None None None w
    = Some (Raise first_page_failed, w1).
Proof.
  intros Hnet. unfold get_all_runs. cbn [get_all_runs_loop].
  unfold get_runs, fetch_api_cached.
  cbn [default_ApiClient new_ApiClient client_page_size client_timeout
         API_PAGE_SIZE].
  set (url := runs_url _ _ _ _) in *.
  pose proof (Hnet 0) as H0. pose proof (Hnet 1) as H1.
  pose proof (Hnet 2) as H2. rewrite Nat.add_0_r in H0.
  change (seq 0 (MAX_RETRIES + 1)) with [0; 1; 2]. cbn [retry_loop].
  rewrite try_attempt_no_response by (lia || (apply H0; lia)).
  rewrite try_attempt_no_response.
  2: lia.
  2:{ cbn [requests log_sleep log_request net]. rewrite length_snoc.
      rewrite <- Nat.add_1_r. apply H1. lia. }
  rewrite try_attempt_no_response.
  2: lia.
  2:{ cbn [requests log_sleep log_request net]. rewrite !length_snoc.
      replace (S (S (length (requests w)))) with (length (requests w) + 2) by lia.
      apply H2. lia. }
  eexists. reflexivity.
Qed.

(** C8 at [page_size = 0]: [get_runs] falls back to the client's page
    size, so both requests ask for 200 runs, but the offset advances by
    0: the second request asks for offset 0 again, and the first page is
    returned twice instead of pages one and two. *)
Lemma get_all_runs_page_size_zero :
  let run := get_all_runs 5 default_ApiClient GAME_ID None (Some 2) (Some 0)
               two_pages in
  fst <$> run
  = Some (Ok [raw_run "r1" "A" [user "p1"] 10 "verified";
              raw_run "r1" "A" [user "p1"] 10 "verified"])
  /\ requests (world_after two_pages run)
     = ["https://www.speedrun.com/api/v1/runs?game=o1y3y346&max=200&offset=0";
        "https://www.speedrun.com/api/v1/runs?game=o1y3y346&max=200&offset=0"].
Proof. split; vm_compute; reflexivity. Qed.

(** The same call with the page size left to the client: offsets 0 and
    200, pages one and two. *)
Example get_all_runs_default_page_size :
  let run := get_all_runs 5 default_ApiClient GAME_ID None (Some 2) None
               two_pages in
  fst <$> run
  = Some (Ok [raw_run "r1" "A" [user "p1"] 10 "verified";
              raw_run "r2" "A" [user "p2"] 12 "verified"])
  /\ requests (world_after two_pages run)
     = ["https://www.speedrun.com/api/v1/runs?game=o1y3y346&max=200&offset=0";
        "https://www.speedrun.com/api/v1/runs?game=o1y3y346&max=200&offset=200"].
Proof. split; vm_compute; reflexivity. Qed.

(** * Properties of the verified-run repository *)

(** ** The merge: a Python dict against a finite map *)


Lemma dict_values_entries al : dict_values (entries al) = al.*2.
Proof.
  unfold dict_values, entries. change (map ?f ?l) with (f <$> l).
  rewrite <- list_fmap_compose. done.
Qed.

Lemma dict_set_entries (al : list (string * json)) i r :
  NoDup al.*1 ->
  exists al',
    dict_set (entries al) (JStr i) r = entries al'
    /\ NoDup al'.*1
    /\ list_to_map al' = <[i := r]> (list_to_map al : gmap string json)
    /\ (i ∉ al.*1 -> al' = al ++ [(i, r)]).
Proof.
  induction al as [|[j v] al IH]; intros Hnd.
  - exists [(i, r)]. simpl. split; [done|]. split; [|done].
    apply NoDup_singleton.
  - apply NoDup_cons in Hnd as [Hj Hnd]. simpl in *.
    destruct (String.eqb_spec j i) as [->|Hne].
    + exists ((i, r) :: al). split; [done|]. split; [by apply NoDup_cons|].
      split; [simpl; by rewrite insert_insert_eq|].
      intros Hi. exfalso. apply Hi. left.
    + destruct (IH Hnd) as (al' & Hset & Hnd' & Hmap & Happ).
      exists ((j, v) :: al'). rewrite Hset. split; [done|]. split; [|split].
      * apply NoDup_cons. split; [|done].
        assert (Hfresh : (list_to_map al' : gmap string json) !! j = None).
        { rewrite Hmap, lookup_insert_ne by done.
          by apply not_elem_of_list_to_map. }
        by apply not_elem_of_list_to_map in Hfresh.
      * simpl. rewrite Hmap. by apply insert_insert_ne.
      * intros Hi. rewrite Happ; [done|]. intros ?. apply Hi. by right.
Qed.

Lemma run_record_id r :
  run_record r = true ->
  exists i, py_getitem r "id" = Ok (JStr i) /\ record_id r = Some i.
Proof.
  destruct r as [| | | |?|fields]; try done. simpl.
  destruct (dict_get "id" fields) as [[| | |i| |]|]; try done. eauto.
Qed.


Lemma index_by_id_entries runs :
  forall al : list (string * json),
    Forall (fun r => run_record r = true) runs -> NoDup al.*1 ->
    exists al',
      index_by_id (entries al) runs = Ok (entries al')
      /\ NoDup al'.*1
      /\ list_to_map al' = foldl merge_step (list_to_map al) runs
      /\ (NoDup (al.*1 ++ omap record_id runs) -> al'.*2 = al.*2 ++ runs).
Proof.
  induction runs as [|r runs IH]; intros al Hwf Hnd.
  - exists al. simpl. rewrite !app_nil_r. auto.
  - apply Forall_cons in Hwf as [Hr Hwf].
    destruct (run_record_id r Hr) as (i & Hget & Hid).
    destruct (dict_set_entries al i r Hnd) as (al1 & Hset & Hnd1 & Hmap1 & Happ).
    destruct (IH al1 Hwf Hnd1) as (al' & Hidx & Hnd' & Hmap' & Hord).
    exists al'. simpl. rewrite Hget. cbn [hashable]. rewrite Hset, Hidx.
    split; [done|]. split; [done|]. split.
    + rewrite Hmap', Hmap1. f_equal. unfold merge_step. by rewrite Hid.
    + rewrite Hid. intros Hall.
      assert (Hi : i ∉ al.*1).
      { apply NoDup_app in Hall as (_ & Hdisj & _). intros Hin.
        apply (Hdisj i Hin). left. }
      rewrite (Happ Hi) in Hord. rewrite Hord.
      * rewrite fmap_app, <- app_assoc. done.
      * rewrite fmap_app. simpl. rewrite <- app_assoc. done.
Qed.

Lemma merged_by_id_fold runs : merged_by_id runs = foldl merge_step ∅ runs.
Proof. reflexivity. Qed.

(** Later records override earlier ones. *)
Lemma merge_fold_union runs :
  forall m, foldl merge_step m runs = merged_by_id runs ∪ m.
Proof.
  unfold merged_by_id.
  induction runs as [|r runs IH]; intros m; simpl.
  - by rewrite (left_id_L ∅ (∪)).
  - rewrite IH, (IH (merge_step ∅ r)). unfold merge_step.
    destruct (record_id r) as [i|].
    + rewrite !insert_union_singleton_l, (right_id_L ∅ (∪)).
      by rewrite (assoc_L (∪)).
    + by rewrite (right_id_L ∅ (∪)).
Qed.

Lemma merged_by_id_app existing fetched :
  merged_by_id (existing ++ fetched)
  = merged_by_id fetched ∪ merged_by_id existing.
Proof.
  rewrite merged_by_id_fold, foldl_app, merge_fold_union. done.
Qed.

(** Every entry of the map is filed under its own identity. *)
Lemma merged_by_id_key runs i r :
  merged_by_id runs !! i = Some r -> record_id r = Some i /\ r ∈ runs.
Proof.
  rewrite merged_by_id_fold.
  assert (forall m : gmap string json,
            (forall j v, m !! j = Some v -> record_id v = Some j /\ v ∈ runs) ->
            forall l, (forall v, v ∈ l -> v ∈ runs) ->
            foldl merge_step m l !! i = Some r ->
            record_id r = Some i /\ r ∈ runs) as H.
  { intros m Hm l. revert m Hm. induction l as [|v l IH]; intros m Hm Hl; simpl.
    - apply Hm.
    - apply IH; [|intros ? ?; apply Hl; by right].
      intros j v'. unfold merge_step. destruct (record_id v) as [k|] eqn:Ek.
      + destruct (decide (k = j)) as [->|].
        * rewrite lookup_insert_eq. intros [= <-]. split; [done|]. apply Hl. left.
        * rewrite lookup_insert_ne by done. apply Hm.
      + apply Hm. }
  apply H; [|done]. intros j v. by rewrite lookup_empty.
Qed.

(** ** The status filter *)


Lemma run_record_verified r :
  run_record r = true ->
  exists b, is_verified r = Ok b /\ (b = true <-> verified r).
Proof.
  destruct r as [| | | |?|fields]; try done.
  unfold verified, is_verified, py_get, status_of, run_record.
  destruct (dict_get "id" fields) as [[| | |i| |]|]; try done.
  destruct (dict_get "status" fields) as [[| | | | |st]|]; try done;
    cbn [default from_option id mbind];
    [|exists false; split; [reflexivity|split; discriminate]].
  intros _. destruct (dict_get "status" st) as [[| | |s| |]|];
    try (exists false; split; [reflexivity|split; discriminate]).
  exists (String.eqb s "verified"). split; [done|].
  rewrite String.eqb_eq. split; [by intros ->|by intros [= ->]].
Qed.

Lemma keep_verified_filter rs :
  Forall (fun r => run_record r = true) rs ->
  keep_verified rs = Ok (filter verified rs).
Proof.
  induction 1 as [|r rs Hr _ IH]; [done|]. simpl.
  destruct (run_record_verified r Hr) as (b & -> & Hb). rewrite IH.
  rewrite filter_cons. destruct (decide (verified r)) as [Hv|Hv].
  - apply Hb in Hv as ->. done.
  - destruct b; [by destruct Hv; apply Hb|done].
Qed.

(** ** [fetch_verified_runs] on well-formed records *)


Lemma fetch_verified_runs_merged fuel w existing fetched w1 :
  safe_read_json CACHE_FILE (JArr []) w = JArr existing ->
  get_all_runs fuel default_ApiClient GAME_ID None None None w
  = Some (fetched, w1) ->
  Forall (fun r => run_record r = true) (existing ++ fetched_runs_of fetched) ->
  exists al : list (string * json),
    NoDup al.*1
    /\ list_to_map al = merged_by_id (existing ++ fetched_runs_of fetched)
    /\ (NoDup (omap record_id (existing ++ fetched_runs_of fetched)) ->
        al.*2 = existing ++ fetched_runs_of fetched)
    /\ fetch_verified_runs fuel w
       = Some (match filter verified al.*2, existing with
               | [], [] => Raise (no_verified_runs (last_exc_of fetched))
               | [], _ => Ok (JArr existing)
               | vr, _ => Ok (JArr vr)
               end,
               snd (safe_write_json CACHE_FILE
                      (JArr (filter verified al.*2)) w1)).
Proof.
  intros Hread Hfetch Hwf.
  destruct (index_by_id_entries (existing ++ fetched_runs_of fetched) [] Hwf)
    as (al & Hidx & Hnd & Hmap & Hord); [constructor|].
  exists al. split; [done|]. split; [done|]. split; [done|].
  unfold fetch_verified_runs. rewrite Hread, Hfetch. cbv zeta.
  cbn [py_add_list].
  change (index_by_id [] ?runs) with (index_by_id (entries []) runs).
  rewrite Hidx, dict_values_entries, keep_verified_filter.
  2:{ apply Forall_forall. intros r Hr. rewrite Forall_forall in Hwf.
      apply Hwf. apply list_elem_of_fmap in Hr as ([i r'] & -> & Hin).
      apply (elem_of_list_to_map_1 (M := gmap string)) in Hin; [|done].
      rewrite Hmap in Hin. by apply merged_by_id_key in Hin as [_ ?]. }
  destruct (filter verified al.*2), existing; done.
Qed.

(** ** The merge on arbitrary records

    Whatever the records are, when the dict comprehension succeeds the
    dict holds under every string key the entry of the identity-keyed
    map. *)

Lemma key_eq_str k i : key_eq k (JStr i) = true <-> k = JStr i.
Proof.
  destruct k as [|[]|q|s| |]; simpl; try (split; [discriminate|done]).
  rewrite String.eqb_eq. split; [by intros ->|by intros [= ->]].
Qed.

Lemma str_key_eq k i : key_eq (JStr i) k = true <-> k = JStr i.
Proof.
  destruct k as [|[]|q|s| |]; simpl; try (split; [discriminate|done]).
  rewrite String.eqb_eq. split; [by intros ->|by intros [= ->]].
Qed.

Lemma dict_lookup_set d k v i :
  dict_lookup (dict_set d k v) (JStr i)
  = if key_eq k (JStr i) then Some v else dict_lookup d (JStr i).
Proof.
  induction d as [|[k' v'] d IH]; simpl; [done|].
  destruct (key_eq k' k) eqn:Ek; simpl.
  - destruct (key_eq k' (JStr i)) eqn:Ei.
    + apply key_eq_str in Ei as ->. apply str_key_eq in Ek as ->.
      by rewrite (proj2 (key_eq_str (JStr i) i)).
    + destruct (key_eq k (JStr i)) eqn:Eki; [|done].
      apply key_eq_str in Eki as ->. apply key_eq_str in Ek as ->.
      by rewrite (proj2 (key_eq_str (JStr i) i)) in Ei.
  - rewrite IH. destruct (key_eq k' (JStr i)) eqn:Ei; [|done].
    apply key_eq_str in Ei as ->.
    destruct (key_eq k (JStr i)) eqn:Eki; [|done].
    apply key_eq_str in Eki as ->.
    by rewrite (proj2 (key_eq_str (JStr i) i)) in Ek.
Qed.

Lemma py_getitem_id r k :
  py_getitem r "id" = Ok k ->
  record_id r = match k with JStr i => Some i | _ => None end.
Proof.
  destruct r as [| | | | |fields]; simpl; try done.
  destruct (dict_get "id" fields); [|done]. by intros [= ->].
Qed.

Lemma index_by_id_lookup runs :
  forall d combined (m : gmap string json),
    index_by_id d runs = Ok combined ->
    (forall i, dict_lookup d (JStr i) = m !! i) ->
    forall i, dict_lookup combined (JStr i) = foldl merge_step m runs !! i.
Proof.
  induction runs as [|r runs IH]; intros d combined m; simpl.
  - intros [= <-]. done.
  - destruct (py_getitem r "id") as [k|] eqn:Eg; [|done].
    destruct (hashable k); [|done]. intros Hidx Hd.
    apply (IH _ _ _ Hidx). intros i. rewrite dict_lookup_set.
    unfold merge_step. rewrite (py_getitem_id r k Eg).
    destruct (key_eq k (JStr i)) eqn:Ek.
    + apply key_eq_str in Ek as ->. by rewrite lookup_insert_eq.
    + destruct k as [| | |j| |]; try apply Hd.
      rewrite lookup_insert_ne; [apply Hd|]. intros ->.
      by rewrite (proj2 (key_eq_str (JStr i) i)) in Ek.
Qed.

Lemma dict_lookup_values d k v : dict_lookup d k = Some v -> v ∈ dict_values d.
Proof.
  induction d as [|[k' v'] d IH]; simpl; [done|].
  destruct (key_eq k' k).
  - intros [= ->]. left.
  - intros H. right. by apply IH.
Qed.

Lemma keep_verified_none rs r :
  keep_verified rs = Ok [] -> r ∈ rs -> is_verified r = Ok false.
Proof.
  induction rs as [|r' rs IH]; simpl; [by intros _ ?%elem_of_nil|].
  destruct (is_verified r') as [b|] eqn:Ev; [|done].
  destruct (keep_verified rs) as [vs|]; [|done].
  destruct b; [done|]. intros [= ->] [->|Hin]%elem_of_cons; [done|].
  by apply IH.
Qed.

Lemma is_verified_false r : is_verified r = Ok false -> ~ verified r.
Proof.
  unfold verified, status_of, is_verified, py_get.
  destruct r as [| | | | |fields]; try done.
  destruct (dict_get "status" fields) as [[| | | | |st]|];
    cbn [default from_option id mbind]; try done.
  destruct (dict_get "status" st) as [[| | |s| |]|];
    cbn [default from_option id]; try done.
  intros [= Hs] [= ->]. done.
Qed.

(** ** Which exceptions the merge lets escape *)


Lemma py_getitem_raise o k e :
  py_getitem o k = Raise e -> is_runtime_error e = false.
Proof.
  destruct o; simpl; try (by intros [= <-]).
  destruct (dict_get k fields); by intros [= <-].
Qed.

Lemma py_get_raise o k d e :
  py_get o k d = Raise e -> is_runtime_error e = false.
Proof. destruct o; simpl; by intros [= <-]. Qed.

Lemma index_by_id_raise runs :
  forall d e, index_by_id d runs = Raise e -> is_runtime_error e = false.
Proof.
  induction runs as [|r runs IH]; intros d e; simpl; [done|].
  destruct (py_getitem r "id") as [k|e'] eqn:Eg.
  - destruct (hashable k); [apply IH|by intros [= <-]].
  - intros [= <-]. by eapply py_getitem_raise.
Qed.

Lemma keep_verified_raise rs e :
  keep_verified rs = Raise e -> is_runtime_error e = false.
Proof.
  induction rs as [|r rs IH]; simpl; [done|].
  unfold is_verified.
  destruct (py_get r "status" (JObj [])) as [st|e1] eqn:E1.
  - destruct (py_get st "status" JNull) as [v|e2] eqn:E2.
    + destruct (keep_verified rs); [done|]. intros [= <-]. by apply IH.
    + intros [= <-]. by eapply py_get_raise.
  - intros [= <-]. by eapply py_get_raise.
Qed.

(** A run of [fetch_verified_runs] that ends in a [RuntimeError] has
    read an empty cache, merged to no verified record, and has written
    that empty list before raising. *)
Lemma fetch_verified_runs_raises fuel w msg cause w2 :
  fetch_verified_runs fuel w = Some (Raise (RuntimeError msg cause), w2) ->
  exists fetched w1 combined,
    get_all_runs fuel default_ApiClient GAME_ID None None None w
    = Some (fetched, w1)
    /\ safe_read_json CACHE_FILE (JArr []) w = JArr []
    /\ index_by_id [] (fetched_runs_of fetched) = Ok combined
    /\ keep_verified (dict_values combined) = Ok []
    /\ w2 = snd (safe_write_json CACHE_FILE (JArr []) w1)
    /\ RuntimeError msg cause = no_verified_runs (last_exc_of fetched).
Proof.
  unfold fetch_verified_runs.
  destruct (get_all_runs _ _ _ _ _ _ _) as [[fetched w1]|]; [|done].
  intros H. exists fetched, w1. revert H. cbv zeta.
  destruct (safe_read_json CACHE_FILE (JArr []) w) as [| | | |existing|];
    simpl; try (by intros [= ]).
  destruct (index_by_id [] (existing ++ fetched_runs_of fetched))
    as [combined|e] eqn:Ei.
  2:{ intros [= -> <-]. by apply index_by_id_raise in Ei. }
  destruct (keep_verified (dict_values combined)) as [vr|e] eqn:Ek.
  2:{ intros [= -> <-]. by apply keep_verified_raise in Ek. }
  destruct vr as [|v vr]; [|by intros [= ]].
  destruct existing as [|x existing]; [|by intros [= ]].
  simpl. intros [= <- <- <-]. exists combined. done.
Qed.

Lemma safe_write_json_files path data w :
  denied w path = false ->
  files (snd (safe_write_json path data w)) = <[path := Content data]> (files w).
Proof. intros H. unfold safe_write_json, write_json. by rewrite H. Qed.

(** C3. For every prior cache content and every fetched list of run
    records (JSON objects with a string id), the repository merge builds
    the identity-keyed map of the cached records followed by the fetched
    ones, in which a fetched record overrides a cached record of the
    same id; it keeps the records of that map whose status is
    "verified", one per id, and calls [safe_write_json] on the cache
    file with exactly those, whether or not any is left: the write being
    accepted, they replace the old content of the cache. *)
Theorem fetch_verified_runs_merge_filter_write
    (fuel : nat) (w : world) (existing : list json)
    (fetched : result (list json)) (w1 : world) :
  safe_read_json CACHE_FILE (JArr []) w = JArr existing ->
  get_all_runs fuel default_ApiClient GAME_ID None None None w
  = Some (fetched, w1) ->
  Forall (fun r => run_record r = true) (existing ++ fetched_runs_of fetched) ->
  exists res w2 verified_runs,
    fetch_verified_runs fuel w = Some (res, w2)
    /\ w2 = snd (safe_write_json CACHE_FILE (JArr verified_runs) w1)
    /\ (denied w CACHE_FILE = false ->
        files w2 = <[CACHE_FILE := Content (JArr verified_runs)]> (files w))
    /\ NoDup (record_id <$> verified_runs)
    /\ forall r,
         r ∈ verified_runs
         <-> verified r
             /\ exists i,
                  (merged_by_id (fetched_runs_of fetched)
                     ∪ merged_by_id existing) !! i = Some r.
Proof.
  intros Hread Hfetch Hwf.
  destruct (fetch_verified_runs_merged fuel w existing fetched w1 Hread Hfetch Hwf)
    as (al & Hnd & Hmap & _ & Hrun).
  destruct (get_all_runs_frame _ _ _ _ _ _ _ _ Hfetch) as (_ & Hden & Hfiles).
  eexists _, _, (filter verified al.*2). split; [exact Hrun|].
  rewrite <- merged_by_id_app, <- Hmap.
  split; [done|]. split; [|split].
  - intros Hwrite. rewrite safe_write_json_files by congruence.
    by rewrite Hfiles.
  - eapply sublist_NoDup; [|apply fmap_sublist, sublist_filter].
    assert (record_id <$> al.*2 = Some <$> al.*1) as ->.
    { apply list_eq. intros n. rewrite !list_lookup_fmap.
      destruct (al !! n) as [[i r]|] eqn:En; [|done]. simpl. f_equal.
      apply list_elem_of_lookup_2 in En.
      apply (elem_of_list_to_map_1 (M := gmap string)) in En; [|done].
      rewrite Hmap in En. by apply merged_by_id_key in En as [? _]. }
    by apply (NoDup_fmap_2 _).
  - intros r. rewrite list_elem_of_filter. apply and_iff_compat_l. split.
    + intros ([i r'] & -> & Hin)%list_elem_of_fmap. exists i.
      by apply elem_of_list_to_map_1.
    + intros [i Hi]. apply elem_of_list_to_map_2 in Hi.
      apply list_elem_of_fmap. by exists (i, r).
Qed.

(** C5. When the remote fetch raises and the verified-run cache holds a
    non-empty list of verified run records with distinct ids,
    [fetch_verified_runs] does not raise and returns that list, the same
    records in the same order. *)
Theorem fetch_verified_runs_cache_fallback
    (fuel : nat) (w : world) (existing : list json) (e : exn) (w1 : world) :
  files w !! CACHE_FILE = Some (Content (JArr existing)) ->
  existing <> [] ->
  Forall (fun r => run_record r = true /\ verified r) existing ->
  NoDup (omap record_id existing) ->
  get_all_runs fuel default_ApiClient GAME_ID None None None w
  = Some (Raise e, w1) ->
  exists w2, fetch_verified_runs fuel w = Some (Ok (JArr existing), w2).
Proof.
  intros Hfile Hne Hall Hnd Hfetch.
  assert (Hread : safe_read_json CACHE_FILE (JArr []) w = JArr existing).
  { unfold safe_read_json. by rewrite Hfile. }
  destruct (fetch_verified_runs_merged fuel w existing (Raise e) w1 Hread Hfetch)
    as (al & _ & _ & Hord & Hrun).
  { simpl. rewrite app_nil_r. eapply Forall_impl; [exact Hall|]. by intros r [? _]. }
  simpl in Hord. rewrite app_nil_r in Hord. specialize (Hord Hnd).
  rewrite Hord in Hrun.
  assert (Hkeep : filter verified existing = existing).
  { clear -Hall. induction Hall as [|r rs [_ Hv] _ IH]; [done|].
    rewrite filter_cons_True by done. by rewrite IH. }
  rewrite Hkeep in Hrun. eexists. rewrite Hrun.
  destruct existing; done.
Qed.

(** C4. [fetch_verified_runs] raises its "no verified runs" error only
    when the cache read gave an empty list and the fetched records left
    no verified record in the identity-keyed map; and whenever the cache
    is empty and the remote fetch raised an error [e], it raises that
    error with the text of [e] appended to its message. *)
Theorem fetch_verified_runs_no_verified_runs :
  (forall fuel w msg cause w2,
     fetch_verified_runs fuel w = Some (Raise (RuntimeError msg cause), w2) ->
     safe_read_json CACHE_FILE (JArr []) w = JArr []
     /\ exists fetched w1,
          get_all_runs fuel default_ApiClient GAME_ID None None None w
          = Some (fetched, w1)
          /\ forall i r,
               merged_by_id (fetched_runs_of fetched) !! i = Some r ->
               ~ verified r)
  /\ (forall fuel w e w1,
        safe_read_json CACHE_FILE (JArr []) w = JArr [] ->
        get_all_runs fuel default_ApiClient GAME_ID None None None w
        = Some (Raise e, w1) ->
        exists w2,
          fetch_verified_runs fuel w
          = Some (Raise (RuntimeError
                           ("Failed to obtain verified runs from API: "
                              +:+ str_exn e) None), w2)).
Proof.
  split.
  - intros fuel w msg cause w2 Hrun.
    destruct (fetch_verified_runs_raises _ _ _ _ _ Hrun)
      as (fetched & w1 & combined & Hfetch & Hread & Hidx & Hkeep & _).
    split; [done|]. exists fetched, w1. split; [done|].
    intros i r Hi. apply is_verified_false.
    apply (keep_verified_none _ _ Hkeep).
    apply (dict_lookup_values _ (JStr i)).
    rewrite (index_by_id_lookup _ _ _ ∅ Hidx); [done|].
    intros j. by rewrite lookup_empty.
  - intros fuel w e w1 Hread Hfetch. unfold fetch_verified_runs.
    rewrite Hread, Hfetch. simpl. by eexists.
Qed.

(** C10. [fetch_verified_runs] writes the filtered list to the cache
    before it checks whether to fail: in every run that ends by raising
    its "no verified runs" error, [safe_write_json] has been called on
    the cache file with the empty list, and, the write being accepted,
    the cache file then holds the empty list. *)
Theorem fetch_verified_runs_writes_before_raising
    (fuel : nat) (w : world) (msg : string)
    (cause : option request_exception) (w2 : world) :
  fetch_verified_runs fuel w = Some (Raise (RuntimeError msg cause), w2) ->
  exists fetched w1,
    get_all_runs fuel default_ApiClient GAME_ID None None None w
    = Some (fetched, w1)
    /\ w2 = snd (safe_write_json CACHE_FILE (JArr []) w1)
    /\ (denied w CACHE_FILE = false ->
        files w2 = <[CACHE_FILE := Content (JArr [])]> (files w)
        /\ safe_read_json CACHE_FILE JNull w2 = JArr []).
Proof.
  intros Hrun.
  destruct (fetch_verified_runs_raises _ _ _ _ _ Hrun)
    as (fetched & w1 & combined & Hfetch & _ & _ & _ & -> & _).
  exists fetched, w1. split; [done|]. split; [done|]. intros Hwrite.
  destruct (get_all_runs_frame _ _ _ _ _ _ _ _ Hfetch) as (_ & Hden & Hfiles).
  rewrite safe_write_json_files by congruence. rewrite Hfiles.
  split; [done|]. unfold safe_read_json.
  rewrite safe_write_json_files by congruence.
  by rewrite lookup_insert_eq.
Qed.

Lemma fetch_verified_runs_merge_filter_write_witness :
  let fetch := get_all_runs 2 default_ApiClient GAME_ID None None None
                 refresh_world in
  safe_read_json CACHE_FILE (JArr []) refresh_world = JArr [stale_r1]
  /\ fetch = Some (Ok [fresh_r1; rejected_r2], world_after refresh_world fetch)
  /\ Forall (fun r => run_record r = true)
       ([stale_r1] ++ fetched_runs_of (Ok [fresh_r1; rejected_r2]))
  /\ exists res w2 verified_runs,
       fetch_verified_runs 2 refresh_world = Some (res, w2)
       /\ w2 = snd (safe_write_json CACHE_FILE (JArr verified_runs)
                      (world_after refresh_world fetch))
       /\ (denied refresh_world CACHE_FILE = false ->
           files w2
           = <[CACHE_FILE := Content (JArr verified_runs)]>
               (files refresh_world))
       /\ NoDup (record_id <$> verified_runs)
       /\ forall r,
            r ∈ verified_runs
            <-> verified r
                /\ exists i,
                     (merged_by_id (fetched_runs_of (Ok [fresh_r1; rejected_r2]))
                        ∪ merged_by_id [stale_r1]) !! i = Some r.
Proof.
  intros fetch.
  assert (H1 : safe_read_json CACHE_FILE (JArr []) refresh_world = JArr [stale_r1])
    by (vm_compute; reflexivity).
  assert (H2 : fetch = Some (Ok [fresh_r1; rejected_r2],
                             world_after refresh_world fetch))
    by (vm_compute; reflexivity).
  assert (H3 : Forall (fun r => run_record r = true)
                 ([stale_r1] ++ fetched_runs_of (Ok [fresh_r1; rejected_r2])))
    by (repeat constructor).
  split; [exact H1|]. split; [exact H2|]. split; [exact H3|].
  exact (fetch_verified_runs_merge_filter_write 2 refresh_world [stale_r1]
           (Ok [fresh_r1; rejected_r2]) (world_after refresh_world fetch)
           H1 H2 H3).
Defined.

(** The spec's scenario: the cache holds r1, the fetch returns r1
    verified and r2 rejected; r1 alone is returned and written back. *)
Example refresh_world_run :
  let run := fetch_verified_runs 2 refresh_world in
  fst <$> run = Some (Ok (JArr [fresh_r1]))
  /\ files (world_after refresh_world run) !! CACHE_FILE
     = Some (Content (JArr [fresh_r1])).
Proof. split; vm_compute; reflexivity. Qed.

Lemma fetch_verified_runs_cache_fallback_witness :
  let w := offline (files_with_cache [fresh_r1; verified_r2]) in
  let fetch := get_all_runs 1 default_ApiClient GAME_ID None None None w in
  files w !! CACHE_FILE = Some (Content (JArr [fresh_r1; verified_r2]))
  /\ [fresh_r1; verified_r2] <> []
  /\ Forall (fun r => run_record r = true /\ verified r) [fresh_r1; verified_r2]
  /\ NoDup (omap record_id [fresh_r1; verified_r2])
  /\ fetch = Some (Raise first_page_failed, world_after w fetch)
  /\ exists w2,
       fetch_verified_runs 1 w = Some (Ok (JArr [fresh_r1; verified_r2]), w2).
Proof.
  intros w fetch.
  assert (H1 : files w !! CACHE_FILE
               = Some (Content (JArr [fresh_r1; verified_r2])))
    by (vm_compute; reflexivity).
  assert (H2 : [fresh_r1; verified_r2] <> []) by discriminate.
  assert (H3 : Forall (fun r => run_record r = true /\ verified r)
                 [fresh_r1; verified_r2])
    by (repeat constructor).
  assert (H4 : NoDup (omap record_id [fresh_r1; verified_r2])).
  { apply (bool_decide_unpack _). vm_compute. exact I. }
  assert (H5 : fetch = Some (Raise first_page_failed, world_after w fetch))
    by (vm_compute; reflexivity).
  split; [exact H1|]. split; [exact H2|]. split; [exact H3|].
  split; [exact H4|]. split; [exact H5|].
  exact (fetch_verified_runs_cache_fallback 1 w [fresh_r1; verified_r2]
           first_page_failed (world_after w fetch) H1 H2 H3 H4 H5).
Defined.

Lemma fetch_verified_runs_no_verified_runs_witness :
  let fetch := get_all_runs 1 default_ApiClient GAME_ID None None None
                 (offline ∅) in
  safe_read_json CACHE_FILE (JArr []) (offline ∅) = JArr []
  /\ fetch = Some (Raise first_page_failed, world_after (offline ∅) fetch)
  /\ exists w2,
       fetch_verified_runs 1 (offline ∅)
       = Some (Raise (RuntimeError
                        ("Failed to obtain verified runs from API: "
                           +:+ str_exn first_page_failed) None), w2).
Proof.
  intros fetch.
  assert (H1 : safe_read_json CACHE_FILE (JArr []) (offline ∅) = JArr [])
    by reflexivity.
  assert (H2 : fetch = Some (Raise first_page_failed,
                             world_after (offline ∅) fetch))
    by (vm_compute; reflexivity).
  split; [exact H1|]. split; [exact H2|].
  exact (proj2 fetch_verified_runs_no_verified_runs 1 (offline ∅)
           first_page_failed (world_after (offline ∅) fetch) H1 H2).
Defined.

(** With the network down and no cache, the error carries the text of
    the fetch error. *)
Example offline_no_cache :
  fst <$> fetch_verified_runs 1 (offline ∅)
  = Some (Raise (RuntimeError
                   ("Failed to obtain verified runs from API: Failed to fetch "
                      +:+ "https://www.speedrun.com/api/v1/runs?game=o1y3y346&max=200&offset=0")
                   None)).
Proof. vm_compute. reflexivity. Qed.

Lemma fetch_verified_runs_writes_before_raising_witness :
  let run := fetch_verified_runs 1 (offline ∅) in
  let msg := "Failed to obtain verified runs from API: "
               +:+ str_exn first_page_failed in
  run = Some (Raise (RuntimeError msg None), world_after (offline ∅) run)
  /\ exists fetched w1,
       get_all_runs 1 default_ApiClient GAME_ID None None None (offline ∅)
       = Some (fetched, w1)
       /\ world_after (offline ∅) run
          = snd (safe_write_json CACHE_FILE (JArr []) w1)
       /\ (denied (offline ∅) CACHE_FILE = false ->
           files (world_after (offline ∅) run)
           = <[CACHE_FILE := Content (JArr [])]> (files (offline ∅))
           /\ safe_read_json CACHE_FILE JNull (world_after (offline ∅) run)
              = JArr []).
Proof.
  intros run msg.
  assert (H : run = Some (Raise (RuntimeError msg None),
                          world_after (offline ∅) run))
    by (vm_compute; reflexivity).
  split; [exact H|].
  apply (fetch_verified_runs_writes_before_raising 1 (offline ∅) msg None).
  exact H.
Defined.
(** * Further properties of the ranking passes *)

(** ** Rows the passes keep *)

Lemma cohort_key_parts cols r :
  is_Some (group_key (cols ++ [col_player_id; col_note]) r) ->
  Forall (fun c => is_Some (cell c r)) cols
  /\ is_Some (player_id r) /\ is_Some (note r).
Proof.
  rewrite <- group_key_is_Some, Forall_app. intros [Hc Hpn].
  split; [done|].
  apply Forall_cons in Hpn as [Hp Hn]. apply Forall_cons in Hn as [Hn _].
  done.
Qed.

Lemma mark_row_incomplete df cols r :
  ~ complete cols r -> mark_row df cols r = set_obsolete true r.
Proof.
  intros Hn. unfold mark_row. f_equal.
  destruct (float_ne _ _) eqn:E; [done|]. exfalso. apply Hn.
  destruct (mark_row_kept_complete df cols r E) as [Hk Ht].
  apply cohort_key_parts in Hk as (? & ? & ?). done.
Qed.

(** X1. A record with a null among its grouping columns, player, note or
    duration is marked obsolete whatever the other records are, and
    takes no part in the ranking: it keeps the place it came with. *)
Theorem mark_obsolete_and_place_incomplete
    (df : list row) (groupby_cols : list column) (i : nat) (r : row) :
  groupby_cols <> [] -> df !! i = Some r -> ~ complete groupby_cols r ->
  exists df',
    mark_obsolete_and_place df groupby_cols = Ok df'
    /\ df' !! i = Some (set_obsolete true r).
Proof.
  intros Hne Hi Hn.
  destruct (mark_obsolete_and_place_lookup df groupby_cols Hne)
    as (df' & Hrun & _ & Hrows).
  exists df'. split; [done|]. apply Hrows. exists r. split; [done|].
  rewrite (mark_row_incomplete df groupby_cols r Hn). reflexivity.
Qed.

(** ** Counting the faster durations *)

Lemma count_lt_mono x y l : (x <= y)%Q -> count_lt x l <= count_lt y l.
Proof.
  intros Hxy. induction l as [|z l IH]; [done|].
  rewrite !count_lt_cons.
  destruct (decide (z < x)%Q) as [Hz|Hz], (decide (z < y)%Q) as [Hz'|Hz']; try lia.
  exfalso. apply Hz'. by apply Qlt_le_trans with x.
Qed.

Lemma count_lt_strict x y l :
  (x < y)%Q -> x ∈ l -> count_lt x l < count_lt y l.
Proof.
  intros Hxy Hin. induction l as [|z l IH]; [by apply elem_of_nil in Hin|].
  rewrite !count_lt_cons.
  apply elem_of_cons in Hin as [<-|Hin].
  - pose proof (count_lt_mono x y l (Qlt_le_weak _ _ Hxy)).
    destruct (decide (x < x)%Q) as [Hz|_]; [by apply Qlt_irrefl in Hz|].
    destruct (decide (x < y)%Q); [lia|done].
  - specialize (IH Hin).
    destruct (decide (z < x)%Q) as [Hz|Hz], (decide (z < y)%Q) as [Hz'|Hz']; try lia.
    exfalso. apply Hz'. by apply Qlt_trans with x.
Qed.

Lemma count_lt_proper x y l : (x == y)%Q -> count_lt x l = count_lt y l.
Proof.
  intros Hxy. apply Nat.le_antisymm; apply count_lt_mono; rewrite Hxy; apply Qle_refl.
Qed.

(** ** What the passes read

    The passes read the key cells, the duration and the flag of a row;
    a change of the table that keeps those keeps the group durations. *)

Lemma durations_group_rows_fmap (f : row -> row) keys k df :
  (forall c r, cell c (f r) = cell c r) ->
  (forall r, primary_t (f r) = primary_t r) ->
  durations (group_rows keys k (f <$> df)) = durations (group_rows keys k df).
Proof.
  intros Hc Ht. unfold group_rows, durations.
  induction df as [|r df IH]; [done|].
  rewrite fmap_cons, !filter_cons.
  assert (Hk : group_key keys (f r) = group_key keys r).
  { apply group_key_ext, Forall_forall. intros c _. apply Hc. }
  rewrite Hk. destruct (decide (group_key keys r = Some k)); [|exact IH].
  cbn [omap list_omap]. rewrite Ht. destruct (primary_t r); [f_equal|]; exact IH.
Qed.

Lemma kept_fmap (f : row -> row) (df : list row) :
  (forall r, obsolete (f r) = obsolete r) ->
  filter (fun r => obsolete r = false) (f <$> df)
  = f <$> filter (fun r => obsolete r = false) df.
Proof.
  intros Ho. rewrite filter_fmap. f_equal.
  apply list_filter_iff. intros r. simpl. by rewrite Ho.
Qed.

Lemma cohort_best_fmap (f : row -> row) df cols r :
  (forall c r, cell c (f r) = cell c r) ->
  (forall r, primary_t (f r) = primary_t r) ->
  cohort_best (f <$> df) cols (f r) = cohort_best df cols r.
Proof.
  intros Hc Ht. unfold cohort_best.
  assert (Hk : forall keys, group_key keys (f r) = group_key keys r).
  { intros keys. apply group_key_ext, Forall_forall. intros c _. apply Hc. }
  rewrite Hk. destruct (group_key _ r); [|done].
  by rewrite durations_group_rows_fmap.
Qed.

Lemma rank_of_fmap (f : row -> row) df1 cols r :
  (forall c r, cell c (f r) = cell c r) ->
  (forall r, primary_t (f r) = primary_t r) ->
  (forall r, obsolete (f r) = obsolete r) ->
  rank_of (f <$> df1) cols (f r) = rank_of df1 cols r.
Proof.
  intros Hc Ht Ho. unfold rank_of.
  assert (Hk : group_key cols (f r) = group_key cols r).
  { apply group_key_ext, Forall_forall. intros c _. apply Hc. }
  rewrite Hk, Ht. destruct (group_key cols r); [|done].
  destruct (primary_t r); [|done].
  by rewrite kept_fmap, durations_group_rows_fmap.
Qed.

Lemma set_obsolete_same r : set_obsolete (obsolete r) r = r.
Proof. by destruct r. Qed.

Lemma set_place_same r : set_place (place r) r = r.
Proof. by destruct r. Qed.

(** The place the ranking pass gives a kept row. *)
Lemma rank_of_kept df1 cols r1 k t :
  r1 ∈ df1 -> obsolete r1 = false ->
  group_key cols r1 = Some k -> primary_t r1 = Some t ->
  rank_of df1 cols r1
  = Some (1 + Z.of_nat (count_lt t (durations (group_rows cols k
              (filter (fun r => obsolete r = false) df1)))))%Z.
Proof.
  intros Hin Hobs Hk Ht. unfold rank_of. rewrite Hk, Ht. f_equal.
  apply rank_min_count, elem_of_group_durations.
  exists r1. split; [|done]. by apply list_elem_of_filter.
Qed.

(** A row of the result of the two passes that is not obsolete, traced
    back to the marked table [df1]. *)
Lemma kept_row_inv df cols r' :
  r' ∈ rank_row (mark_row df cols <$> df) cols <$> (mark_row df cols <$> df) ->
  obsolete r' = false ->
  exists r1 k t,
    r1 ∈ mark_row df cols <$> df /\ r' = rank_row (mark_row df cols <$> df) cols r1
    /\ obsolete r1 = false /\ group_key cols r1 = Some k
    /\ primary_t r1 = Some t.
Proof.
  intros Hin Hobs.
  apply list_elem_of_fmap in Hin as (r1 & -> & Hin1).
  rewrite rank_row_obsolete in Hobs.
  pose proof Hin1 as Hin.
  apply list_elem_of_fmap in Hin as (r & -> & Hin).
  destruct (mark_row_kept_complete _ _ _ Hobs) as [Hkey [t Ht]].
  apply group_key_prefix in Hkey as [k Hk].
  exists (mark_row df cols r), k, t. split; [done|]. split; [done|].
  split; [done|]. split; [by rewrite mark_row_group_key|done].
Qed.

(** X2. Among the non-obsolete records of one group the places follow
    the durations: a strictly smaller duration has a strictly smaller
    place, and equal durations have equal places. *)
Theorem mark_obsolete_and_place_order
    (df : list row) (groupby_cols : list column) (df' : list row)
    (r1 r2 : row) :
  groupby_cols <> [] -> mark_obsolete_and_place df groupby_cols = Ok df' ->
  r1 ∈ df' -> r2 ∈ df' -> obsolete r1 = false -> obsolete r2 = false ->
  same_group groupby_cols r1 r2 ->
  exists t1 t2 p1 p2,
    primary_t r1 = Some t1 /\ primary_t r2 = Some t2
    /\ place r1 = Some p1 /\ place r2 = Some p2
    /\ ((t1 < t2)%Q <-> (p1 < p2)%Z)
    /\ ((t1 == t2)%Q <-> p1 = p2).
Proof.
  intros Hne Hrun Hin1 Hin2 Hobs1 Hobs2 Hg.
  rewrite mark_obsolete_and_place_rows in Hrun by done.
  injection Hrun as <-.
  set (df1 := mark_row df groupby_cols <$> df) in *.
  destruct (kept_row_inv _ _ _ Hin1 Hobs1) as (a1 & k1 & t1 & Ha1 & -> & Ho1 & Hk1 & Ht1).
  destruct (kept_row_inv _ _ _ Hin2 Hobs2) as (a2 & k2 & t2 & Ha2 & -> & Ho2 & Hk2 & Ht2).
  fold df1 in Ha1, Ha2 |- *.
  assert (k2 = k1) as ->.
  { assert (group_key groupby_cols a2 = Some k1) as Hk2'.
    { apply (same_group_key groupby_cols a1 a2 k1 Hk1).
      unfold same_group in *. eapply Forall_impl; [exact Hg|].
      intros c Hc. simpl in Hc. by autorewrite with row_fields in Hc. }
    congruence. }
  set (xs := durations (group_rows groupby_cols k1
                          (filter (fun r => obsolete r = false) df1))).
  assert (Hx1 : t1 ∈ xs).
  { apply elem_of_group_durations. exists a1. split; [|done].
    by apply list_elem_of_filter. }
  assert (Hx2 : t2 ∈ xs).
  { apply elem_of_group_durations. exists a2. split; [|done].
    by apply list_elem_of_filter. }
  exists t1, t2, (1 + Z.of_nat (count_lt t1 xs))%Z, (1 + Z.of_nat (count_lt t2 xs))%Z.
  split; [by rewrite rank_row_primary_t|]. split; [by rewrite rank_row_primary_t|].
  split.
  { unfold rank_row. rewrite Ho1. simpl. by apply rank_of_kept. }
  split.
  { unfold rank_row. rewrite Ho2. simpl. by apply rank_of_kept. }
  destruct (Q_dec t1 t2) as [[Hlt|Hgt]|Heq].
  - pose proof (count_lt_strict t1 t2 xs Hlt Hx1).
    split; split; intros H'; try done; try lia.
    rewrite H' in Hlt. by apply Qlt_irrefl in Hlt.
  - pose proof (count_lt_strict t2 t1 xs Hgt Hx2).
    split; split; intros H'; try lia.
    + exfalso. apply (Qlt_irrefl t1). by apply Qlt_trans with t2.
    + rewrite H' in Hgt. by apply Qlt_irrefl in Hgt.
  - pose proof (count_lt_proper t1 t2 xs Heq).
    split; split; intros H'; try done; try lia.
    rewrite Heq in H'. by apply Qlt_irrefl in H'.
Qed.

(** X3. Every group with a non-obsolete record has a first place: some
    non-obsolete record of the group, at least as fast as any given
    one, has place 1. *)
Theorem mark_obsolete_and_place_first_place
    (df : list row) (groupby_cols : list column) (df' : list row) (r' : row) :
  groupby_cols <> [] -> mark_obsolete_and_place df groupby_cols = Ok df' ->
  r' ∈ df' -> obsolete r' = false ->
  exists r0 t0 t,
    r0 ∈ df' /\ kept_in_group groupby_cols r' r0 /\ place r0 = Some 1%Z
    /\ primary_t r0 = Some t0 /\ primary_t r' = Some t /\ (t0 <= t)%Q.
Proof.
  intros Hne Hrun Hin Hobs.
  rewrite mark_obsolete_and_place_rows in Hrun by done.
  injection Hrun as <-.
  set (df1 := mark_row df groupby_cols <$> df) in *.
  destruct (kept_row_inv _ _ _ Hin Hobs) as (a & k & t & Ha & -> & Ho & Hk & Ht).
  fold df1 in Ha |- *.
  set (xs := durations (group_rows groupby_cols k
                          (filter (fun r => obsolete r = false) df1))).
  assert (Hx : t ∈ xs).
  { apply elem_of_group_durations. exists a. split; [|done].
    by apply list_elem_of_filter. }
  destruct (group_min_is_Some _ _ Hx) as [m Hm].
  apply group_min_spec in Hm as [Hmin Hle].
  pose proof Hmin as Hmin'.
  apply elem_of_group_durations in Hmin' as (a0 & Ha0 & Hk0 & Ht0).
  apply list_elem_of_filter in Ha0 as [Ho0 Ha0].
  exists (rank_row df1 groupby_cols a0), m, t.
  split; [apply list_elem_of_fmap; eauto|].
  split.
  { split; [by rewrite rank_row_obsolete|].
    unfold same_group. apply Forall_forall. intros c Hc.
    rewrite !rank_row_cell. revert c Hc. apply Forall_forall.
    by apply (same_group_key groupby_cols a a0 k Hk). }
  split.
  { unfold rank_row. rewrite Ho0. simpl.
    rewrite (rank_of_kept df1 groupby_cols a0 k m Ha0 Ho0 Hk0 Ht0).
    fold xs. by rewrite count_lt_none. }
  split; [by rewrite rank_row_primary_t|].
  split; [by rewrite rank_row_primary_t|].
  rewrite Forall_forall in Hle. by apply Hle.
Qed.

Lemma filter_length_lt {A} (P Q : A -> Prop) `{!forall x, Decision (P x)}
    `{!forall x, Decision (Q x)} (l : list A) (x : A) :
  (forall y, P y -> Q y) -> x ∈ l -> Q x -> ~ P x ->
  length (filter P l) < length (filter Q l).
Proof.
  intros HPQ Hin HQ HnP. induction l as [|y l IH]; [by apply elem_of_nil in Hin|].
  assert (Hle : forall l', length (filter P l') <= length (filter Q l')).
  { clear -HPQ. intros l'. induction l' as [|z l' IH']; [done|].
    rewrite !filter_cons.
    destruct (decide (P z)) as [HP|HP], (decide (Q z)) as [HQ|HQ]; simpl; try lia.
    destruct HQ. by apply HPQ. }
  rewrite !filter_cons. apply elem_of_cons in Hin as [<-|Hin].
  - destruct (decide (P x)); [done|]. destruct (decide (Q x)); [|done].
    simpl. specialize (Hle l). lia.
  - specialize (IH Hin).
    destruct (decide (P y)) as [HP|HP], (decide (Q y)) as [HQ'|HQ']; simpl; try lia.
    destruct HQ'. by apply HPQ.
Qed.

(** X4. The place of a non-obsolete record lies between 1 and the number
    of non-obsolete records of its group. *)
Theorem mark_obsolete_and_place_place_range
    (df : list row) (groupby_cols : list column) (df' : list row) (r' : row) :
  groupby_cols <> [] -> mark_obsolete_and_place df groupby_cols = Ok df' ->
  r' ∈ df' -> obsolete r' = false ->
  exists p,
    place r' = Some p
    /\ (1 <= p <= Z.of_nat (length (filter (kept_in_group groupby_cols r') df')))%Z.
Proof.
  intros Hne Hrun Hin Hobs.
  pose proof Hrun as Hrows.
  rewrite mark_obsolete_and_place_rows in Hrows by done.
  injection Hrows as Hrows.
  set (df1 := mark_row df groupby_cols <$> df) in *.
  pose proof Hin as Hin'. rewrite <- Hrows in Hin'.
  destruct (kept_row_inv _ _ _ Hin' Hobs) as (a & k & t & Ha & Er & Ho & Hk & Ht).
  fold df1 in Ha, Er.
  pose proof (rank_row_place df1 groupby_cols a k t Ha Ho Hk Ht) as Hp.
  rewrite <- Er, Hrows in Hp.
  eexists. split; [exact Hp|]. split; [lia|].
  assert (length (filter (outranks groupby_cols r') df')
          < length (filter (kept_in_group groupby_cols r') df')); [|lia].
  apply (filter_length_lt _ _ df' r'); [| done | |].
  - intros y (? & ? & _). by split.
  - split; [done|]. unfold same_group. by apply Forall_forall.
  - intros (_ & _ & Hf). rewrite Er, rank_row_primary_t, Ht in Hf.
    unfold faster_than in Hf. rewrite rank_row_primary_t, Ht in Hf.
    by apply Qlt_irrefl in Hf.
Qed.

(** X5. The obsolescence pass never empties a cohort: for every record
    with no null among its grouping columns, player, note and duration,
    some record of its cohort that is at least as fast is kept. *)
Theorem mark_obsolete_runs_keeps_a_best
    (df : list row) (groupby_cols : list column) (r : row) :
  r ∈ df -> complete groupby_cols r ->
  exists r0 t0 t,
    r0 ∈ df /\ same_cohort groupby_cols r r0
    /\ primary_t r0 = Some t0 /\ primary_t r = Some t /\ (t0 <= t)%Q
    /\ set_obsolete false r0 ∈ _mark_obsolete_runs df groupby_cols.
Proof.
  intros Hr Hcomplete.
  destruct (cohort_key_complete _ _ Hcomplete) as [k Hk].
  destruct Hcomplete as (_ & _ & _ & [t Ht]).
  set (keys := groupby_cols ++ [col_player_id; col_note]) in *.
  assert (Hin : t ∈ durations (group_rows keys k df)).
  { apply elem_of_group_durations. eauto. }
  destruct (group_min_is_Some _ _ Hin) as [m Hm].
  apply group_min_spec in Hm as [Hmin Hle].
  rewrite Forall_forall in Hle.
  apply elem_of_group_durations in Hmin as (r0 & Hr0 & Hk0 & Ht0).
  assert (Hc : same_cohort groupby_cols r r0) by (by eapply cohort_key_agree).
  exists r0, m, t. split; [done|]. split; [done|]. split; [done|].
  split; [done|]. split; [by apply Hle|].
  rewrite mark_obsolete_runs_rows. apply list_elem_of_fmap. exists r0.
  split; [|done]. unfold mark_row. f_equal. symmetry.
  apply (mark_row_kept df groupby_cols r0 k m Hr0 Hk0 Ht0).
  intros r2 t2 Hr2 Hc2 Ht2. apply Hle.
  apply elem_of_group_durations. exists r2. split; [done|]. split; [|done].
  rewrite <- Hk0. symmetry. by apply cohort_key_ext.
Qed.

(** ** Running the passes again *)

Lemma mark_row_fixed df cols (f : row -> row) r :
  (forall c r, cell c (f r) = cell c r) ->
  (forall r, primary_t (f r) = primary_t r) ->
  obsolete (f r) = obsolete (mark_row df cols r) ->
  mark_row (f <$> df) cols (f r) = f r.
Proof.
  intros Hc Ht Ho. unfold mark_row.
  rewrite cohort_best_fmap, Ht by done.
  transitivity (set_obsolete (obsolete (f r)) (f r)); [|apply set_obsolete_same].
  f_equal. by rewrite Ho.
Qed.

(** X6. Ranking a ranked table again changes nothing. *)
Theorem mark_obsolete_and_place_idempotent
    (df : list row) (groupby_cols : list column) (df' : list row) :
  groupby_cols <> [] -> mark_obsolete_and_place df groupby_cols = Ok df' ->
  mark_obsolete_and_place df' groupby_cols = Ok df'.
Proof.
  intros Hne Hrun.
  rewrite mark_obsolete_and_place_rows in Hrun by done.
  injection Hrun as <-.
  rewrite mark_obsolete_and_place_rows by done.
  set (df1 := mark_row df groupby_cols <$> df).
  set (g := rank_row df1 groupby_cols).
  set (f := fun r => g (mark_row df groupby_cols r)).
  assert (Hdf' : g <$> df1 = f <$> df).
  { unfold df1. rewrite <- list_fmap_compose. done. }
  rewrite Hdf'.
  assert (Hfc : forall c r, cell c (f r) = cell c r).
  { intros c r. unfold f, g. by autorewrite with row_fields. }
  assert (Hft : forall r, primary_t (f r) = primary_t r).
  { intros r. unfold f, g. by autorewrite with row_fields. }
  assert (Hmark : mark_row (f <$> df) groupby_cols <$> (f <$> df) = f <$> df).
  { rewrite <- list_fmap_compose. apply list_fmap_ext. intros i r _. simpl.
    apply mark_row_fixed; [done|done|]. unfold f, g.
    by rewrite rank_row_obsolete. }
  rewrite Hmark. f_equal.
  rewrite <- Hdf'. rewrite <- list_fmap_compose.
  apply list_fmap_ext. intros i r1 _. simpl.
  assert (Hgo : obsolete (g r1) = obsolete r1) by apply rank_row_obsolete.
  unfold rank_row at 1. rewrite Hgo.
  destruct (obsolete r1) eqn:Ho; [done|].
  transitivity (set_place (place (g r1)) (g r1)); [|apply set_place_same].
  f_equal.
  assert (place (g r1) = rank_of df1 groupby_cols r1) as ->.
  { unfold g, rank_row. by rewrite Ho. }
  apply rank_of_fmap; intros; unfold g; by autorewrite with row_fields.
Qed.

(** ** The two ranking blocks of [process_runs] *)

Lemma write_back_fmap (mask : row -> bool) (h : row -> row) (df : list row) :
  write_back mask df (h <$> filter (fun r => mask r = true) df)
  = (fun r => if mask r then copy_rank (h r) r else r) <$> df.
Proof.
  induction df as [|r df IH]; [done|].
  rewrite filter_cons. destruct (decide (mask r = true)) as [E|E].
  - rewrite !fmap_cons. cbn [write_back]. by rewrite E, IH.
  - apply not_true_is_false in E. rewrite fmap_cons. cbn [write_back].
    by rewrite E, IH.
Qed.

Lemma copy_rank_ranked df1 df cols r :
  copy_rank (rank_row df1 cols (mark_row df cols r)) r
  = rank_row df1 cols (mark_row df cols r).
Proof.
  unfold rank_row, mark_row, copy_rank.
  destruct (obsolete _); by destruct r.
Qed.

(** One block, row by row: the rows the mask selects are ranked among
    themselves, the others are left as they are. *)
Lemma rank_subset_rows (mask : row -> bool) cols df :
  cols <> [] ->
  let sub := filter (fun r => mask r = true) df in
  rank_subset mask cols df
  = Ok ((fun r => if mask r
                  then rank_row (mark_row sub cols <$> sub) cols (mark_row sub cols r)
                  else r) <$> df).
Proof.
  intros Hne sub. unfold rank_subset. subst sub.
  remember (filter (fun r => mask r = true) df) as sub eqn:Esub.
  destruct sub as [|r0 sub0].
  - f_equal. symmetry. rewrite <- (list_fmap_id df) at 2.
    apply list_fmap_ext. intros i r Hi. simpl.
    destruct (mask r) eqn:E; [|done].
    assert (r ∈ filter (fun r => mask r = true) df) as Hin.
    { apply list_elem_of_filter. split; [done|]. by eapply list_elem_of_lookup_2. }
    rewrite <- Esub in Hin. by apply elem_of_nil in Hin.
  - rewrite mark_obsolete_and_place_rows by done.
    cbn [mbind result_bind]. rewrite Esub. f_equal.
    rewrite <- list_fmap_compose.
    rewrite (write_back_fmap mask _ df).
    apply list_fmap_ext. intros i r _. simpl.
    destruct (mask r); [|done]. apply copy_rank_ranked.
Qed.

Lemma filter_fmap_if (mask : row -> bool) (h : row -> row) (b : bool) (df : list row) :
  (forall r, mask (h r) = mask r) ->
  filter (fun r => mask r = b) ((fun r => if mask r then h r else r) <$> df)
  = (fun r => if mask r then h r else r) <$> filter (fun r => mask r = b) df.
Proof.
  intros Hm. rewrite filter_fmap. f_equal. apply list_filter_iff. intros r. simpl.
  destruct (mask r) eqn:E; [by rewrite Hm, E|by rewrite E].
Qed.

Lemma level_notna_cell (h : row -> row) :
  (forall c r, cell c (h r) = cell c r) ->
  forall r, level_notna (h r) = level_notna r.
Proof.
  intros Hc r. unfold level_notna.
  change (level (h r)) with (cell col_level (h r)). by rewrite Hc.
Qed.

(** X7. The two ranking blocks of [process_runs] do not interfere: in
    the table it returns, the level runs carry the flags and places of
    the level runs ranked on their own by level, category and character,
    and the full-game runs those of the full-game runs ranked on their
    own by category and character. *)
Theorem rank_table_separate (df df' : list row) :
  rank_table df = Ok df' ->
  mark_obsolete_and_place (filter (fun r => level_notna r = true) df)
    [col_level; col_category; col_character]
  = Ok (filter (fun r => level_notna r = true) df')
  /\ mark_obsolete_and_place (filter (fun r => level_notna r = false) df)
       [col_category; col_character]
     = Ok (filter (fun r => level_notna r = false) df').
Proof.
  unfold rank_table. intros Hrun.
  rewrite (rank_subset_rows level_notna [col_level; col_category; col_character] df)
    in Hrun by done.
  cbv zeta in Hrun. cbn [mbind result_bind] in Hrun.
  set (sub1 := filter (fun r => level_notna r = true) df) in *.
  set (h1 := fun r => rank_row (mark_row sub1 [col_level; col_category; col_character] <$> sub1)
                        [col_level; col_category; col_character]
                        (mark_row sub1 [col_level; col_category; col_character] r)).
  set (dfa := (fun r => if level_notna r then h1 r else r) <$> df).
  change (rank_subset (fun r => negb (level_notna r))
            [col_category; col_character] dfa = Ok df') in Hrun.
  rewrite (rank_subset_rows (fun r => negb (level_notna r))
             [col_category; col_character] dfa) in Hrun by done.
  cbv zeta in Hrun.
  assert (Hh1 : forall r, level_notna (h1 r) = level_notna r).
  { apply level_notna_cell. intros c r. unfold h1. by autorewrite with row_fields. }
  assert (Hsub2 : filter (fun r => negb (level_notna r) = true) dfa
                  = filter (fun r => level_notna r = false) df).
  { unfold dfa. erewrite list_filter_iff.
    2:{ intros r. apply negb_true_iff. }
    rewrite (filter_fmap_if level_notna h1 false df Hh1).
    rewrite <- (list_fmap_id (filter _ df)) at 2.
    apply list_fmap_ext. intros i r Hi. simpl.
    apply list_elem_of_lookup_2, list_elem_of_filter in Hi as [E _]. by rewrite E. }
  rewrite Hsub2 in Hrun.
  set (sub2 := filter (fun r => level_notna r = false) df) in *.
  set (h2 := fun r => rank_row (mark_row sub2 [col_category; col_character] <$> sub2)
                        [col_category; col_character]
                        (mark_row sub2 [col_category; col_character] r)).
  set (g2 := fun r => if negb (level_notna r) then h2 r else r).
  change (Ok (g2 <$> dfa) = Ok df') in Hrun. injection Hrun as <-.
  assert (Hh2 : forall r, level_notna (h2 r) = level_notna r).
  { apply level_notna_cell. intros c r. unfold h2. by autorewrite with row_fields. }
  assert (Hg2 : forall r, level_notna (g2 r) = level_notna r).
  { intros r. unfold g2. destruct (level_notna r) eqn:E; simpl; [done|]. by rewrite Hh2. }
  assert (Hfilter : forall b,
            filter (fun r => level_notna r = b) (g2 <$> dfa)
            = g2 <$> ((fun r => if level_notna r then h1 r else r)
                        <$> filter (fun r => level_notna r = b) df)).
  { intros b. rewrite filter_fmap. f_equal.
    erewrite (list_filter_iff _ (fun r => level_notna r = b) dfa).
    2:{ intros r. simpl. by rewrite Hg2. }
    unfold dfa. apply (filter_fmap_if level_notna h1 b df Hh1). }
  split.
  - rewrite mark_obsolete_and_place_rows by done. fold sub1. f_equal.
    rewrite Hfilter. fold sub1. rewrite <- !list_fmap_compose.
    apply list_fmap_ext. intros i r Hi. simpl.
    apply list_elem_of_lookup_2, list_elem_of_filter in Hi as [E _].
    rewrite E. unfold g2. rewrite Hh1, E. done.
  - rewrite mark_obsolete_and_place_rows by done. fold sub2. f_equal.
    rewrite Hfilter. fold sub2. rewrite <- !list_fmap_compose.
    apply list_fmap_ext. intros i r Hi. simpl.
    apply list_elem_of_lookup_2, list_elem_of_filter in Hi as [E _].
    rewrite E. unfold g2. rewrite E. done.
Qed.

(** ** The further ranking properties on the sample tables *)

Lemma mark_obsolete_and_place_incomplete_witness :
  [col_category; col_character] <> []
  /\ [sample_row None 10] !! 0 = Some (sample_row None 10)
  /\ ~ complete [col_category; col_character] (sample_row None 10)
  /\ exists df',
       mark_obsolete_and_place [sample_row None 10]
         [col_category; col_character] = Ok df'
       /\ df' !! 0 = Some (set_obsolete true (sample_row None 10)).
Proof.
  assert (Hn : ~ complete [col_category; col_character] (sample_row None 10)).
  { intros (_ & [p Hp] & _). discriminate Hp. }
  split; [discriminate|]. split; [reflexivity|]. split; [exact Hn|].
  apply (mark_obsolete_and_place_incomplete [sample_row None 10]
           [col_category; col_character] 0 (sample_row None 10));
    [discriminate|reflexivity|exact Hn].
Defined.

Lemma ranked_board_run :
  mark_obsolete_and_place sample_board [col_category; col_character]
  = Ok ranked_board.
Proof. reflexivity. Defined.

Lemma ranked_board_elem i r : ranked_board !! i = Some r -> r ∈ ranked_board.
Proof. apply list_elem_of_lookup_2. Defined.

Lemma sample_same_group r1 r2 :
  category r1 = category r2 -> character r1 = character r2 ->
  same_group [col_category; col_character] r1 r2.
Proof. intros H1 H2. repeat constructor; assumption. Defined.

Lemma mark_obsolete_and_place_order_witness :
  let r1 := set_place (Some 1%Z) (sample_row (Some "P1") 10) in
  let r2 := set_place (Some 3%Z) (sample_row (Some "P3") 12) in
  [col_category; col_character] <> []
  /\ mark_obsolete_and_place sample_board [col_category; col_character]
     = Ok ranked_board
  /\ r1 ∈ ranked_board /\ r2 ∈ ranked_board
  /\ obsolete r1 = false /\ obsolete r2 = false
  /\ same_group [col_category; col_character] r1 r2
  /\ exists t1 t2 p1 p2,
       primary_t r1 = Some t1 /\ primary_t r2 = Some t2
       /\ place r1 = Some p1 /\ place r2 = Some p2
       /\ ((t1 < t2)%Q <-> (p1 < p2)%Z)
       /\ ((t1 == t2)%Q <-> p1 = p2).
Proof.
  intros r1 r2.
  assert (H1 : r1 ∈ ranked_board) by (apply (ranked_board_elem 0); reflexivity).
  assert (H2 : r2 ∈ ranked_board) by (apply (ranked_board_elem 2); reflexivity).
  assert (Hg : same_group [col_category; col_character] r1 r2)
    by (apply sample_same_group; reflexivity).
  split; [discriminate|]. split; [exact ranked_board_run|].
  split; [exact H1|]. split; [exact H2|]. split; [reflexivity|].
  split; [reflexivity|]. split; [exact Hg|].
  apply (mark_obsolete_and_place_order sample_board [col_category; col_character]
           ranked_board r1 r2);
    [discriminate|exact ranked_board_run|exact H1|exact H2|reflexivity
    |reflexivity|exact Hg].
Defined.

Lemma mark_obsolete_and_place_first_place_witness :
  let r' := set_place (Some 4%Z) (sample_row (Some "P4") 13) in
  [col_category; col_character] <> []
  /\ mark_obsolete_and_place sample_board [col_category; col_character]
     = Ok ranked_board
  /\ r' ∈ ranked_board /\ obsolete r' = false
  /\ exists r0 t0 t,
       r0 ∈ ranked_board /\ kept_in_group [col_category; col_character] r' r0
       /\ place r0 = Some 1%Z
       /\ primary_t r0 = Some t0 /\ primary_t r' = Some t /\ (t0 <= t)%Q.
Proof.
  intros r'.
  assert (H : r' ∈ ranked_board) by (apply (ranked_board_elem 3); reflexivity).
  split; [discriminate|]. split; [exact ranked_board_run|].
  split; [exact H|]. split; [reflexivity|].
  apply (mark_obsolete_and_place_first_place sample_board
           [col_category; col_character] ranked_board r');
    [discriminate|exact ranked_board_run|exact H|reflexivity].
Defined.

Lemma mark_obsolete_and_place_place_range_witness :
  let r' := set_place (Some 4%Z) (sample_row (Some "P4") 13) in
  [col_category; col_character] <> []
  /\ mark_obsolete_and_place sample_board [col_category; col_character]
     = Ok ranked_board
  /\ r' ∈ ranked_board /\ obsolete r' = false
  /\ exists p,
       place r' = Some p
       /\ (1 <= p <= Z.of_nat (length (filter
                                        (kept_in_group [col_category; col_character] r')
                                        ranked_board)))%Z.
Proof.
  intros r'.
  assert (H : r' ∈ ranked_board) by (apply (ranked_board_elem 3); reflexivity).
  split; [discriminate|]. split; [exact ranked_board_run|].
  split; [exact H|]. split; [reflexivity|].
  apply (mark_obsolete_and_place_place_range sample_board
           [col_category; col_character] ranked_board r');
    [discriminate|exact ranked_board_run|exact H|reflexivity].
Defined.

Lemma mark_obsolete_runs_keeps_a_best_witness :
  let r := sample_row (Some "P") (25 # 2) in
  r ∈ sample_table /\ complete [col_category; col_character] r
  /\ exists r0 t0 t,
       r0 ∈ sample_table /\ same_cohort [col_category; col_character] r r0
       /\ primary_t r0 = Some t0 /\ primary_t r = Some t /\ (t0 <= t)%Q
       /\ set_obsolete false r0
          ∈ _mark_obsolete_runs sample_table [col_category; col_character].
Proof.
  intros r.
  assert (H : r ∈ sample_table).
  { apply (list_elem_of_lookup_2 _ 2). reflexivity. }
  assert (Hc : complete [col_category; col_character] r) by solve_complete.
  split; [exact H|]. split; [exact Hc|].
  exact (mark_obsolete_runs_keeps_a_best sample_table
           [col_category; col_character] r H Hc).
Defined.

Lemma mark_obsolete_and_place_idempotent_witness :
  [col_category; col_character] <> []
  /\ mark_obsolete_and_place sample_board [col_category; col_character]
     = Ok ranked_board
  /\ mark_obsolete_and_place ranked_board [col_category; col_character]
     = Ok ranked_board.
Proof.
  split; [discriminate|]. split; [exact ranked_board_run|].
  apply (mark_obsolete_and_place_idempotent sample_board
           [col_category; col_character] ranked_board);
    [discriminate|exact ranked_board_run].
Defined.

Lemma ranked_mixed_frame_run : rank_table mixed_frame = Ok ranked_mixed_frame.
Proof. vm_compute. reflexivity. Defined.

Lemma rank_table_separate_witness :
  rank_table mixed_frame = Ok ranked_mixed_frame
  /\ mark_obsolete_and_place (filter (fun r => level_notna r = true) mixed_frame)
       [col_level; col_category; col_character]
     = Ok (filter (fun r => level_notna r = true) ranked_mixed_frame)
  /\ mark_obsolete_and_place (filter (fun r => level_notna r = false) mixed_frame)
       [col_category; col_character]
     = Ok (filter (fun r => level_notna r = false) ranked_mixed_frame).
Proof.
  split; [exact ranked_mixed_frame_run|].
  exact (rank_table_separate mixed_frame ranked_mixed_frame
           ranked_mixed_frame_run).
Defined.

(** The mixed table: the full-game runs are ranked among themselves
    (10 s is obsolete, 9 s is second to 8 s), and so are the runs of
    each level. *)
Example ranked_mixed_frame_ranks :
  ranks (rank_table mixed_frame)
  = Some [(true, None); (true, None); (false, Some 2%Z); (false, Some 2%Z);
          (false, Some 1%Z); (false, Some 1%Z); (false, Some 1%Z)].
Proof. vm_compute. reflexivity. Qed.

(** * From the verified runs to the rows of the table *)

Lemma str_cell_json v o : str_cell v = Some o -> v = str_json o.
Proof. destruct v; simpl; intros [= <-]; done. Qed.

Lemma float_cell_json v o : float_cell v = Some o -> v = num_json o.
Proof.
  destruct v; cbn [float_cell]; try done.
  - by intros [= <-].
  - destruct (_ && _); [|done]. by intros [= <-].
Qed.

Lemma bind_Ok {A B} (m : result A) (f : A -> result B) b :
  m ≫= f = Ok b -> exists a, m = Ok a /\ f a = Ok b.
Proof. destruct m as [a|e]; [|done]. intros H. by exists a. Qed.

(** One run, cleaned and put in the frame. *)
Lemma clean_run_row run c r :
  clean_run run = Ok c -> frame_row c = Some r -> row_of_run run r.
Proof.
  unfold clean_run. intros Hc Hr.
  apply bind_Ok in Hc as (players & Hplayers & Hc).
  apply bind_Ok in Hc as (player_id & Hplayer & Hc).
  apply bind_Ok in Hc as (id & Hid & Hc).
  apply bind_Ok in Hc as (weblink & Hweblink & Hc).
  apply bind_Ok in Hc as (category & Hcategory & Hc).
  apply bind_Ok in Hc as (level & Hlevel & Hc).
  apply bind_Ok in Hc as (date & Hdate & Hc).
  apply bind_Ok in Hc as (times & Htimes & Hc).
  apply bind_Ok in Hc as (primary_t & Hprimary & Hc).
  apply bind_Ok in Hc as (values & Hvalues & Hc).
  apply bind_Ok in Hc as (note & Hnote & Hc).
  apply bind_Ok in Hc as (character & Hcharacter & Hc).
  apply bind_Ok in Hc as (submitted & Hsubmitted & Hc).
  injection Hc as <-.
  unfold frame_row in Hr. cbn [c_id c_weblink c_category c_level c_player_id
    c_date c_primary_t c_note c_character c_submitted] in Hr.
  destruct (str_cell id) as [id'|] eqn:E1; [|done].
  destruct (str_cell weblink) as [weblink'|] eqn:E2; [|done].
  destruct (str_cell category) as [category'|] eqn:E3; [|done].
  destruct (str_cell level) as [level'|] eqn:E4; [|done].
  destruct (str_cell player_id) as [player_id'|] eqn:E5; [|done].
  destruct (str_cell date) as [date'|] eqn:E6; [|done].
  destruct (float_cell primary_t) as [primary_t'|] eqn:E7; [|done].
  destruct (str_cell note) as [note'|] eqn:E8; [|done].
  destruct (str_cell character) as [character'|] eqn:E9; [|done].
  destruct (str_cell submitted) as [submitted'|] eqn:E10; [|done].
  injection Hr as <-.
  apply str_cell_json in E1, E2, E3, E4, E5, E6, E8, E9, E10.
  apply float_cell_json in E7. subst.
  unfold row_of_run, first_player_id, py_getitem2. simpl.
  rewrite Hplayers. cbn [mbind result_bind]. rewrite Hplayer, Htimes, Hvalues.
  cbn [mbind result_bind]. done.
Qed.

Lemma clean_runs_rows runs :
  forall cs, clean_runs runs = Ok cs ->
  Forall2 (fun run c => clean_run run = Ok c) runs cs.
Proof.
  induction runs as [|run runs IH]; intros cs; simpl.
  - intros [= <-]. constructor.
  - intros H. apply bind_Ok in H as (c & Hc & H).
    apply bind_Ok in H as (cs' & Hcs & H). injection H as <-.
    constructor; [done|by apply IH].
Qed.

(** The ranking section keeps every row where it is and changes
    nothing but its flag and its place. *)
Lemma rank_table_rows df df' :
  rank_table df = Ok df' ->
  exists f : row -> row,
    df' = f <$> df
    /\ (forall c r, cell c (f r) = cell c r)
    /\ (forall r, primary_t (f r) = primary_t r).
Proof.
  unfold rank_table. intros Hrun.
  rewrite (rank_subset_rows level_notna [col_level; col_category; col_character] df)
    in Hrun by done.
  cbv zeta in Hrun. cbn [mbind result_bind] in Hrun.
  rewrite rank_subset_rows in Hrun by done. cbv zeta in Hrun.
  injection Hrun as <-. rewrite <- list_fmap_compose.
  eexists. split; [reflexivity|]. split.
  - intros c r. simpl.
    destruct (level_notna r) eqn:E; simpl;
      repeat (match goal with |- context [if ?b then _ else _] => destruct b end);
      by autorewrite with row_fields.
  - intros r. simpl.
    destruct (level_notna r) eqn:E; simpl;
      repeat (match goal with |- context [if ?b then _ else _] => destruct b end);
      by autorewrite with row_fields.
Qed.

Lemma row_of_run_ext run r r' :
  (forall c, cell c r' = cell c r) -> primary_t r' = primary_t r ->
  row_of_run run r -> row_of_run run r'.
Proof.
  intros Hc Ht. unfold row_of_run. rewrite Ht.
  pose proof (Hc col_id) as H1. pose proof (Hc col_weblink) as H2.
  pose proof (Hc col_category) as H3. pose proof (Hc col_level) as H4.
  pose proof (Hc col_player_id) as H5. pose proof (Hc col_date) as H6.
  pose proof (Hc col_note) as H7. pose proof (Hc col_character) as H8.
  pose proof (Hc col_submitted) as H9. simpl in *.
  by rewrite H1, H2, H3, H4, H5, H6, H7, H8, H9.
Qed.

(** The durations of the frame are values of floats. *)
Lemma frame_row_float c r t :
  frame_row c = Some r -> primary_t r = Some t -> is_float t = true.
Proof.
  unfold frame_row. intros Hr.
  destruct (str_cell (c_id c)); [|done].
  destruct (str_cell (c_weblink c)); [|done].
  destruct (str_cell (c_category c)); [|done].
  destruct (str_cell (c_level c)); [|done].
  destruct (str_cell (c_player_id c)); [|done].
  destruct (str_cell (c_date c)); [|done].
  destruct (float_cell (c_primary_t c)) as [cell_t|] eqn:E; [|done].
  destruct (str_cell (c_note c)); [|done].
  destruct (str_cell (c_character c)); [|done].
  destruct (str_cell (c_submitted c)); [|done].
  cbn [mbind option_bind] in Hr. injection Hr as <-. cbn [primary_t].
  intros ->. destruct (c_primary_t c); try done. cbn [float_cell] in E.
  destruct (is_float q) eqn:Hq; [|done]. cbn [andb] in E.
  destruct (_ && _); [|done]. by injection E as <-.
Qed.

(** X8. One row per verified run. When [process_runs] builds its ranked
    table (from runs whose durations are numbers that a column of
    floats and a column of 64-bit integers hold alike, or [None]), the
    table has as many rows as there are verified runs, and the row at
    each position carries the id, link, category, level, first player,
    date, duration, note, character and submission time of the run at
    that position: the ranking drops, adds and reorders nothing, and
    every duration of the table is the value of a float. *)
Theorem process_runs_rows (verified_runs : list json) (df' : list row) :
  process_runs verified_runs = Some (Ok df') ->
  Forall2 row_of_run verified_runs df'
  /\ Forall (fun r => forall t, primary_t r = Some t -> is_float t = true) df'.
Proof.
  unfold process_runs.
  destruct (clean_runs verified_runs) as [cs|] eqn:Hclean; [|done].
  apply clean_runs_rows in Hclean.
  destruct (DataFrame cs) as [df|] eqn:Hframe; [|done]. simpl.
  unfold DataFrame in Hframe. apply mapM_Some in Hframe.
  intros [= Hrank]. apply rank_table_rows in Hrank as (f & -> & Hc & Ht).
  split.
  - apply Forall2_fmap_r.
    assert (Hrows : Forall2 row_of_run verified_runs df).
    { clear -Hclean Hframe. revert df Hframe.
      induction Hclean as [|run c runs cs Hrun _ IH]; intros df Hframe.
      - inversion Hframe. constructor.
      - inversion Hframe as [|? r ? df0 Hr Hrest]; subst. constructor.
        + by eapply clean_run_row.
        + by apply IH. }
    eapply Forall2_impl; [exact Hrows|].
    intros run r Hr. by apply (row_of_run_ext run r).
  - apply Forall_fmap. clear -Hframe Ht.
    induction Hframe as [|c r cs df Hr _ IH]; constructor; [|exact IH].
    intros t. simpl. rewrite Ht. by apply (frame_row_float c).
Qed.

Lemma process_runs_rows_witness :
  process_runs sample_runs = Some (Ok ranked_sample_frame)
  /\ Forall2 row_of_run sample_runs ranked_sample_frame
  /\ Forall (fun r => forall t, primary_t r = Some t -> is_float t = true)
       ranked_sample_frame.
Proof.
  assert (H : process_runs sample_runs = Some (Ok ranked_sample_frame))
    by (vm_compute; reflexivity).
  split; [exact H|].
  exact (process_runs_rows sample_runs ranked_sample_frame H).
Defined.

(** A duration of [2 ** 53 + 1] seconds is no value of a float: a
    column of floats would round it, and the table is not covered. *)
Example process_runs_not_covered :
  process_runs [raw_run "r1" "A" [user "p1"] (inject_Z (2 ^ 53 + 1)) "verified"]
  = None.
Proof. vm_compute. reflexivity. Qed.

(** * Further properties of the fetch client *)

Section RetryRuns.
Context (url : string) (cache_file : option string) (timeout : Z)
  (b : spec_float).

(** A failed attempt whose delay [time.sleep] takes. *)
Lemma try_attempt_failed a w e q :
  outcome (net w (length (requests w)) url) = inl e ->
  slept_after b a e w (length (requests w)) = Ok q ->
  try_attempt url cache_file timeout b a w
  = (Retry e, log_sleep q (log_request url w)).
Proof.
  unfold try_attempt, requests_get, slept_after. intros -> H.
  destruct (retry_delay b a e) as [secs|ex]; cbn [mbind result_bind] in H;
    [|done].
  rewrite sleep_trace. cbn [requests log_request sleep_refused].
  rewrite length_snoc.
  destruct (sleep_check _ secs) as [[]|ex]; cbn [mbind result_bind] in H;
    [|done].
  by injection H as <-.
Qed.

(** A failed attempt whose delay [time.sleep] refuses, or cannot be
    computed. *)
Lemma try_attempt_refused a w e ex :
  outcome (net w (length (requests w)) url) = inl e ->
  slept_after b a e w (length (requests w)) = Raise ex ->
  try_attempt url cache_file timeout b a w = (Escaped ex, log_request url w).
Proof.
  unfold try_attempt, requests_get, slept_after. intros -> H.
  destruct (retry_delay b a e) as [secs|ex']; cbn [mbind result_bind] in H.
  - rewrite sleep_trace. cbn [requests log_request sleep_refused].
    rewrite length_snoc.
    destruct (sleep_check _ secs) as [[]|ex']; cbn [mbind result_bind] in H;
      [done|].
    by injection H as <-.
  - by injection H as <-.
Qed.

(** [k] failed attempts in a row: the loop goes on with the attempts
    that are left, [k] requests and [k] sleeps later, the disk as it
    was. *)
Lemma retry_loop_failed k :
  forall a rest last w,
    attempts_fail url b a k w ->
    exists w1 last1 sl,
      retry_loop url cache_file timeout b (seq a k ++ rest) last w
      = retry_loop url cache_file timeout b rest last1 w1
      /\ net w1 = net w /\ denied w1 = denied w
      /\ sleep_refused w1 = sleep_refused w /\ files w1 = files w
      /\ requests w1 = requests w ++ replicate k url
      /\ slept w1 = slept w ++ sl /\ length sl = k
      /\ (k = 0 -> last1 = last)
      /\ (forall e, 0 < k ->
            outcome (net w (length (requests w) + (k - 1)) url) = inl e ->
            last1 = Some e).
Proof.
  induction k as [|k IH]; intros a rest last w Hfail.
  - exists w, last, []. rewrite !app_nil_r. repeat split; try done. lia.
  - destruct (Hfail 0) as (e0 & q0 & He0 & Hq0); [lia|].
    rewrite Nat.add_0_r in He0. rewrite !Nat.add_0_r in Hq0.
    pose proof (try_attempt_failed a w e0 q0 He0 Hq0) as Ht.
    set (w0 := log_sleep q0 (log_request url w)) in *.
    destruct (IH (S a) rest (Some e0) w0) as (w1 & last1 & sl & Hrun & Hnet & Hden
              & Hclock & Hfiles & Hreq & Hsl & Hlen & Hlast0 & Hlast).
    { intros i Hi. destruct (Hfail (S i)) as (e & q & He & Hq); [lia|].
      exists e, q. unfold w0. cbn [requests log_sleep log_request net].
      rewrite length_snoc.
      replace (S (length (requests w)) + i) with (length (requests w) + S i)
        by lia.
      replace (S a + i) with (a + S i) by lia. done. }
    exists w1, last1, (q0 :: sl).
    split.
    { cbn [seq app retry_loop]. rewrite Ht. exact Hrun. }
    split; [done|]. split; [done|]. split; [done|]. split; [done|].
    split.
    { rewrite Hreq. unfold w0. simpl. by rewrite <- app_assoc. }
    split.
    { rewrite Hsl. unfold w0. simpl. by rewrite <- app_assoc. }
    split; [simpl; lia|]. split; [lia|].
    intros e _ He. destruct (decide (k = 0)) as [->|Hk].
    + simpl in He. rewrite Nat.add_0_r in He. rewrite He0 in He.
      injection He as <-. by apply Hlast0.
    + apply Hlast; [lia|].
      assert (length (requests w0) + (k - 1) = length (requests w) + (S k - 1)) as ->.
      { unfold w0. simpl. rewrite length_app. simpl. lia. }
      exact He.
Qed.

End RetryRuns.

Lemma seq_split_at k m : k <= m -> seq 0 (m + 1) = seq 0 k ++ k :: seq (S k) (m - k).
Proof.
  intros Hk. replace (m + 1) with (k + S (m - k)) by lia.
  rewrite seq_app. done.
Qed.

(** X9. The docstring's return value. When the first [k] attempts fail,
    each with a delay that [time.sleep] takes, and attempt [k], one of
    the [max_retries + 1], gets a JSON object,
    [fetch_api_cached] returns the object's ["data"] field if it has
    one and the whole object otherwise, after [k + 1] requests and [k]
    sleeps; the cache file, if one is named and the data is not [None],
    then holds that data unless the write is refused. *)
Theorem fetch_api_cached_first_success
    (url : string) (cache_file : option string) (timeout : option Z)
    (max_retries : nat) (backoff_sec : spec_float) (w : world)
    (k : nat) (fields : list (string * json)) :
  k <= max_retries ->
  attempts_fail url backoff_sec 0 k w ->
  outcome (net w (length (requests w) + k) url) = inr (JObj fields) ->
  let data := default (JObj fields) (dict_get "data" fields) in
  exists w' sl,
    fetch_api_cached url cache_file timeout max_retries backoff_sec w
    = (Ok data, w')
    /\ requests w' = requests w ++ replicate (S k) url
    /\ slept w' = slept w ++ sl /\ length sl = k
    /\ files w' = cache_after cache_file data w.
Proof.
  intros Hk Hfail Hok data. unfold fetch_api_cached.
  fold (api_timeout timeout). rewrite (seq_split_at k max_retries Hk).
  destruct (retry_loop_failed url cache_file (api_timeout timeout) backoff_sec k 0
              (k :: seq (S k) (max_retries - k)) None w Hfail)
    as (w1 & last1 & sl & -> & Hnet & Hden & Hclock & Hfiles & Hreq & Hsl & Hlen & _).
  cbn [retry_loop]. unfold try_attempt, requests_get.
  rewrite Hnet, Hreq, length_app, length_replicate, Hok. fold data.
  clearbody data.
  eexists _, sl. split; [reflexivity|].
  split.
  { transitivity (requests w1 ++ [url]).
    - destruct cache_file as [path|]; [|done].
      destruct data; try done; unfold write_json; simpl; by destruct (denied w1 path).
    - rewrite Hreq, <- app_assoc. f_equal. clear.
      induction k as [|k IH]; [reflexivity|]. simpl. f_equal. exact IH. }
  split.
  { rewrite <- Hsl.
    destruct cache_file as [path|]; [|done].
    destruct data; try done; unfold write_json; simpl; by destruct (denied w1 path). }
  split; [exact Hlen|].
  unfold cache_after. destruct cache_file as [path|]; [|exact Hfiles].
  destruct data; try exact Hfiles; unfold write_json; simpl; rewrite Hden;
    destruct (denied w path); simpl; by rewrite ?Hfiles.
Qed.


(** X11. A reply whose body is JSON but not an object ends the call at
    once, be it the reply to the first attempt or to one that follows
    [k] failed attempts whose delays [time.sleep] took: the
    [AttributeError] of [payload.get] is not a [RequestException], so
    there is no further attempt, no sleep for this attempt, no cache
    write and no cache fallback. *)
Theorem fetch_api_cached_payload_not_object
    (url : string) (cache_file : option string) (timeout : option Z)
    (max_retries : nat) (backoff_sec : spec_float) (w : world)
    (k : nat) (payload : json) :
  k <= max_retries ->
  attempts_fail url backoff_sec 0 k w ->
  outcome (net w (length (requests w) + k) url) = inr payload ->
  (forall fields, payload <> JObj fields) ->
  exists w' sl,
    fetch_api_cached url cache_file timeout max_retries backoff_sec w
    = (Raise (AttributeError "object has no attribute 'get'"), w')
    /\ requests w' = requests w ++ replicate (S k) url
    /\ slept w' = slept w ++ sl /\ length sl = k
    /\ files w' = files w.
Proof.
  intros Hk Hfail Hok Hno. unfold fetch_api_cached.
  fold (api_timeout timeout). rewrite (seq_split_at k max_retries Hk).
  destruct (retry_loop_failed url cache_file (api_timeout timeout) backoff_sec k 0
              (k :: seq (S k) (max_retries - k)) None w Hfail)
    as (w1 & last1 & sl & -> & Hnet & Hden & Hclock & Hfiles & Hreq & Hsl & Hlen & _).
  cbn [retry_loop]. unfold try_attempt, requests_get.
  rewrite Hnet, Hreq, length_app, length_replicate, Hok.
  exists (log_request url w1), sl.
  split; [destruct payload; try done; by destruct (Hno fields)|].
  split.
  { simpl. rewrite Hreq, <- app_assoc. f_equal. clear.
    induction k as [|k IH]; [reflexivity|]. simpl. f_equal. exact IH. }
  done.
Qed.

(** X12. A delay [time.sleep] refuses ends the call at once. When the
    exception of a failed attempt is followed by a delay that
    [time.sleep] refuses (a negative one with [ValueError], one beyond
    the 64-bit count of nanoseconds with [OverflowError], one too long
    for the platform with [OSError]), or by a product that cannot be
    computed, that exception leaves [fetch_api_cached]: no further
    attempt and no cache fallback. *)
Theorem fetch_api_cached_refused_delay
    (url : string) (cache_file : option string) (timeout : option Z)
    (max_retries : nat) (backoff_sec : spec_float) (w : world)
    (k : nat) (e : request_exception) (ex : exn) :
  k <= max_retries ->
  attempts_fail url backoff_sec 0 k w ->
  outcome (net w (length (requests w) + k) url) = inl e ->
  slept_after backoff_sec k e w (length (requests w) + k) = Raise ex ->
  exists w' sl,
    fetch_api_cached url cache_file timeout max_retries backoff_sec w
    = (Raise ex, w')
    /\ requests w' = requests w ++ replicate (S k) url
    /\ slept w' = slept w ++ sl /\ length sl = k
    /\ files w' = files w.
Proof.
  intros Hk Hfail He Hrefused. unfold fetch_api_cached.
  fold (api_timeout timeout). rewrite (seq_split_at k max_retries Hk).
  destruct (retry_loop_failed url cache_file (api_timeout timeout) backoff_sec k 0
              (k :: seq (S k) (max_retries - k)) None w Hfail)
    as (w1 & last1 & sl & -> & Hnet & Hden & Hclock & Hfiles & Hreq & Hsl & Hlen & _).
  cbn [retry_loop].
  rewrite (try_attempt_refused url cache_file (api_timeout timeout) backoff_sec
             k w1 e ex).
  - exists (log_request url w1), sl.
    split; [done|].
    split.
    { simpl. rewrite Hreq, <- app_assoc. f_equal. clear.
      induction k as [|k IH]; [reflexivity|]. simpl. f_equal. exact IH. }
    done.
  - by rewrite Hnet, Hreq, length_app, length_replicate.
  - unfold slept_after in *.
    by rewrite Hclock, Hreq, length_app, length_replicate.
Qed.

(** After a call with a cache file that returned data other than
    [None], the cache file holds that data, unless the write was
    refused. *)
Lemma fetch_api_cached_cached url path timeout max_retries b w data w1 :
  fetch_api_cached url (Some path) timeout max_retries b w = (Ok data, w1) ->
  denied w path = false -> data <> JNull ->
  files w1 !! path = Some (Content data).
Proof.
  unfold fetch_api_cached. fold (api_timeout timeout).
  generalize (seq 0 (max_retries + 1)) (@None request_exception).
  intros attempts. revert w.
  induction attempts as [|a attempts IH]; intros w last Hrun Hden Hnn.
  - cbn [retry_loop] in Hrun.
    destruct (files w !! path) as [[j|]|] eqn:E; try done.
    by injection Hrun as <- <-.
  - cbn [retry_loop] in Hrun.
    destruct (try_attempt url (Some path) (api_timeout timeout) b a w)
      as [fin w0] eqn:Et.
    pose proof Et as Htr. apply try_attempt_trace in Htr as (_ & Hden0 & _).
    destruct fin as [d|ex|e].
    + injection Hrun as <- <-.
      unfold try_attempt, requests_get in Et.
      destruct (outcome _) as [e|payload].
      { destruct (retry_delay _ _ _); [|done].
        destruct (sleep _ _) as [[] ?]; done. }
      destruct payload; try done. injection Et as <- <-.
      destruct (default _ _); try done; unfold write_json; simpl;
        rewrite Hden; simpl; by rewrite lookup_insert_eq.
    + done.
    + apply (IH w0 (Some e)); [exact Hrun| |done]. by rewrite Hden0.
Qed.

(** X13. The cache round trip. Data other than [None] that a call with a
    cache file returned is what a later call for the same file returns
    when all its attempts fail, each with a delay that [time.sleep]
    takes, provided the file was not changed in between and the first
    call's write was not refused. *)
Theorem fetch_api_cached_cache_round_trip
    (url path : string) (timeout : option Z) (max_retries : nat)
    (backoff_sec : spec_float) (w w1 : world) (data : json)
    (url' : string) (timeout' : option Z) (max_retries' : nat)
    (backoff_sec' : spec_float) (w2 : world) :
  fetch_api_cached url (Some path) timeout max_retries backoff_sec w
  = (Ok data, w1) ->
  denied w path = false -> data <> JNull ->
  files w2 !! path = files w1 !! path ->
  attempts_fail url' backoff_sec' 0 (max_retries' + 1) w2 ->
  fst (fetch_api_cached url' (Some path) timeout' max_retries' backoff_sec' w2)
  = Ok data.
Proof.
  intros Hrun Hden Hnn Hsame Hfail.
  pose proof (fetch_api_cached_cached _ _ _ _ _ _ _ _ Hrun Hden Hnn) as Hfile.
  unfold fetch_api_cached. fold (api_timeout timeout').
  destruct (retry_loop_failed url' (Some path) (api_timeout timeout') backoff_sec'
              (max_retries' + 1) 0 [] None w2 Hfail)
    as (w3 & last1 & sl & Hloop & _ & _ & _ & Hfiles & _).
  rewrite app_nil_r in Hloop. rewrite Hloop. cbn [retry_loop].
  by rewrite Hfiles, Hsame, Hfile.
Qed.
(** ** The further fetch properties on the sample servers *)

Lemma rate_limited_once_fails_once :
  attempts_fail games_api BACKOFF_SEC 0 1 rate_limited_once.
Proof.
  intros [|i] Hi; [|lia].
  exists (HTTPError 429 (Some "3")), 3%Q. split; reflexivity.
Defined.

Lemma fetch_api_cached_first_success_witness :
  let fields := [("data", JArr [JStr "payload"])] in
  1 <= 2
  /\ attempts_fail games_api BACKOFF_SEC 0 1 rate_limited_once
  /\ outcome (net rate_limited_once (length (requests rate_limited_once) + 1)
                games_api) = inr (JObj fields)
  /\ exists w' sl,
       fetch_api_cached games_api (Some games_cache) None 2 BACKOFF_SEC
         rate_limited_once
       = (Ok (JArr [JStr "payload"]), w')
       /\ requests w' = requests rate_limited_once ++ replicate 2 games_api
       /\ slept w' = slept rate_limited_once ++ sl /\ length sl = 1
       /\ files w'
          = cache_after (Some games_cache) (JArr [JStr "payload"]) rate_limited_once.
Proof.
  intros fields. split; [lia|]. split; [exact rate_limited_once_fails_once|].
  split; [reflexivity|].
  apply (fetch_api_cached_first_success games_api (Some games_cache) None 2
           BACKOFF_SEC rate_limited_once 1 fields);
    [lia|exact rate_limited_once_fails_once|reflexivity].
Defined.

(** Offline, the first three attempts with the default back-off fail
    and are followed by sleeps of 2, 4 and 6 seconds. *)
Lemma offline_attempts_fail url fs :
  attempts_fail url BACKOFF_SEC 0 3 (offline fs).
Proof.
  intros i Hi. exists NoResponse, (inject_Z (2 * Z.of_nat (i + 1))).
  split; [reflexivity|].
  destruct i as [|[|[|i]]]; [..|lia]; reflexivity.
Defined.


(** Offline and without a cache the call raises, after three requests. *)
Example offline_exhausted :
  fst (fetch_api_cached games_api (Some games_cache) None MAX_RETRIES
         BACKOFF_SEC (offline ∅))
  = Raise (RuntimeError ("Failed to fetch " +:+ games_api) (Some NoResponse)).
Proof. vm_compute. reflexivity. Qed.

Lemma no_attempt_fails url b w : attempts_fail url b 0 0 w.
Proof. intros i Hi. lia. Defined.

Lemma fetch_api_cached_payload_not_object_witness :
  0 <= 2
  /\ attempts_fail games_api BACKOFF_SEC 0 0 list_payload
  /\ outcome (net list_payload (length (requests list_payload) + 0) games_api)
     = inr (JArr [JNum 1; JNum 2])
  /\ (forall fields, JArr [JNum 1; JNum 2] <> JObj fields)
  /\ exists w' sl,
       fetch_api_cached games_api (Some games_cache) None 2 BACKOFF_SEC
         list_payload
       = (Raise (AttributeError "object has no attribute 'get'"), w')
       /\ requests w' = requests list_payload ++ replicate 1 games_api
       /\ slept w' = slept list_payload ++ sl /\ length sl = 0
       /\ files w' = files list_payload.
Proof.
  split; [lia|]. split; [apply no_attempt_fails|]. split; [reflexivity|].
  split; [discriminate|].
  apply (fetch_api_cached_payload_not_object games_api (Some games_cache) None 2
           BACKOFF_SEC list_payload 0 (JArr [JNum 1; JNum 2]));
    [lia|apply no_attempt_fails|reflexivity|discriminate].
Defined.

Lemma fetch_api_cached_refused_delay_witness :
  let e := HTTPError 429 (Some "-1") in
  let ex := ValueError "sleep length must be non-negative" in
  0 <= 2
  /\ attempts_fail games_api BACKOFF_SEC 0 0 negative_retry_after
  /\ outcome (net negative_retry_after
                (length (requests negative_retry_after) + 0) games_api) = inl e
  /\ slept_after BACKOFF_SEC 0 e negative_retry_after
       (length (requests negative_retry_after) + 0) = Raise ex
  /\ exists w' sl,
       fetch_api_cached games_api (Some games_cache) None 2 BACKOFF_SEC
         negative_retry_after
       = (Raise ex, w')
       /\ requests w' = requests negative_retry_after ++ replicate 1 games_api
       /\ slept w' = slept negative_retry_after ++ sl /\ length sl = 0
       /\ files w' = files negative_retry_after.
Proof.
  intros e ex. split; [lia|]. split; [apply no_attempt_fails|].
  split; [reflexivity|]. split; [reflexivity|].
  apply (fetch_api_cached_refused_delay games_api (Some games_cache) None 2
           BACKOFF_SEC negative_retry_after 0 e ex);
    [lia|apply no_attempt_fails|reflexivity|reflexivity].
Defined.

(** A Retry-After beyond what [time.sleep] can count, on either side of
    0, ends the call with [OverflowError] after one request. *)
Example retry_after_too_large :
  summary (fetch_api_cached games_api None None MAX_RETRIES BACKOFF_SEC
             (rate_limited "99999999999"))
  = (Raise timestamp_too_large, 1, [])
  /\ summary (fetch_api_cached games_api None None MAX_RETRIES BACKOFF_SEC
                (rate_limited "-99999999999"))
     = (Raise timestamp_too_large, 1, []).
Proof. split; vm_compute; reflexivity. Qed.

(** A Retry-After of a no-break space and a 5 is read as 5: three
    requests, each followed by a sleep of 5 seconds. *)
Example retry_after_no_break_space :
  summary (fetch_api_cached games_api None None MAX_RETRIES BACKOFF_SEC
             (rate_limited (String (ascii_of_nat 160) "5")))
  = (Raise (RuntimeError ("Failed to fetch " +:+ games_api)
              (Some (HTTPError 429 (Some (String (ascii_of_nat 160) "5"))))),
     3, [5; 5; 5]%Q).
Proof. vm_compute. reflexivity. Qed.

Lemma fetch_api_cached_cache_round_trip_witness :
  let run := fetch_api_cached games_api (Some games_cache) None 2 BACKOFF_SEC
               rate_limited_once in
  let data := JArr [JStr "payload"] in
  let w2 := offline (files (snd run)) in
  run = (Ok data, snd run)
  /\ denied rate_limited_once games_cache = false
  /\ data <> JNull
  /\ files w2 !! games_cache = files (snd run) !! games_cache
  /\ attempts_fail games_api BACKOFF_SEC 0 (2 + 1) w2
  /\ fst (fetch_api_cached games_api (Some games_cache) None 2 BACKOFF_SEC w2)
     = Ok data.
Proof.
  intros run data w2.
  assert (Hrun : run = (Ok data, snd run)) by (vm_compute; reflexivity).
  split; [exact Hrun|]. split; [reflexivity|]. split; [discriminate|].
  split; [reflexivity|]. split; [apply offline_attempts_fail|].
  apply (fetch_api_cached_cache_round_trip games_api games_cache None 2
           BACKOFF_SEC rate_limited_once (snd run) data games_api None 2
           BACKOFF_SEC w2);
    [exact Hrun|reflexivity|discriminate|reflexivity|apply offline_attempts_fail].
Defined.

(** * Further properties of the paging client *)

(** A request that is answered with a JSON object at once. *)
Lemma fetch_api_cached_served url cache_file timeout max_retries b w data :
  serves w (length (requests w)) url data ->
  exists w',
    fetch_api_cached url cache_file timeout max_retries b w = (Ok data, w')
    /\ net w' = net w /\ requests w' = requests w ++ [url].
Proof.
  intros (fields & Hok & Hdata). unfold fetch_api_cached.
  replace (max_retries + 1) with (S max_retries) by lia.
  cbn [seq retry_loop]. unfold try_attempt, requests_get. rewrite Hok, Hdata.
  eexists. split; [reflexivity|].
  destruct cache_file as [path|]; [|done].
  destruct data; try done; unfold write_json; simpl;
    by destruct (denied w path).
Qed.

Lemma get_runs_served self game_id offset page_size cache_file w data :
  serves w (length (requests w))
    (runs_url self game_id (asked_max self page_size) offset) data ->
  exists w',
    get_runs self game_id offset page_size cache_file w = (Ok data, w')
    /\ net w' = net w
    /\ requests w'
       = requests w ++ [runs_url self game_id (asked_max self page_size) offset].
Proof. intros H. unfold get_runs. by apply fetch_api_cached_served. Qed.

Lemma page_urls_cons self game_id page_size offset n :
  page_urls self game_id page_size offset (S n)
  = runs_url self game_id (asked_max self page_size) offset
    :: page_urls self game_id page_size (offset + offset_step self page_size) n.
Proof.
  unfold page_urls. cbn [seq fmap list_fmap]. f_equal.
  - f_equal. lia.
  - rewrite <- seq_shift, <- list_fmap_compose. apply list_fmap_ext.
    intros i j _. simpl. f_equal. lia.
Qed.

Section Paging.
Context (self : ApiClient) (game_id : string) (cache_file : option string)
  (page_size : option nat).

(** The loop over pages that are all served and not empty, up to a page
    with nothing in it. *)
Lemma get_all_runs_loop_to_the_end max_pages pages :
  forall fuel offset all_runs fetched w last,
    length pages < fuel ->
    (forall mp, max_pages = Some mp -> fetched + length pages < mp) ->
    (forall i page, pages !! i = Some page ->
       page <> []
       /\ serves w (length (requests w) + i)
            (runs_url self game_id (asked_max self page_size)
               (offset + i * offset_step self page_size)) (JArr page)) ->
    serves w (length (requests w) + length pages)
      (runs_url self game_id (asked_max self page_size)
         (offset + length pages * offset_step self page_size)) last ->
    truthy last = false ->
    exists w',
      get_all_runs_loop fuel self game_id cache_file max_pages page_size
        offset all_runs fetched w
      = Some (Ok (all_runs ++ concat pages), w')
      /\ requests w'
         = requests w ++ page_urls self game_id page_size offset (S (length pages)).
Proof.
  induction pages as [|page pages IH];
    intros fuel offset all_runs fetched w last Hfuel Hmax Hpages Hlast Hfalsy.
  - destruct fuel as [|fuel]; [simpl in Hfuel; lia|].
    simpl in Hlast. rewrite !Nat.add_0_r in Hlast.
    destruct (get_runs_served self game_id offset page_size cache_file w last Hlast)
      as (w1 & Hrun & Hnet & Hreq).
    exists w1. cbn [get_all_runs_loop]. rewrite Hrun, Hfalsy. simpl.
    rewrite app_nil_r. split; [done|].
    rewrite Hreq. unfold page_urls. simpl. by rewrite Nat.add_0_r.
  - destruct fuel as [|fuel]; [simpl in Hfuel; lia|].
    destruct (Hpages 0 page eq_refl) as [Hne H0].
    simpl in H0. rewrite !Nat.add_0_r in H0.
    destruct (get_runs_served self game_id offset page_size cache_file w _ H0)
      as (w1 & Hrun & Hnet & Hreq).
    cbn [get_all_runs_loop]. rewrite Hrun.
    assert (truthy (JArr page) = true) as -> by (by destruct page).
    cbn [negb py_iter].
    assert (match max_pages with
            | Some mp => (mp <=? fetched + 1)%nat
            | None => false
            end = false) as ->.
    { destruct max_pages as [mp|]; [|done]. apply Nat.leb_gt.
      specialize (Hmax mp eq_refl). simpl in Hmax. lia. }
    destruct (IH fuel (offset + offset_step self page_size) (all_runs ++ page)
                (fetched + 1) w1 last) as (w' & Hloop & Hreq').
    + simpl in Hfuel. lia.
    + intros mp Hmp. specialize (Hmax mp Hmp). simpl in Hmax. lia.
    + intros i p Hi. destruct (Hpages (S i) p Hi) as [Hp Hs]. split; [done|].
      unfold serves in *. rewrite Hnet, Hreq, length_app. simpl.
      replace (length (requests w) + 1 + i) with (length (requests w) + S i) by lia.
      replace (offset + offset_step self page_size + i * offset_step self page_size)
        with (offset + S i * offset_step self page_size) by lia.
      exact Hs.
    + unfold serves in *. rewrite Hnet, Hreq, length_app. simpl.
      replace (length (requests w) + 1 + length pages)
        with (length (requests w) + length (page :: pages)) by (simpl; lia).
      replace (offset + offset_step self page_size
               + length pages * offset_step self page_size)
        with (offset + length (page :: pages) * offset_step self page_size)
        by (simpl; lia).
      exact Hlast.
    + exact Hfalsy.
    + exists w'. unfold offset_step in Hloop |- *. rewrite Hloop.
      split; [by rewrite <- app_assoc|].
      rewrite Hreq', Hreq, <- app_assoc. f_equal.
      cbn [length]. by rewrite (page_urls_cons _ _ _ _ (S (length pages))).
Qed.

End Paging.

(** X14. Paging to the end. When the server answers the first requests
    with pages that are not empty and the next one with an empty page,
    each asked at the offset the loop has reached, [get_all_runs] with
    no cap on the pages returns the concatenation of the pages in fetch
    order, having asked once per page and once for the empty page. *)
Theorem get_all_runs_to_the_end
    (self : ApiClient) (game_id : string) (cache_file : option string)
    (page_size : option nat) (w : world) (pages : list (list json))
    (last : json) (fuel : nat) :
  (forall i page, pages !! i = Some page ->
     page <> []
     /\ serves w (length (requests w) + i)
          (runs_url self game_id (asked_max self page_size)
             (i * offset_step self page_size)) (JArr page)) ->
  serves w (length (requests w) + length pages)
    (runs_url self game_id (asked_max self page_size)
       (length pages * offset_step self page_size)) last ->
  truthy last = false ->
  length pages < fuel ->
  exists w',
    get_all_runs fuel self game_id cache_file None page_size w
    = Some (Ok (concat pages), w')
    /\ requests w'
       = requests w ++ page_urls self game_id page_size 0 (S (length pages)).
Proof.
  intros Hpages Hlast Hfalsy Hfuel. unfold get_all_runs.
  apply (get_all_runs_loop_to_the_end self game_id cache_file page_size None
           pages fuel 0 [] 0 w last); try done.
Qed.

Section PageCap.
Context (self : ApiClient) (game_id : string) (cache_file : option string)
  (page_size : option nat) (mp : nat).

(** The loop over served pages that are not empty, up to the cap. *)
Lemma get_all_runs_loop_capped pages :
  pages <> [] ->
  forall fuel offset all_runs fetched w,
    length pages <= fuel ->
    fetched + length pages = mp ->
    (forall i page, pages !! i = Some page ->
       page <> []
       /\ serves w (length (requests w) + i)
            (runs_url self game_id (asked_max self page_size)
               (offset + i * offset_step self page_size)) (JArr page)) ->
    exists w',
      get_all_runs_loop fuel self game_id cache_file (Some mp) page_size
        offset all_runs fetched w
      = Some (Ok (all_runs ++ concat pages), w')
      /\ requests w'
         = requests w ++ page_urls self game_id page_size offset (length pages).
Proof.
  induction pages as [|page pages IH]; [done|]. intros _.
  intros fuel offset all_runs fetched w Hfuel Hmp Hpages.
  destruct fuel as [|fuel]; [simpl in Hfuel; lia|].
  destruct (Hpages 0 page eq_refl) as [Hne H0].
  simpl in H0. rewrite !Nat.add_0_r in H0.
  destruct (get_runs_served self game_id offset page_size cache_file w _ H0)
    as (w1 & Hrun & Hnet & Hreq).
  cbn [get_all_runs_loop]. rewrite Hrun.
  assert (truthy (JArr page) = true) as -> by (by destruct page).
  cbn [negb py_iter].
  destruct pages as [|page' pages].
  - assert ((mp <=? fetched + 1)%nat = true) as ->.
    { apply Nat.leb_le. simpl in Hmp. lia. }
    exists w1. simpl. rewrite app_nil_r. split; [done|].
    rewrite Hreq. unfold page_urls. simpl. by rewrite Nat.add_0_r.
  - assert ((mp <=? fetched + 1)%nat = false) as ->.
    { apply Nat.leb_gt. simpl in Hmp. lia. }
    destruct (IH ltac:(done) fuel (offset + offset_step self page_size)
                (all_runs ++ page) (fetched + 1) w1) as (w' & Hloop & Hreq').
    + simpl in Hfuel |- *. lia.
    + simpl in Hmp |- *. lia.
    + intros i p Hi. destruct (Hpages (S i) p Hi) as [Hp Hs]. split; [done|].
      unfold serves in *. rewrite Hnet, Hreq, length_app. simpl.
      replace (length (requests w) + 1 + i) with (length (requests w) + S i) by lia.
      replace (offset + offset_step self page_size + i * offset_step self page_size)
        with (offset + S i * offset_step self page_size) by lia.
      exact Hs.
    + exists w'. unfold offset_step in Hloop |- *. rewrite Hloop.
      split; [by rewrite <- app_assoc|].
      rewrite Hreq', Hreq, <- app_assoc. f_equal.
      by rewrite (page_urls_cons _ _ _ _ (length (page' :: pages))).
Qed.

End PageCap.

(** X15. The cap on the pages. With [max_pages] at least 1 and that many
    served pages that are not empty, [get_all_runs] returns the
    concatenation of these pages after exactly [max_pages] requests: the
    page after the cap is not asked for. *)
Theorem get_all_runs_page_cap
    (self : ApiClient) (game_id : string) (cache_file : option string)
    (page_size : option nat) (w : world) (pages : list (list json))
    (max_pages fuel : nat) :
  0 < max_pages -> length pages = max_pages ->
  (forall i page, pages !! i = Some page ->
     page <> []
     /\ serves w (length (requests w) + i)
          (runs_url self game_id (asked_max self page_size)
             (i * offset_step self page_size)) (JArr page)) ->
  max_pages <= fuel ->
  exists w',
    get_all_runs fuel self game_id cache_file (Some max_pages) page_size w
    = Some (Ok (concat pages), w')
    /\ requests w'
       = requests w ++ page_urls self game_id page_size 0 max_pages.
Proof.
  intros Hpos Hlen Hpages Hfuel. unfold get_all_runs. subst max_pages.
  apply (get_all_runs_loop_capped self game_id cache_file page_size (length pages)
           pages); try done.
  intros ->. simpl in Hpos. lia.
Qed.

(** X16. A cap of 0 pages is a cap of 1 page: the cap is looked at only
    after a page has been fetched and kept. *)
Theorem get_all_runs_cap_zero
    (fuel : nat) (self : ApiClient) (game_id : string)
    (cache_file : option string) (page_size : option nat) (w : world) :
  get_all_runs fuel self game_id cache_file (Some 0) page_size w
  = get_all_runs fuel self game_id cache_file (Some 1) page_size w.
Proof.
  unfold get_all_runs. destruct fuel as [|fuel]; [done|].
  cbn [get_all_runs_loop].
  destruct (get_runs self game_id 0 page_size cache_file w) as [[page|e] w1]; [|done].
  destruct (negb (truthy page)); [done|].
  destruct (py_iter page); done.
Qed.

(** * Further properties of the verified-run repository *)

(** X17. A cache file that holds JSON other than a list makes
    [fetch_verified_runs] raise the [TypeError] of
    [existing_runs + fetched_runs] as soon as the fetch has ended,
    whatever the fetch gave; the cache file is not rewritten. *)
Theorem fetch_verified_runs_cache_not_a_list
    (fuel : nat) (w : world) (j : json) (fetched : result (list json))
    (w1 : world) :
  files w !! CACHE_FILE = Some (Content j) ->
  (forall items, j <> JArr items) ->
  get_all_runs fuel default_ApiClient GAME_ID None None None w
  = Some (fetched, w1) ->
  fetch_verified_runs fuel w
  = Some (Raise (TypeError "unsupported operand type(s) for +"), w1)
  /\ files w1 = files w.
Proof.
  intros Hfile Hno Hfetch. split.
  - unfold fetch_verified_runs, safe_read_json. rewrite Hfile, Hfetch. cbv zeta.
    destruct j; try done. by destruct (Hno items).
  - by apply get_all_runs_frame in Hfetch as (_ & _ & ?).
Qed.

(** X18. [fetch_verified_runs] never returns an empty result: what it
    returns is a list with at least one record. *)
Theorem fetch_verified_runs_result_not_empty
    (fuel : nat) (w : world) (v : json) (w2 : world) :
  fetch_verified_runs fuel w = Some (Ok v, w2) ->
  exists runs, v = JArr runs /\ runs <> [].
Proof.
  unfold fetch_verified_runs.
  destruct (get_all_runs _ _ _ _ _ _ _) as [[fetched w1]|]; [|done].
  cbv zeta.
  destruct (safe_read_json CACHE_FILE (JArr []) w) as [| | | |existing|];
    try done.
  cbn [py_add_list].
  destruct (index_by_id _ _) as [combined|]; [|done].
  destruct (keep_verified _) as [verified_runs|]; [|done].
  destruct verified_runs as [|r vr], existing as [|r0 ex]; simpl; try done.
  - intros [= <- <-]. by eexists.
  - intros [= <- <-]. by eexists.
  - intros [= <- <-]. by eexists.
Qed.

(** X19. [fetch_verified_runs] writes no file but the verified-run
    cache. *)
Theorem fetch_verified_runs_only_cache_file
    (fuel : nat) (w : world) (res : result json) (w2 : world) (path : string) :
  fetch_verified_runs fuel w = Some (res, w2) ->
  path <> CACHE_FILE ->
  files w2 !! path = files w !! path.
Proof.
  unfold fetch_verified_runs.
  destruct (get_all_runs _ _ _ _ _ _ _) as [[fetched w1]|] eqn:Hfetch; [|done].
  apply get_all_runs_frame in Hfetch as (_ & _ & Hfiles).
  cbv zeta. intros Hrun Hpath.
  assert (Hw : forall data,
            files (snd (safe_write_json CACHE_FILE data w1)) !! path
            = files w !! path).
  { intros data. unfold safe_write_json, write_json.
    destruct (denied w1 CACHE_FILE); simpl; rewrite ?Hfiles; [done|].
    by rewrite lookup_insert_ne. }
  destruct (py_add_list _ _) as [runs|]; [|injection Hrun as <- <-; by rewrite Hfiles].
  destruct (index_by_id _ _) as [combined|]; [|injection Hrun as <- <-; by rewrite Hfiles].
  destruct (keep_verified _) as [verified_runs|]; [|injection Hrun as <- <-; by rewrite Hfiles].
  destruct (_ && _); [injection Hrun as <- <-; apply Hw|].
  destruct (_ && _); injection Hrun as <- <-; apply Hw.
Qed.

Lemma filter_verified_nil (al : list (string * json)) (m : gmap string json) :
  NoDup al.*1 -> list_to_map al = m ->
  (forall i r, m !! i = Some r -> ~ verified r) ->
  filter verified al.*2 = [].
Proof.
  intros Hnd Hmap Hnone. apply elem_of_nil_inv. intros r Hr.
  apply list_elem_of_filter in Hr as [Hv Hr].
  apply list_elem_of_fmap in Hr as ([i r'] & -> & Hin).
  apply (elem_of_list_to_map_1 (M := gmap string)) in Hin; [|done].
  rewrite Hmap in Hin. by apply Hnone in Hin.
Qed.

(** X20. The last resort empties the cache. When the cache holds records
    and, after the merge with what was fetched, no record is verified
    any more, [fetch_verified_runs] returns the list the cache held,
    and leaves the cache file holding the empty list (unless the write
    is refused). *)
Theorem fetch_verified_runs_last_resort
    (fuel : nat) (w : world) (existing : list json)
    (fetched : result (list json)) (w1 : world) :
  safe_read_json CACHE_FILE (JArr []) w = JArr existing ->
  existing <> [] ->
  get_all_runs fuel default_ApiClient GAME_ID None None None w
  = Some (fetched, w1) ->
  Forall (fun r => run_record r = true) (existing ++ fetched_runs_of fetched) ->
  (forall i r,
     merged_by_id (existing ++ fetched_runs_of fetched) !! i = Some r ->
     ~ verified r) ->
  exists w2,
    fetch_verified_runs fuel w = Some (Ok (JArr existing), w2)
    /\ (denied w CACHE_FILE = false ->
        files w2 = <[CACHE_FILE := Content (JArr [])]> (files w)).
Proof.
  intros Hread Hne Hfetch Hwf Hnone.
  destruct (fetch_verified_runs_merged fuel w existing fetched w1 Hread Hfetch Hwf)
    as (al & Hnd & Hmap & _ & Hrun).
  rewrite (filter_verified_nil al _ Hnd Hmap Hnone) in Hrun.
  eexists. split.
  - rewrite Hrun. by destruct existing.
  - intros Hden. apply get_all_runs_frame in Hfetch as (_ & Hden1 & Hfiles).
    rewrite safe_write_json_files by (by rewrite Hden1). by rewrite Hfiles.
Qed.

Lemma merged_entries_ids (al : list (string * json)) runs :
  NoDup al.*1 -> list_to_map al = merged_by_id runs ->
  forall i r, (i, r) ∈ al -> record_id r = Some i /\ r ∈ runs.
Proof.
  intros Hnd Hmap i r Hin.
  apply (elem_of_list_to_map_1 (M := gmap string)) in Hin; [|done].
  rewrite Hmap in Hin. by apply merged_by_id_key in Hin.
Qed.

Lemma filter_values_ids (P : json -> Prop) `{!forall r, Decision (P r)}
    (al : list (string * json)) :
  (forall i r, (i, r) ∈ al -> record_id r = Some i) ->
  NoDup al.*1 ->
  NoDup (omap record_id (filter P al.*2))
  /\ forall i, i ∈ omap record_id (filter P al.*2) -> i ∈ al.*1.
Proof.
  induction al as [|[i r] al IH]; intros Hid Hnd.
  - split; [constructor|]. intros i Hi. by apply elem_of_nil in Hi.
  - apply NoDup_cons in Hnd as [Hi Hnd].
    destruct IH as [IHnd IHin]; [intros; apply Hid; by right|done|].
    assert (Hr : record_id r = Some i) by (apply Hid; by left).
    cbn [fmap list_fmap snd]. rewrite filter_cons.
    destruct (decide (P r)).
    + cbn [omap list_omap]. rewrite Hr. split.
      * apply NoDup_cons. split; [|done]. intros Hin. apply Hi. by apply IHin.
      * intros i' [->|Hin]%elem_of_cons; [by left|]. right. by apply IHin.
    + split; [done|]. intros i' Hin. right. by apply IHin.
Qed.

(** X21. Offline after a refresh. When a call has merged well-formed
    records of which at least one is verified, and its cache write was
    not refused, it returns the verified records, and a later call that
    finds the cache file as this call left it and whose fetch raises
    returns the same records in the same order. *)
Theorem fetch_verified_runs_then_offline
    (fuel : nat) (w : world) (existing : list json)
    (fetched : result (list json)) (w1 : world) :
  safe_read_json CACHE_FILE (JArr []) w = JArr existing ->
  get_all_runs fuel default_ApiClient GAME_ID None None None w
  = Some (fetched, w1) ->
  Forall (fun r => run_record r = true) (existing ++ fetched_runs_of fetched) ->
  denied w CACHE_FILE = false ->
  (exists i r,
     merged_by_id (existing ++ fetched_runs_of fetched) !! i = Some r
     /\ verified r) ->
  exists v w2,
    fetch_verified_runs fuel w = Some (Ok v, w2)
    /\ forall fuel' w' e w1',
         files w' !! CACHE_FILE = files w2 !! CACHE_FILE ->
         get_all_runs fuel' default_ApiClient GAME_ID None None None w'
         = Some (Raise e, w1') ->
         exists w2', fetch_verified_runs fuel' w' = Some (Ok v, w2').
Proof.
  intros Hread Hfetch Hwf Hden (i & r & Hir & Hv).
  destruct (fetch_verified_runs_merged fuel w existing fetched w1 Hread Hfetch Hwf)
    as (al & Hnd & Hmap & _ & Hrun).
  pose proof (merged_entries_ids al _ Hnd Hmap) as Hids.
  set (vr := filter verified al.*2) in *.
  assert (Hin : r ∈ vr).
  { apply list_elem_of_filter. split; [done|].
    rewrite <- Hmap in Hir.
    apply (elem_of_list_to_map_2 (M := gmap string)) in Hir.
    apply list_elem_of_fmap. by exists (i, r). }
  assert (Hne : vr <> []) by (intros E; rewrite E in Hin; by apply elem_of_nil in Hin).
  exists (JArr vr), (snd (safe_write_json CACHE_FILE (JArr vr) w1)). split.
  { rewrite Hrun. clear -Hne. by destruct vr. }
  intros fuel' w' e w1' Hsame Hfetch'.
  apply get_all_runs_frame in Hfetch as (_ & Hden1 & _).
  rewrite safe_write_json_files in Hsame by (by rewrite Hden1).
  rewrite lookup_insert_eq in Hsame.
  assert (Hread' : safe_read_json CACHE_FILE (JArr []) w' = JArr vr).
  { unfold safe_read_json. by rewrite Hsame. }
  assert (Hall : Forall (fun r => run_record r = true /\ verified r) vr).
  { apply Forall_forall. intros r' Hr'.
    apply list_elem_of_filter in Hr' as [Hv' Hr']. split; [|done].
    apply list_elem_of_fmap in Hr' as ([i' r''] & -> & Hin').
    rewrite Forall_forall in Hwf. apply Hwf. by apply (Hids i' r''). }
  destruct (filter_values_ids verified al) as [Hndv _];
    [intros; by apply Hids|done|]. fold vr in Hndv.
  destruct (fetch_verified_runs_merged fuel' w' vr (Raise e) w1' Hread' Hfetch')
    as (al' & _ & _ & Hord & Hrun').
  { simpl. rewrite app_nil_r. eapply Forall_impl; [exact Hall|]. by intros ? [? _]. }
  simpl in Hord. rewrite app_nil_r in Hord. specialize (Hord Hndv).
  rewrite Hord in Hrun'.
  assert (Hkeep : filter verified vr = vr).
  { clear -Hall. induction Hall as [|r rs [_ Hv] _ IH]; [done|].
    rewrite filter_cons_True by done. by rewrite IH. }
  rewrite Hkeep in Hrun'.
  exists (snd (safe_write_json CACHE_FILE (JArr vr) w1')). rewrite Hrun'.
  clear -Hne. by destruct vr.
Qed.

(** * The last-refresh file *)

(** X22. The round trip of the last-refresh timestamp. When the
    operating system accepts the writes, [set_global_last_refresh]
    returns [True], [get_global_last_refresh] then returns the
    timestamp that was set, and the temporary file is gone. *)
Theorem set_global_last_refresh_round_trip (ts : Q) (w : world) :
  denied w LAST_REFRESH_TMP = false -> denied w LAST_REFRESH_FILE = false ->
  exists w',
    set_global_last_refresh ts w = (true, w')
    /\ get_global_last_refresh w' = Some (Some ts)
    /\ files w' !! LAST_REFRESH_TMP = None.
Proof.
  intros Htmp Hfile. unfold set_global_last_refresh, write_json. rewrite Htmp.
  unfold os_replace. cbn [files store denied]. rewrite lookup_insert_eq, Hfile.
  eexists. split; [reflexivity|]. split.
  - unfold get_global_last_refresh, safe_read_json. cbn [files set_files].
    by rewrite lookup_insert_eq.
  - cbn [files set_files]. rewrite lookup_insert_ne by done.
    by rewrite lookup_delete_eq.
Qed.

(** X23. [set_global_last_refresh] is all or nothing. It returns [True]
    exactly when the operating system accepts both the write of the
    temporary file and the replacement; the last-refresh file then
    holds the new document, and otherwise it is as it was.  No file
    other than these two is touched. *)
Theorem set_global_last_refresh_atomic (ts : Q) (w : world) :
  let ok := fst (set_global_last_refresh ts w) in
  let w' := snd (set_global_last_refresh ts w) in
  (ok = true <-> denied w LAST_REFRESH_TMP = false
                 /\ denied w LAST_REFRESH_FILE = false)
  /\ (ok = true ->
      files w' !! LAST_REFRESH_FILE = Some (Content (last_refresh_doc ts)))
  /\ (ok = false -> files w' !! LAST_REFRESH_FILE = files w !! LAST_REFRESH_FILE)
  /\ (forall path, path <> LAST_REFRESH_FILE -> path <> LAST_REFRESH_TMP ->
        files w' !! path = files w !! path).
Proof.
  unfold set_global_last_refresh, write_json.
  destruct (denied w LAST_REFRESH_TMP) eqn:Htmp.
  { cbn [fst snd]. unfold clean_up, exists_file, unlink.
    split; [split; [done|by intros [? _]]|]. split; [done|].
    destruct (bool_decide _); cbn [files set_files].
    - split; [intros _; by rewrite lookup_delete_ne|].
      intros path _ Hp. by rewrite lookup_delete_ne.
    - done. }
  unfold os_replace. cbn [files store denied]. rewrite lookup_insert_eq.
  destruct (denied w LAST_REFRESH_FILE) eqn:Hfile.
  { cbn [fst snd]. unfold clean_up, exists_file, unlink. cbn [files store].
    rewrite bool_decide_eq_true_2 by (rewrite lookup_insert_eq; by eexists).
    cbn [files set_files store].
    split; [split; [done|by intros [_ ?]]|]. split; [done|].
    split.
    - intros _. rewrite lookup_delete_ne by done. by rewrite lookup_insert_ne.
    - intros path _ Hp. rewrite lookup_delete_ne by done.
      by rewrite lookup_insert_ne. }
  cbn [fst snd files set_files].
  split; [done|]. split; [intros _; by rewrite lookup_insert_eq|].
  split; [done|]. intros path Hp1 Hp2.
  rewrite lookup_insert_ne by done. rewrite lookup_delete_ne by done.
  by rewrite lookup_insert_ne.
Qed.

(** * The display names *)

Lemma unreachable_attempts_fail url w :
  unreachable w -> attempts_fail url BACKOFF_SEC 0 3 w.
Proof.
  intros Hw i Hi. exists NoResponse, (inject_Z (2 * Z.of_nat (i + 1))).
  rewrite Hw. split; [done|].
  destruct i as [|[|[|i]]]; [..|lia]; reflexivity.
Qed.

(** Offline, a call of [fetch_api_cached] with the default retries
    makes three requests and falls back to the cache. *)
Lemma fetch_api_cached_offline url cache_file w :
  unreachable w ->
  exists w',
    fetch_api_cached url cache_file None MAX_RETRIES BACKOFF_SEC w
    = (fallback url cache_file NoResponse w, w')
    /\ unreachable w' /\ files w' = files w /\ denied w' = denied w
    /\ requests w' = requests w ++ replicate 3 url.
Proof.
  intros Hw. unfold fetch_api_cached. fold (api_timeout None).
  destruct (retry_loop_failed url cache_file (api_timeout None) BACKOFF_SEC 3 0
              [] None w (unreachable_attempts_fail url w Hw))
    as (w1 & last1 & sl & Hrun & Hnet & Hden & _ & Hfiles & Hreq & _ & _ & _ & Hlast).
  change (MAX_RETRIES + 1) with 3. rewrite app_nil_r in Hrun. rewrite Hrun.
  cbn [retry_loop].
  assert (last1 = Some NoResponse) as ->.
  { apply Hlast; [lia|]. by rewrite Hw. }
  exists w1. split.
  { unfold fallback. destruct cache_file as [path|]; [|done].
    rewrite Hfiles. by destruct (files w !! path) as [[]|]. }
  split; [intros n u; by rewrite Hnet|]. done.
Qed.


(** ** The player names *)

Lemma dict_get_obj_set fields k v k' :
  dict_get k' (obj_set fields k v)
  = if String.eqb k k' then Some v else dict_get k' fields.
Proof.
  induction fields as [|[k0 v0] fields IH]; simpl.
  - done.
  - destruct (String.eqb k0 k) eqn:E0; simpl.
    + apply String.eqb_eq in E0 as ->.
      by destruct (String.eqb k k').
    + rewrite IH. destruct (String.eqb k0 k') eqn:E1; [|done].
      apply String.eqb_eq in E1 as ->. by rewrite String.eqb_sym, E0.
Qed.

Lemma unique_from_elem seen l x :
  x ∈ unique_from seen l <-> x ∈ l /\ x ∉ seen.
Proof.
  revert seen. induction l as [|y l IH]; intros seen; simpl.
  - split; [by intros ?%elem_of_nil|by intros [?%elem_of_nil _]].
  - destruct (bool_decide (y ∈ seen)) eqn:E.
    + apply bool_decide_eq_true in E. rewrite IH, elem_of_cons. split.
      * intros [? ?]. split; [by right|done].
      * intros [[->|?] ?]; [done|by split].
    + apply bool_decide_eq_false in E. rewrite !elem_of_cons, IH, elem_of_cons.
      split.
      * intros [->|[? ?]]; [split; [by left|done]|].
        split; [by right|]. tauto.
      * intros [[->|?] ?]; [by left|].
        destruct (decide (x = y)) as [->|]; [by left|]. right. tauto.
Qed.

Lemma unique_player_ids_elem df p :
  p ∈ unique_player_ids df <-> p ∈ players df.
Proof.
  unfold unique_player_ids, players. rewrite unique_from_elem.
  split; [by intros [? _]|]. intros ?. split; [done|]. by intros ?%elem_of_nil.
Qed.

(** What the right-hand side of the assignment does to the world. *)
Lemma fetch_player_name_trace p w name w1 :
  fetch_player_name p w = (name, w1) ->
  net w1 = net w /\ denied w1 = denied w /\ files w1 = files w
  /\ exists n, requests w1 = requests w ++ replicate n (user_api p).
Proof.
  unfold fetch_player_name.
  destruct (fetch_api_cached _ _ _ _ _ _) as [r w0] eqn:E.
  apply fetch_api_cached_trace in E as (Hnet & Hden & _ & Hfiles & n & sl & _ & Hreq & _).
  intros Hrun.
  assert (w1 = w0) as -> by (destruct r; by injection Hrun).
  split; [done|]. split; [done|]. split; [by apply Hfiles|]. by exists n.
Qed.

(** The loop on a dict: it does not raise, names every player, leaves
    the entries the dict had alone, and asks only for players the dict
    did not have. *)
Lemma name_players_obj ids :
  forall fields w,
  exists fields' w' new,
    name_players ids (JObj fields) w = (Ok (JObj fields'), w')
    /\ (forall p, p ∈ ids -> is_Some (dict_get p fields'))
    /\ (forall p v, dict_get p fields = Some v -> dict_get p fields' = Some v)
    /\ requests w' = requests w ++ new
    /\ Forall (fun url => exists p, url = user_api p /\ p ∈ ids
                                    /\ dict_get p fields = None) new
    /\ net w' = net w /\ denied w' = denied w /\ files w' = files w.
Proof.
  induction ids as [|p ids IH]; intros fields w.
  - exists fields, w, []. rewrite app_nil_r. repeat split; try done.
    intros p Hp. by apply elem_of_nil in Hp.
  - cbn [name_players py_contains].
    destruct (dict_get p fields) as [v0|] eqn:Hp.
    + rewrite bool_decide_eq_true_2 by (by eexists).
      destruct (IH fields w) as (fields' & w' & new & -> & Hall & Hkeep & Hreq
                                 & Hnew & Hrest).
      exists fields', w', new. split; [done|]. split.
      { intros q [->|Hq]%elem_of_cons; [|by apply Hall].
        rewrite (Hkeep _ _ Hp). by eexists. }
      split; [done|]. split; [done|]. split; [|done].
      eapply Forall_impl; [exact Hnew|].
      intros url (q & -> & Hq & Hnone). exists q. split; [done|].
      split; [by right|done].
    + rewrite bool_decide_eq_false_2 by (intros [? ?]; done).
      destruct (fetch_player_name p w) as [name w1] eqn:Ef.
      apply fetch_player_name_trace in Ef as (Hnet1 & Hden1 & Hfiles1 & n & Hreq1).
      assert (Hset : exists v,
                match name ≫= py_setitem (JObj fields) p with
                | Ok player_map' => name_players ids player_map' w1
                | Raise _ =>
                    match py_setitem (JObj fields) p (JStr p) with
                    | Ok player_map' => name_players ids player_map' w1
                    | Raise e => (Raise e, w1)
                    end
                end = name_players ids (JObj (obj_set fields p v)) w1).
      { destruct name as [v|e]; [by exists v|by exists (JStr p)]. }
      destruct Hset as [v ->].
      destruct (IH (obj_set fields p v) w1)
        as (fields' & w' & new & -> & Hall & Hkeep & Hreq & Hnew & Hnet & Hden & Hfiles).
      exists fields', w', (replicate n (user_api p) ++ new).
      split; [done|]. split.
      { intros q [->|Hq]%elem_of_cons; [|by apply Hall].
        rewrite (Hkeep p v); [by eexists|].
        by rewrite dict_get_obj_set, String.eqb_refl. }
      split.
      { intros q v' Hq. apply Hkeep. rewrite dict_get_obj_set.
        destruct (String.eqb p q) eqn:E; [|done].
        apply String.eqb_eq in E as ->. congruence. }
      split; [by rewrite Hreq, Hreq1, <- app_assoc|].
      split; [|split; [congruence|split; congruence]].
      apply Forall_app. split.
      { apply Forall_forall. intros url Hurl.
        apply elem_of_replicate in Hurl as [-> _].
        exists p. split; [done|]. split; [by left|done]. }
      eapply Forall_impl; [exact Hnew|].
      intros url (q & -> & Hq & Hnone). exists q. split; [done|].
      split; [by right|].
      rewrite dict_get_obj_set in Hnone.
      by destruct (String.eqb p q).
Qed.

(** X25. The player cache. When the player cache file is missing,
    unreadable or holds a JSON object, the player block of
    [process_runs] does not raise; every player of the table ends up
    with an entry in the map, the entries the cache had are left as
    they were, the API is asked only for players the cache did not
    have, and the map is written back to the cache file (unless the
    write is refused). *)
Theorem load_player_map_cache
    (df : list row) (w : world) (fields : list (string * json)) :
  safe_read_json PLAYER_CACHE_FILE (JObj []) w = JObj fields ->
  exists fields' w' new,
    load_player_map df w = (Ok (JObj fields'), w')
    /\ (forall p, p ∈ players df -> is_Some (dict_get p fields'))
    /\ (forall p v, dict_get p fields = Some v -> dict_get p fields' = Some v)
    /\ requests w' = requests w ++ new
    /\ Forall (fun url => exists p, url = user_api p /\ p ∈ players df
                                    /\ dict_get p fields = None) new
    /\ (denied w PLAYER_CACHE_FILE = false ->
        files w' !! PLAYER_CACHE_FILE = Some (Content (JObj fields'))).
Proof.
  intros Hread. unfold load_player_map. rewrite Hread. cbv zeta.
  assert (Hmap : (if truthy (JObj fields) then JObj fields else JObj [])
                 = JObj fields) by (by destruct fields).
  rewrite Hmap.
  destruct (name_players_obj (unique_player_ids df) fields w)
    as (fields' & w1 & new & -> & Hall & Hkeep & Hreq & Hnew & Hnet & Hden & Hfiles).
  exists fields', (snd (safe_write_json PLAYER_CACHE_FILE (JObj fields') w1)), new.
  split; [done|]. split.
  { intros p Hp. apply Hall. by apply unique_player_ids_elem. }
  split; [done|]. split.
  { rewrite <- Hreq. unfold safe_write_json, write_json.
    by destruct (denied w1 PLAYER_CACHE_FILE). }
  split.
  { eapply Forall_impl; [exact Hnew|]. intros url (p & -> & Hp & Hnone).
    exists p. split; [done|]. split; [|done]. by apply unique_player_ids_elem. }
  intros Hd. rewrite safe_write_json_files by (by rewrite Hden).
  by rewrite lookup_insert_eq.
Qed.

(** The loop offline: every player the dict did not have is named by
    the id. *)
Lemma name_players_offline ids :
  forall fields w,
    unreachable w ->
    exists fields' w',
      name_players ids (JObj fields) w = (Ok (JObj fields'), w')
      /\ (forall p, p ∈ ids -> dict_get p fields = None ->
            dict_get p fields' = Some (JStr p))
      /\ (forall p v, dict_get p fields = Some v -> dict_get p fields' = Some v)
      /\ denied w' = denied w.
Proof.
  induction ids as [|p ids IH]; intros fields w Hw.
  - exists fields, w. repeat split; try done.
    intros p Hp. by apply elem_of_nil in Hp.
  - cbn [name_players py_contains].
    destruct (dict_get p fields) as [v0|] eqn:Hp.
    + rewrite bool_decide_eq_true_2 by (by eexists).
      destruct (IH fields w Hw) as (fields' & w' & -> & Hall & Hkeep & Hden).
      exists fields', w'. split; [done|]. split; [|done].
      intros q [->|Hq]%elem_of_cons Hnone; [congruence|by apply Hall].
    + rewrite bool_decide_eq_false_2 by (intros [? ?]; done).
      unfold fetch_player_name.
      destruct (fetch_api_cached_offline (user_api p) None w Hw)
        as (w1 & -> & Hw1 & _ & Hden1 & _).
      cbn [fallback mbind result_bind py_setitem].
      destruct (IH (obj_set fields p (JStr p)) w1 Hw1)
        as (fields' & w' & -> & Hall & Hkeep & Hden).
      exists fields', w'. split; [done|].
      assert (Hp' : dict_get p fields' = Some (JStr p)).
      { apply Hkeep. by rewrite dict_get_obj_set, String.eqb_refl. }
      split.
      { intros q [->|Hq]%elem_of_cons Hnone; [done|].
        destruct (decide (q = p)) as [->|Hne]; [done|].
        apply Hall; [done|]. rewrite dict_get_obj_set.
        destruct (String.eqb p q) eqn:E; [|done].
        apply String.eqb_eq in E. congruence. }
      split; [|congruence].
      intros q v' Hq. apply Hkeep. rewrite dict_get_obj_set.
      destruct (String.eqb p q) eqn:E; [|done].
      apply String.eqb_eq in E as ->. congruence.
Qed.

(** X26. Offline, an unknown player is named by the id, for good. When no
    request gets a response, every player of the table that the cache
    did not have is entered in the map under the id as name; the map is
    written to the cache file, so that a later run finds the player
    there and, by the property above, does not ask the API for the
    name. *)
Theorem load_player_map_offline
    (df : list row) (w : world) (fields : list (string * json)) :
  unreachable w ->
  safe_read_json PLAYER_CACHE_FILE (JObj []) w = JObj fields ->
  denied w PLAYER_CACHE_FILE = false ->
  exists fields' w',
    load_player_map df w = (Ok (JObj fields'), w')
    /\ (forall p, p ∈ players df -> dict_get p fields = None ->
          dict_get p fields' = Some (JStr p))
    /\ safe_read_json PLAYER_CACHE_FILE (JObj []) w' = JObj fields'.
Proof.
  intros Hw Hread Hd. unfold load_player_map. rewrite Hread. cbv zeta.
  assert (Hmap : (if truthy (JObj fields) then JObj fields else JObj [])
                 = JObj fields) by (by destruct fields).
  rewrite Hmap.
  destruct (name_players_offline (unique_player_ids df) fields w Hw)
    as (fields' & w1 & -> & Hall & _ & Hden).
  exists fields', (snd (safe_write_json PLAYER_CACHE_FILE (JObj fields') w1)).
  split; [done|]. split.
  { intros p Hp. apply Hall. by apply unique_player_ids_elem. }
  unfold safe_read_json.
  rewrite safe_write_json_files by (by rewrite Hden).
  by rewrite lookup_insert_eq.
Qed.

(** * The client's base URL *)

Lemma append_nil_l s : "" +:+ s = s.
Proof. reflexivity. Qed.

Lemma append_cons c s t : String c s +:+ t = String c (s +:+ t).
Proof. reflexivity. Qed.

(** X27. [ApiClient(base_url)] drops the slashes at the end of
    [base_url] and nothing else: the base it keeps does not end in a
    slash, and [base_url] is that base followed by slashes only. *)
Theorem new_ApiClient_base (base_url : string) (timeout : Z) (page_size : nat) :
  let self := new_ApiClient base_url timeout page_size in
  (exists n, base_url = base self +:+ slashes n)
  /\ (forall t, base self <> t +:+ "/").
Proof.
  cbv zeta. cbn [base new_ApiClient]. rename base_url into s.
  induction s as [|c s [[n IHn] IHs]]; cbn [rstrip_slash].
  - split; [by exists 0|]. intros [|? ?]; [done|]. by rewrite append_cons.
  - destruct (rstrip_slash s) as [|c' t'] eqn:E.
    + rewrite append_nil_l in IHn.
      destruct (Ascii.eqb c "/") eqn:Ec.
      * apply Ascii.eqb_eq in Ec as ->. split.
        -- exists (S n). rewrite append_nil_l. cbn [slashes]. by f_equal.
        -- intros [|? ?]; [done|]. by rewrite append_cons.
      * split.
        -- exists n. rewrite append_cons, append_nil_l. by f_equal.
        -- intros [|a t].
           ++ rewrite append_nil_l. intros [= ->]. by rewrite Ascii.eqb_refl in Ec.
           ++ rewrite append_cons. intros [= -> H]. destruct t; [done|].
              by rewrite append_cons in H.
    + split.
      * exists n. rewrite append_cons. by f_equal.
      * intros [|a t]; [by rewrite append_nil_l|].
        rewrite append_cons. intros [= -> H]. by apply (IHs t).
Qed.

(** * The display of a duration *)

Lemma format_cs_wrap cs :
  (cs < 0)%Z -> format_cs cs = format_cs (cs mod 360000).
Proof.
  intros Hneg. unfold format_cs.
  assert (H1 : (0 <? cs / 100 / 3600)%Z = false).
  { apply Z.ltb_ge. Z.div_mod_to_equations. lia. }
  assert (H2 : (0 <? cs mod 360000 / 100 / 3600)%Z = false).
  { apply Z.ltb_ge. Z.div_mod_to_equations. lia. }
  assert (H3 : ((cs mod 360000 / 100 / 60) mod 60 = (cs / 100 / 60) mod 60)%Z).
  { Z.div_mod_to_equations. lia. }
  assert (H4 : ((cs mod 360000 / 100) mod 60 = (cs / 100) mod 60)%Z).
  { Z.div_mod_to_equations. lia. }
  assert (H5 : ((cs mod 360000) mod 100 = cs mod 100)%Z).
  { Z.div_mod_to_equations. lia. }
  cbv zeta. by rewrite H1, H2, H3, H4, H5.
Qed.

(** X28. A negative duration is shown without a sign, as the duration
    plus the fewest whole hours that make it non-negative, and so
    without hours: minus one second is shown as 59:59.00. *)
Theorem format_time_seconds_negative (t : spec_float) (total_cs : Z) :
  py_round (float_mul t (float_of_int 100)) = Some total_cs ->
  (total_cs < 0)%Z ->
  format_time_seconds (Some t) = Some (format_cs (total_cs mod 360000))
  /\ (0 <= total_cs mod 360000 < 360000)%Z.
Proof.
  intros Hround Hneg. split; [|by apply Z.mod_pos_bound].
  unfold format_time_seconds.
  destruct t as [s|s| |s m e]; try (rewrite Hround; by rewrite format_cs_wrap).
  done.
Qed.

(** ** The display of a non-negative duration can be read back *)

Lemma pretty_N_char_digit x : is_digit (pretty_N_char x) = true.
Proof. unfold pretty_N_char. by repeat case_match. Qed.

Lemma pretty_N_go_digits x :
  forall s, digits_only s = true -> digits_only (pretty_N_go x s) = true.
Proof.
  induction (N.lt_wf_0 x) as [x _ IH]. intros s Hs.
  destruct (decide (0 < x)%N) as [Hx|Hx].
  - rewrite pretty_N_go_step by done. apply IH.
    + by apply N.div_lt.
    + simpl. by rewrite pretty_N_char_digit, Hs.
  - assert (x = 0%N) as -> by lia. by rewrite pretty_N_go_0.
Qed.

Lemma pretty_N_digits (x : N) : digits_only (pretty x) = true.
Proof.
  unfold pretty, pretty_N. destruct (decide (x = 0%N)); [done|].
  by apply pretty_N_go_digits.
Qed.

Lemma pretty_Z_digits (z : Z) : (0 <= z)%Z -> digits_only (pretty z) = true.
Proof.
  intros Hz. destruct z as [|p|p]; [done| |lia].
  apply (pretty_N_digits (Npos p)).
Qed.

(** Two strings of digits followed by something else are equal only
    part by part. *)
Lemma digits_split a1 a2 c1 c2 b1 b2 :
  digits_only a1 = true -> digits_only a2 = true ->
  is_digit c1 = false -> is_digit c2 = false ->
  a1 +:+ String c1 b1 = a2 +:+ String c2 b2 ->
  a1 = a2 /\ c1 = c2 /\ b1 = b2.
Proof.
  revert a2. induction a1 as [|x a1 IH]; intros [|y a2] H1 H2 Hc1 Hc2;
    rewrite ?append_nil_l, ?append_cons; simpl in H1, H2.
  - by intros [= -> ->].
  - intros [= -> _]. apply andb_true_iff in H2 as [H2 _]. congruence.
  - intros [= -> _]. apply andb_true_iff in H1 as [H1 _]. congruence.
  - apply andb_true_iff in H1 as [_ H1]. apply andb_true_iff in H2 as [_ H2].
    intros [= -> H]. destruct (IH a2 H1 H2 Hc1 Hc2 H) as (-> & -> & ->). done.
Qed.

Lemma d02_two_digits (k : nat) : k < 100 -> d02 (Z.of_nat k) = two_digits k.
Proof.
  intros Hk.
  do 100 (destruct k as [|k]; [vm_compute; reflexivity|]). lia.
Qed.

Lemma digit_char_inj d1 d2 :
  d1 < 10 -> d2 < 10 -> digit_char d1 = digit_char d2 -> d1 = d2.
Proof.
  intros H1 H2 H. apply (f_equal nat_of_ascii) in H. unfold digit_char in H.
  rewrite !nat_ascii_embedding in H by lia. lia.
Qed.

Lemma two_digits_split k1 k2 r1 r2 :
  k1 < 100 -> k2 < 100 ->
  two_digits k1 +:+ r1 = two_digits k2 +:+ r2 -> k1 = k2 /\ r1 = r2.
Proof.
  intros H1 H2. unfold two_digits.
  assert (Ha1 : k1 / 10 < 10) by (apply Nat.Div0.div_lt_upper_bound; lia).
  assert (Ha2 : k2 / 10 < 10) by (apply Nat.Div0.div_lt_upper_bound; lia).
  pose proof (Nat.mod_upper_bound k1 10 ltac:(lia)) as Hb1.
  pose proof (Nat.mod_upper_bound k2 10 ltac:(lia)) as Hb2.
  rewrite (Nat.div_mod_eq k1 10), (Nat.div_mod_eq k2 10) at 3.
  generalize dependent (k1 / 10). generalize dependent (k1 mod 10).
  generalize dependent (k2 / 10). generalize dependent (k2 mod 10).
  intros b2 a2 b1 a1 Ha2 Hb2 Ha1 Hb1.
  rewrite !append_cons, !append_nil_l.
  intros [= Ha Hb ->]. split; [|done].
  apply digit_char_inj in Ha; [|lia|lia].
  apply digit_char_inj in Hb; [|lia|lia].
  lia.
Qed.

Lemma String_inj c1 c2 s1 s2 : String c1 s1 = String c2 s2 -> c1 = c2 /\ s1 = s2.
Proof. by intros [= -> ->]. Qed.

Lemma d02_Z (n : Z) : (0 <= n < 100)%Z -> d02 n = two_digits (Z.to_nat n).
Proof.
  intros Hn. rewrite <- (Z2Nat.id n) at 1 by lia. apply d02_two_digits. lia.
Qed.

Lemma format_cs_inj (cs1 cs2 : Z) :
  (0 <= cs1)%Z -> (0 <= cs2)%Z -> format_cs cs1 = format_cs cs2 -> cs1 = cs2.
Proof.
  intros H1 H2. unfold format_cs. cbv zeta.
  set (f1 := (cs1 mod 100)%Z). set (f2 := (cs2 mod 100)%Z).
  set (s1 := ((cs1 / 100) mod 60)%Z). set (s2 := ((cs2 / 100) mod 60)%Z).
  set (m1 := ((cs1 / 100 / 60) mod 60)%Z). set (m2 := ((cs2 / 100 / 60) mod 60)%Z).
  set (h1 := (cs1 / 100 / 3600)%Z). set (h2 := (cs2 / 100 / 3600)%Z).
  assert (Hf1 : (0 <= f1 < 100)%Z) by (apply Z.mod_pos_bound; lia).
  assert (Hf2 : (0 <= f2 < 100)%Z) by (apply Z.mod_pos_bound; lia).
  assert (Hs1 : (0 <= s1 < 60)%Z) by (apply Z.mod_pos_bound; lia).
  assert (Hs2 : (0 <= s2 < 60)%Z) by (apply Z.mod_pos_bound; lia).
  assert (Hm1 : (0 <= m1 < 60)%Z) by (apply Z.mod_pos_bound; lia).
  assert (Hm2 : (0 <= m2 < 60)%Z) by (apply Z.mod_pos_bound; lia).
  assert (Hh1 : (0 <= h1)%Z) by (unfold h1; Z.div_mod_to_equations; lia).
  assert (Hh2 : (0 <= h2)%Z) by (unfold h2; Z.div_mod_to_equations; lia).
  assert (Hcs1 : (cs1 = ((h1 * 60 + m1) * 60 + s1) * 100 + f1)%Z).
  { unfold h1, m1, s1, f1. Z.div_mod_to_equations. lia. }
  assert (Hcs2 : (cs2 = ((h2 * 60 + m2) * 60 + s2) * 100 + f2)%Z).
  { unfold h2, m2, s2, f2. Z.div_mod_to_equations. lia. }
  clearbody f1 f2 s1 s2 m1 m2 h1 h2.
  rewrite (d02_Z f1), (d02_Z f2), (d02_Z s1), (d02_Z s2), (d02_Z m1), (d02_Z m2)
    by lia.
  pose proof (pretty_Z_digits h1 Hh1) as Dh1.
  pose proof (pretty_Z_digits h2 Hh2) as Dh2.
  pose proof (pretty_Z_digits m1 ltac:(lia)) as Dm1.
  pose proof (pretty_Z_digits m2 ltac:(lia)) as Dm2.
  pose proof (pretty_Z_digits s1 ltac:(lia)) as Ds1.
  pose proof (pretty_Z_digits s2 ltac:(lia)) as Ds2.
  assert (Ncolon : is_digit ":" = false) by reflexivity.
  assert (Ndot : is_digit "." = false) by reflexivity.
  change (":" +:+ ?x) with (String ":"%char x).
  change ("." +:+ ?x) with (String "."%char x).
  assert (Hlast : forall r1 r2 : nat,
            r1 < 100 -> r2 < 100 -> two_digits r1 = two_digits r2 -> r1 = r2).
  { intros r1 r2 Hr1 Hr2 Hr.
    apply (two_digits_split r1 r2 "" ""); [done|done|].
    unfold two_digits in *. by rewrite !append_cons, !append_nil_l. }
  destruct (0 <? h1)%Z eqn:E1, (0 <? h2)%Z eqn:E2.
  - intros Heq. apply digits_split in Heq as (Ha & _ & Hb); [|done..].
    apply (inj pretty) in Ha.
    apply two_digits_split in Hb as [Hm Hb]; [|lia..].
    apply String_inj in Hb as [_ Hb].
    apply two_digits_split in Hb as [Hs Hb]; [|lia..].
    apply String_inj in Hb as [_ Hb].
    apply Hlast in Hb; [|lia..]. lia.
  - destruct (0 <? m2)%Z eqn:E4; intros Heq;
      apply digits_split in Heq as (Ha & Hc & Hb); done.
  - destruct (0 <? m1)%Z eqn:E3; intros Heq;
      apply digits_split in Heq as (Ha & Hc & Hb); done.
  - apply Z.ltb_ge in E1, E2.
    destruct (0 <? m1)%Z eqn:E3, (0 <? m2)%Z eqn:E4; intros Heq;
      apply digits_split in Heq as (Ha & Hc & Hb); try done;
      apply (inj pretty) in Ha.
    + apply two_digits_split in Hb as [Hs Hb]; [|lia..].
      apply String_inj in Hb as [_ Hb].
      apply Hlast in Hb; [|lia..]. lia.
    + apply Z.ltb_ge in E3, E4. apply Hlast in Hb; [|lia..]. lia.
Qed.

(** X29. The display of a non-negative duration determines the duration
    to the centisecond: two durations that are shown alike round to the
    same number of centiseconds. *)
Theorem format_time_seconds_inj (t1 t2 : spec_float) (cs1 cs2 : Z) :
  py_round (float_mul t1 (float_of_int 100)) = Some cs1 ->
  py_round (float_mul t2 (float_of_int 100)) = Some cs2 ->
  (0 <= cs1)%Z -> (0 <= cs2)%Z ->
  format_time_seconds (Some t1) = format_time_seconds (Some t2) ->
  cs1 = cs2.
Proof.
  intros Hr1 Hr2 H1 H2. unfold format_time_seconds.
  destruct t1 as [s1|s1| |s1 m1 e1]; try done;
    destruct t2 as [s2|s2| |s2 m2 e2]; try done;
    rewrite Hr1, Hr2; intros [= Heq]; by apply format_cs_inj.
Qed.

(** ** Sample durations *)

Lemma format_time_seconds_negative_witness :
  py_round (float_mul minus_one_second (float_of_int 100)) = Some (-100)%Z
  /\ (-100 < 0)%Z
  /\ format_time_seconds (Some minus_one_second)
     = Some (format_cs (-100 mod 360000))
  /\ (0 <= -100 mod 360000 < 360000)%Z.
Proof.
  split; [reflexivity|]. split; [reflexivity|].
  apply (format_time_seconds_negative minus_one_second (-100)); reflexivity.
Defined.

(** Minus one second is shown as 59:59.00; 83.456 s as 1:23.46. *)
Example format_time_seconds_samples :
  format_time_seconds (Some minus_one_second) = Some "59:59.00"
  /\ format_time_seconds (Some (S754_finite false 5872693914091127 (-46)))
     = Some "1:23.46"
  /\ format_time_seconds (Some (S754_infinity false)) = None
  /\ format_time_seconds (Some S754_nan) = Some "".
Proof. repeat split; vm_compute; reflexivity. Qed.

Lemma format_time_seconds_inj_witness :
  let t1 := S754_finite false 5872693914091127 (-46) in
  let t2 := S754_finite false 5872623545346949 (-46) in
  py_round (float_mul t1 (float_of_int 100)) = Some 8346%Z
  /\ py_round (float_mul t2 (float_of_int 100)) = Some 8346%Z
  /\ (0 <= 8346)%Z
  /\ format_time_seconds (Some t1) = format_time_seconds (Some t2)
  /\ 8346%Z = 8346%Z.
Proof.
  intros t1 t2.
  assert (H1 : py_round (float_mul t1 (float_of_int 100)) = Some 8346%Z)
    by (vm_compute; reflexivity).
  assert (H2 : py_round (float_mul t2 (float_of_int 100)) = Some 8346%Z)
    by (vm_compute; reflexivity).
  assert (H3 : format_time_seconds (Some t1) = format_time_seconds (Some t2))
    by (vm_compute; reflexivity).
  split; [exact H1|]. split; [exact H2|]. split; [lia|]. split; [exact H3|].
  apply (format_time_seconds_inj t1 t2 8346 8346 H1 H2); [lia|lia|exact H3].
Defined.

(** ** The paging properties on the two-page server *)

Lemma two_pages_served :
  forall i page,
    [[raw_run "r1" "A" [user "p1"] 10 "verified"];
     [raw_run "r2" "A" [user "p2"] 12 "verified"]] !! i = Some page ->
    page <> []
    /\ serves two_pages (length (requests two_pages) + i)
         (runs_url default_ApiClient GAME_ID (asked_max default_ApiClient None)
            (i * offset_step default_ApiClient None)) (JArr page).
Proof.
  intros [|[|i]] page Hi; simpl in Hi; [| |discriminate Hi];
    injection Hi as <-; (split; [discriminate|]);
    eexists; split; reflexivity.
Defined.

Lemma get_all_runs_to_the_end_witness :
  let pages := [[raw_run "r1" "A" [user "p1"] 10 "verified"];
                [raw_run "r2" "A" [user "p2"] 12 "verified"]] in
  serves two_pages (length (requests two_pages) + length pages)
    (runs_url default_ApiClient GAME_ID (asked_max default_ApiClient None)
       (length pages * offset_step default_ApiClient None)) (JArr [])
  /\ truthy (JArr []) = false
  /\ length pages < 3
  /\ exists w',
       get_all_runs 3 default_ApiClient GAME_ID None None None two_pages
       = Some (Ok (concat pages), w')
       /\ requests w'
          = requests two_pages
              ++ page_urls default_ApiClient GAME_ID None 0 (S (length pages)).
Proof.
  intros pages.
  assert (Hlast : serves two_pages (length (requests two_pages) + length pages)
            (runs_url default_ApiClient GAME_ID (asked_max default_ApiClient None)
               (length pages * offset_step default_ApiClient None)) (JArr [])).
  { eexists. split; reflexivity. }
  split; [exact Hlast|]. split; [reflexivity|]. split; [simpl; lia|].
  apply (get_all_runs_to_the_end default_ApiClient GAME_ID None None two_pages
           pages (JArr []) 3);
    [exact two_pages_served|exact Hlast|reflexivity|simpl; lia].
Defined.

Lemma first_page_served :
  forall i page,
    [[raw_run "r1" "A" [user "p1"] 10 "verified"]] !! i = Some page ->
    page <> []
    /\ serves two_pages (length (requests two_pages) + i)
         (runs_url default_ApiClient GAME_ID (asked_max default_ApiClient None)
            (i * offset_step default_ApiClient None)) (JArr page).
Proof.
  intros [|i] page Hi; simpl in Hi; [|discriminate Hi].
  injection Hi as <-. split; [discriminate|]. eexists. split; reflexivity.
Defined.

Lemma get_all_runs_page_cap_witness :
  let pages := [[raw_run "r1" "A" [user "p1"] 10 "verified"]] in
  0 < 1 /\ length pages = 1 /\ 1 <= 1
  /\ exists w',
       get_all_runs 1 default_ApiClient GAME_ID None (Some 1) None two_pages
       = Some (Ok (concat pages), w')
       /\ requests w'
          = requests two_pages ++ page_urls default_ApiClient GAME_ID None 0 1.
Proof.
  intros pages. split; [lia|]. split; [reflexivity|]. split; [lia|].
  apply (get_all_runs_page_cap default_ApiClient GAME_ID None None two_pages
           pages 1 1); [lia|reflexivity|exact first_page_served|lia].
Defined.

(** ** The repository properties on the sample worlds *)

Lemma fetch_verified_runs_cache_not_a_list_witness :
  let fetch := get_all_runs 1 default_ApiClient GAME_ID None None None
                 cache_is_object in
  let w1 := world_after cache_is_object fetch in
  files cache_is_object !! CACHE_FILE = Some (Content (JObj [("runs", JArr [])]))
  /\ (forall items, JObj [("runs", JArr [])] <> JArr items)
  /\ fetch = Some (Raise first_page_failed, w1)
  /\ fetch_verified_runs 1 cache_is_object
     = Some (Raise (TypeError "unsupported operand type(s) for +"), w1)
  /\ files w1 = files cache_is_object.
Proof.
  intros fetch w1.
  assert (Hfetch : fetch = Some (Raise first_page_failed, w1)) by reflexivity.
  split; [reflexivity|]. split; [discriminate|]. split; [exact Hfetch|].
  apply (fetch_verified_runs_cache_not_a_list 1 cache_is_object
           (JObj [("runs", JArr [])]) (Raise first_page_failed) w1);
    [reflexivity|discriminate|exact Hfetch].
Defined.

Lemma fetch_verified_runs_result_not_empty_witness :
  let run := fetch_verified_runs 2 refresh_world in
  run = Some (Ok (JArr [fresh_r1]), world_after refresh_world run)
  /\ exists runs, JArr [fresh_r1] = JArr runs /\ runs <> [].
Proof.
  intros run.
  assert (Hrun : run = Some (Ok (JArr [fresh_r1]), world_after refresh_world run))
    by reflexivity.
  split; [exact Hrun|].
  exact (fetch_verified_runs_result_not_empty 2 refresh_world (JArr [fresh_r1])
           (world_after refresh_world run) Hrun).
Defined.

Lemma fetch_verified_runs_only_cache_file_witness :
  let fs := <[PLAYER_CACHE_FILE := Content (JObj [])]> (files_with_cache [stale_r1]) in
  let w := one_page [fresh_r1; rejected_r2] fs in
  let run := fetch_verified_runs 2 w in
  run = Some (Ok (JArr [fresh_r1]), world_after w run)
  /\ PLAYER_CACHE_FILE <> CACHE_FILE
  /\ files (world_after w run) !! PLAYER_CACHE_FILE
     = files w !! PLAYER_CACHE_FILE.
Proof.
  intros fs w run.
  assert (Hrun : run = Some (Ok (JArr [fresh_r1]), world_after w run))
    by reflexivity.
  split; [exact Hrun|]. split; [discriminate|].
  apply (fetch_verified_runs_only_cache_file 2 w (Ok (JArr [fresh_r1]))
           (world_after w run) PLAYER_CACHE_FILE); [exact Hrun|discriminate].
Defined.

Lemma all_rejected_none_verified :
  forall i r,
    merged_by_id ([fresh_r1]
                    ++ fetched_runs_of (Ok [raw_run "r1" "A" [user "p1"] 10 "rejected"]))
      !! i = Some r ->
    ~ verified r.
Proof.
  intros i r Hir Hv.
  assert (Hm : merged_by_id ([fresh_r1]
                 ++ fetched_runs_of (Ok [raw_run "r1" "A" [user "p1"] 10 "rejected"]))
               = {[ "r1" := raw_run "r1" "A" [user "p1"] 10 "rejected" ]}).
  { unfold merged_by_id. simpl. unfold merge_step. simpl.
    by rewrite insert_insert_eq. }
  rewrite Hm in Hir. apply lookup_singleton_Some in Hir as [_ <-].
  discriminate Hv.
Defined.

Lemma fetch_verified_runs_last_resort_witness :
  let fetch := get_all_runs 2 default_ApiClient GAME_ID None None None
                 all_rejected in
  let fetched := Ok [raw_run "r1" "A" [user "p1"] 10 "rejected"] in
  safe_read_json CACHE_FILE (JArr []) all_rejected = JArr [fresh_r1]
  /\ [fresh_r1] <> []
  /\ fetch = Some (fetched, world_after all_rejected fetch)
  /\ Forall (fun r => run_record r = true) ([fresh_r1] ++ fetched_runs_of fetched)
  /\ exists w2,
       fetch_verified_runs 2 all_rejected = Some (Ok (JArr [fresh_r1]), w2)
       /\ (denied all_rejected CACHE_FILE = false ->
           files w2 = <[CACHE_FILE := Content (JArr [])]> (files all_rejected)).
Proof.
  intros fetch fetched.
  assert (Hfetch : fetch = Some (fetched, world_after all_rejected fetch))
    by reflexivity.
  assert (Hwf : Forall (fun r => run_record r = true)
                  ([fresh_r1] ++ fetched_runs_of fetched))
    by (repeat constructor).
  split; [reflexivity|]. split; [discriminate|]. split; [exact Hfetch|].
  split; [exact Hwf|].
  apply (fetch_verified_runs_last_resort 2 all_rejected [fresh_r1] fetched
           (world_after all_rejected fetch));
    [reflexivity|discriminate|exact Hfetch|exact Hwf
    |exact all_rejected_none_verified].
Defined.

(** The stale cache is served once; the cache file is left empty. *)
Example all_rejected_run :
  let run := fetch_verified_runs 2 all_rejected in
  fst <$> run = Some (Ok (JArr [fresh_r1]))
  /\ files (world_after all_rejected run) !! CACHE_FILE
     = Some (Content (JArr [])).
Proof. split; reflexivity. Qed.

Lemma refresh_world_some_verified :
  exists i r,
    merged_by_id ([stale_r1] ++ fetched_runs_of (Ok [fresh_r1; rejected_r2]))
      !! i = Some r
    /\ verified r.
Proof. exists "r1", fresh_r1. split; reflexivity. Defined.

Lemma fetch_verified_runs_then_offline_witness :
  let fetch := get_all_runs 2 default_ApiClient GAME_ID None None None
                 refresh_world in
  let fetched := Ok [fresh_r1; rejected_r2] in
  safe_read_json CACHE_FILE (JArr []) refresh_world = JArr [stale_r1]
  /\ fetch = Some (fetched, world_after refresh_world fetch)
  /\ Forall (fun r => run_record r = true) ([stale_r1] ++ fetched_runs_of fetched)
  /\ denied refresh_world CACHE_FILE = false
  /\ exists v w2,
       fetch_verified_runs 2 refresh_world = Some (Ok v, w2)
       /\ forall fuel' w' e w1',
            files w' !! CACHE_FILE = files w2 !! CACHE_FILE ->
            get_all_runs fuel' default_ApiClient GAME_ID None None None w'
            = Some (Raise e, w1') ->
            exists w2', fetch_verified_runs fuel' w' = Some (Ok v, w2').
Proof.
  intros fetch fetched.
  assert (Hfetch : fetch = Some (fetched, world_after refresh_world fetch))
    by reflexivity.
  assert (Hwf : Forall (fun r => run_record r = true)
                  ([stale_r1] ++ fetched_runs_of fetched))
    by (repeat constructor).
  split; [reflexivity|]. split; [exact Hfetch|]. split; [exact Hwf|].
  split; [reflexivity|].
  apply (fetch_verified_runs_then_offline 2 refresh_world [stale_r1] fetched
           (world_after refresh_world fetch));
    [reflexivity|exact Hfetch|exact Hwf|reflexivity
    |exact refresh_world_some_verified].
Defined.

(** ** The last-refresh file and the display names on sample worlds *)

Lemma set_global_last_refresh_round_trip_witness :
  denied (offline ∅) LAST_REFRESH_TMP = false
  /\ denied (offline ∅) LAST_REFRESH_FILE = false
  /\ exists w',
       set_global_last_refresh (3400000001 # 2) (offline ∅) = (true, w')
       /\ get_global_last_refresh w' = Some (Some (3400000001 # 2))
       /\ files w' !! LAST_REFRESH_TMP = None.
Proof.
  split; [reflexivity|]. split; [reflexivity|].
  apply (set_global_last_refresh_round_trip (3400000001 # 2) (offline ∅));
    reflexivity.
Defined.

Lemma offline_unreachable fs : unreachable (offline fs).
Proof. intros n url. reflexivity. Defined.


(** Offline and without the category cache the pipeline fails. *)
Example load_categories_no_cache :
  fst (load_categories_and_levels (offline ∅))
  = inl (RuntimeErrorFrom "Failed to load categories"
           (no_response categories_api)).
Proof. reflexivity. Qed.

Lemma load_player_map_cache_witness :
  let w := offline players_cache in
  let df := [sample_row (Some "p1") 10; sample_row (Some "p2") 12;
             sample_row None 15] in
  let fields := [("p1", JStr "Alice")] in
  safe_read_json PLAYER_CACHE_FILE (JObj []) w = JObj fields
  /\ exists fields' w' new,
       load_player_map df w = (Ok (JObj fields'), w')
       /\ (forall p, p ∈ players df -> is_Some (dict_get p fields'))
       /\ (forall p v, dict_get p fields = Some v -> dict_get p fields' = Some v)
       /\ requests w' = requests w ++ new
       /\ Forall (fun url => exists p, url = user_api p /\ p ∈ players df
                                       /\ dict_get p fields = None) new
       /\ (denied w PLAYER_CACHE_FILE = false ->
           files w' !! PLAYER_CACHE_FILE = Some (Content (JObj fields'))).
Proof.
  intros w df fields. split; [reflexivity|].
  apply (load_player_map_cache df w fields). reflexivity.
Defined.

Lemma load_player_map_offline_witness :
  let w := offline players_cache in
  let df := [sample_row (Some "p1") 10; sample_row (Some "p2") 12;
             sample_row None 15] in
  let fields := [("p1", JStr "Alice")] in
  unreachable w
  /\ safe_read_json PLAYER_CACHE_FILE (JObj []) w = JObj fields
  /\ denied w PLAYER_CACHE_FILE = false
  /\ exists fields' w',
       load_player_map df w = (Ok (JObj fields'), w')
       /\ (forall p, p ∈ players df -> dict_get p fields = None ->
             dict_get p fields' = Some (JStr p))
       /\ safe_read_json PLAYER_CACHE_FILE (JObj []) w' = JObj fields'.
Proof.
  intros w df fields. split; [apply offline_unreachable|].
  split; [reflexivity|]. split; [reflexivity|].
  apply (load_player_map_offline df w fields);
    [apply offline_unreachable|reflexivity|reflexivity].
Defined.

(** Offline, the cached player keeps the name and the unknown one gets
    the id; three requests were made, all for the unknown player. *)
Example load_player_map_offline_run :
  let run := load_player_map
               [sample_row (Some "p1") 10; sample_row (Some "p2") 12;
                sample_row None 15] (offline players_cache) in
  fst run = Ok (JObj [("p1", JStr "Alice"); ("p2", JStr "p2")])
  /\ requests (snd run) = replicate 3 (user_api "p2").
Proof. split; reflexivity. Qed.
